(** * sonicconv: the SonicArranger packed-format converter

    A shallow embedding of [src/Amiga/sonicconv.c] and the properties of
    its conversion pipeline (locator, layout resolver, metadata joiner,
    writer).

    Platform conventions, as the source is written for SAS/C 6.5 on the
    Amiga (m68k): [long] and pointers are 32 bits, [short] is 16 bits,
    multi-byte integers are stored big-endian, [sizeof(sample_info)] is 16.
    Arithmetic on [long] is modelled on [Z] with the two's complement
    wrap-around written out ([wrap32]).  A memory access outside the
    buffer it refers to, or through a null pointer, has no defined
    behaviour in C: it is modelled as the result [None].

    [convert] is modelled from the point where the input buffer has been
    allocated and filled (the calls of [stat], [fopen] and [malloc] for
    the input are not part of the model), and every [fwrite] is taken to
    write all its bytes, as the source takes it. *)

From Stdlib Require Import ZArith Lia List Strings.Byte.
From stdpp Require Import base option list.
Import ListNotations.
Local Open Scope Z_scope.

(** ** Machine integers *)

Definition wrap32 (z : Z) : Z := (z + 2 ^ 31) mod 2 ^ 32 - 2 ^ 31.
Definition wrap16 (z : Z) : Z := (z + 2 ^ 15) mod 2 ^ 16 - 2 ^ 15.

(** [long] arithmetic. *)
Definition add32 (a b : Z) : Z := wrap32 (a + b).
Definition sub32 (a b : Z) : Z := wrap32 (a - b).
Definition mul32 (a b : Z) : Z := wrap32 (a * b).

(** Conversion of a [long] to [size_t] (unsigned, 32 bits). *)
Definition to_size_t (z : Z) : Z := z mod 2 ^ 32.

(** ** Bytes and the input buffer *)

Definition Z_of_byte (b : byte) : Z := Z.of_N (Byte.to_N b).

Definition byte_of_Z (z : Z) : byte :=
  default x00 (Byte.of_N (Z.to_N (z mod 256))).

(** The byte at index [i] of a buffer; [None] outside of it. *)
Definition peek (dat : list byte) (i : Z) : option Z :=
  if 0 <=? i then Z_of_byte <$> dat !! Z.to_nat i else None.

(** The C expression that reads an [unsigned short] at [dat + off]. *)
Definition read_ushort (dat : list byte) (off : Z) : option Z :=
  b0 ← peek dat off;
  b1 ← peek dat (off + 1);
  Some (b0 * 2 ^ 8 + b1).

(** The C expression that reads a [long] at [dat + off]. *)
Definition read_long (dat : list byte) (off : Z) : option Z :=
  b0 ← peek dat off;
  b1 ← peek dat (off + 1);
  b2 ← peek dat (off + 2);
  b3 ← peek dat (off + 3);
  Some (wrap32 (b0 * 2 ^ 24 + b1 * 2 ^ 16 + b2 * 2 ^ 8 + b3)).

(** The four bytes of a [long] in memory, as [fwrite(&x, 1, 4, f)] sees them. *)
Definition long_bytes (z : Z) : list byte :=
  [byte_of_Z (z / 2 ^ 24); byte_of_Z (z / 2 ^ 16); byte_of_Z (z / 2 ^ 8);
   byte_of_Z z].

(** The [len] bytes of the buffer from index [off] on, as
    [fwrite(dat + off, 1, len, f)] reads them.  [len] is a [long] that the
    call converts to [size_t]: a negative [len] becomes a size of at least
    2^31 bytes, which no buffer of this platform holds, so that the read
    leaves the buffer. A call with size 0 reads nothing. *)
Definition bytes_at (dat : list byte) (off len : Z) : option (list byte) :=
  if len =? 0 then Some []
  else if (0 <? len) && (0 <=? off) && (off + len <=? Z.of_nat (length dat))
       then Some (take (Z.to_nat len) (drop (Z.to_nat off) dat))
       else None.

(** ** Constants of the output format *)

(** The identifiers, without the terminating zero of the C strings, which
    is never written. *)
Definition SOAR_ID : list byte := ["S"; "O"; "A"; "R"; "V"; "1"; "."; "0"]%byte.
Definition STBL_ID : list byte := ["S"; "T"; "B"; "L"]%byte.
Definition OVTB_ID : list byte := ["O"; "V"; "T"; "B"]%byte.
Definition NTBL_ID : list byte := ["N"; "T"; "B"; "L"]%byte.
Definition INST_ID : list byte := ["I"; "N"; "S"; "T"]%byte.
Definition SD8B_ID : list byte := ["S"; "D"; "8"; "B"]%byte.
Definition SYWT_ID : list byte := ["S"; "Y"; "W"; "T"]%byte.
Definition SYAR_ID : list byte := ["S"; "Y"; "A"; "R"]%byte.
Definition SYAF_ID : list byte := ["S"; "Y"; "A"; "F"]%byte.
Definition EDAT_ID : list byte := ["E"; "D"; "A"; "T"; "V"; "1"; "."; "1"]%byte.
Definition EDAT_DATA : list byte :=
  map byte_of_Z [0; 1; 0; 1; 0; 0; 0; 0x7b; 0; 0; 0; 0; 0; 1; 0; 3].

(** ** findsong *)

(** The test of the loop body: [*p1 == 0x28 && *p2 > *p1 && *p2 < 0x400],
    with [p1] at [offset] and [p2] one [long] later. [*p2] is read only
    when the first conjunct holds. *)
Definition signature_at (data : list byte) (offset : Z) : option bool :=
  p1 ← read_long data offset;
  if p1 =? 0x28 then
    p2 ← read_long data (offset + 4);
    Some ((p1 <? p2) && (p2 <? 0x400))
  else Some false.

(** The [for] loop of [findsong]; [fuel] bounds the number of iterations
    and [None] is returned when it runs out or when a read leaves the
    buffer. *)
Fixpoint findsong_loop (fuel : nat) (data : list byte) (max_offset offset : Z)
  : option Z :=
  match fuel with
  | O => None
  | S fuel' =>
      if offset <? max_offset then
        hit ← signature_at data offset;
        if hit : bool then Some offset
        else findsong_loop fuel' data max_offset (offset + 2)
      else Some (-1)
  end.

Definition findsong (data : list byte) (size : Z) : option Z :=
  let max_offset := size - 0x28 in
  findsong_loop (S (Z.to_nat max_offset)) data max_offset 0.

(** ** The data of [convert] *)

(** [struct sample_info]: the data stored per sample. The field [length]
    of the source is [si_length] here; [name_from_instr] is a pointer into
    the input buffer, kept as the index it points to, and [None] is the
    null pointer. *)
Record sample_info := {
  si_length : Z;                  (* length in bytes *)
  length_from_instr : Z;          (* length in words *)
  repeat_from_instr : Z;          (* repeat in words *)
  name_from_instr : option Z      (* pointer to name entry in instrument table *)
}.

(** An entry as [memset(samples_info, 0, samples_info_size)] leaves it. *)
Definition zero_info : sample_info :=
  {| si_length := 0; length_from_instr := 0; repeat_from_instr := 0;
     name_from_instr := None |}.

Definition set_length (v : Z) (e : sample_info) : sample_info :=
  {| si_length := v; length_from_instr := length_from_instr e;
     repeat_from_instr := repeat_from_instr e;
     name_from_instr := name_from_instr e |}.
Definition set_length_from_instr (v : Z) (e : sample_info) : sample_info :=
  {| si_length := si_length e; length_from_instr := v;
     repeat_from_instr := repeat_from_instr e;
     name_from_instr := name_from_instr e |}.
Definition set_repeat_from_instr (v : Z) (e : sample_info) : sample_info :=
  {| si_length := si_length e; length_from_instr := length_from_instr e;
     repeat_from_instr := v; name_from_instr := name_from_instr e |}.
Definition set_name_from_instr (p : Z) (e : sample_info) : sample_info :=
  {| si_length := si_length e; length_from_instr := length_from_instr e;
     repeat_from_instr := repeat_from_instr e; name_from_instr := Some p |}.

(** Entry [i] of the array [samples_info], read and written; the array
    holds as many entries as were allocated, and an index outside of it
    is an invalid access. *)
Definition load (si : list sample_info) (i : Z) : option sample_info :=
  if 0 <=? i then si !! Z.to_nat i else None.

Definition store (si : list sample_info) (i : Z)
    (f : sample_info → sample_info) : option (list sample_info) :=
  e ← load si i; Some (<[Z.to_nat i := f e]> si).

(** The offsets, lengths and counts that [convert] computes from the
    offset table. *)
Record layout := {
  song_offset : Z; over_offset : Z; note_offset : Z; instr_offset : Z;
  wave_offset : Z; adsr_offset : Z; amf_offset : Z; sample_offset : Z;
  song_len : Z; over_len : Z; note_len : Z; instr_len : Z;
  wave_len : Z; adsr_len : Z; amf_len : Z;
  song_cnt : Z; over_cnt : Z; note_cnt : Z; instr_cnt : Z;
  wave_cnt : Z; adsr_cnt : Z; amf_cnt : Z; sample_cnt : Z
}.

(** The lines [convert] prints. *)
Inductive message :=
  | Source_size (f_in_size : Z)
  | Read_bytes (read_len : Z)
  | Read_failed (expected got : Z)
  | Found_module (offset : Z)
  | Inconsistent_sample_id (instr_sample_id i : Z)
  | Tables (l : layout) (sample_len : Z)
  | Conversion_written
  | Cannot_open_file
  | Cannot_allocate_memory
  | Song_not_found.

(** What the run-time environment decides: whether [malloc] of a given
    size returns a block, and whether the output file can be opened. *)
Record env := {
  malloc_ok : Z → bool;
  fopen_out_ok : bool
}.

(** What a run of [convert] leaves behind: the lines printed and, when the
    output file was opened, its contents. *)
Record result := {
  stdout : list message;
  f_out : option (list byte)
}.

(** ** Loops *)

(** [for(i = 0; i < n; i++) body], the body acting on a state and possibly
    performing an invalid access. *)
Fixpoint for_each {St : Type} (body : Z → St → option St) (idx : list Z)
    (s : St) : option St :=
  match idx with
  | [] => Some s
  | i :: idx' => s' ← body i s; for_each body idx' s'
  end.

Definition for_range {St : Type} (n : Z) (body : Z → St → option St) (s : St)
  : option St :=
  for_each body (seqZ 0 n) s.

(** ** convert: the layout (lines 124 to 150) *)

Definition convert_layout (dat : list byte) (offset : Z) : option layout :=
  r0 ← read_long dat offset;
  r1 ← read_long dat (offset + 4);
  r2 ← read_long dat (offset + 8);
  r3 ← read_long dat (offset + 12);
  r4 ← read_long dat (offset + 16);
  r5 ← read_long dat (offset + 20);
  r6 ← read_long dat (offset + 24);
  r7 ← read_long dat (offset + 28);
  let song_offset := add32 offset r0 in
  let over_offset := add32 offset r1 in
  let note_offset := add32 offset r2 in
  let instr_offset := add32 offset r3 in
  let wave_offset := add32 offset r4 in
  let adsr_offset := add32 offset r5 in
  let amf_offset := add32 offset r6 in
  let sample_offset := add32 offset r7 in
  let song_len := sub32 over_offset song_offset in
  let over_len := sub32 note_offset over_offset in
  let note_len := sub32 instr_offset note_offset in
  let instr_len := sub32 wave_offset instr_offset in
  let wave_len := sub32 adsr_offset wave_offset in
  let adsr_len := sub32 amf_offset adsr_offset in
  let amf_len := sub32 sample_offset amf_offset in
  sample_cnt ← read_long dat sample_offset;
  Some {| song_offset := song_offset; over_offset := over_offset;
          note_offset := note_offset; instr_offset := instr_offset;
          wave_offset := wave_offset; adsr_offset := adsr_offset;
          amf_offset := amf_offset; sample_offset := sample_offset;
          song_len := song_len; over_len := over_len; note_len := note_len;
          instr_len := instr_len; wave_len := wave_len; adsr_len := adsr_len;
          amf_len := amf_len;
          song_cnt := song_len ÷ 12; over_cnt := over_len ÷ 16;
          note_cnt := note_len ÷ 4; instr_cnt := instr_len ÷ 152;
          wave_cnt := wave_len ÷ 128; adsr_cnt := adsr_len ÷ 128;
          amf_cnt := amf_len ÷ 128; sample_cnt := sample_cnt |}.

(** ** convert: the sample lengths (lines 152 to 163) *)

(** [sample_cnt * sizeof(sample_info)], an unsigned product. *)
Definition samples_info_size (sample_cnt : Z) : Z := to_size_t (sample_cnt * 16).

(** The block [malloc] returned, after [memset]. *)
Definition samples_info_init (sample_cnt : Z) : list sample_info :=
  replicate (Z.to_nat (samples_info_size sample_cnt ÷ 16)) zero_info.

(** State of the first loop: [sample_len] and the array. *)
Definition sample_step (dat : list byte) (sample_offset : Z) (i : Z)
    (st : Z * list sample_info) : option (Z * list sample_info) :=
  let '(sample_len, si) := st in
  s_len ← read_long dat (sample_offset + 4 + mul32 i 4);
  si' ← store si i (set_length s_len);
  Some (add32 sample_len s_len, si').

Definition convert_samples (dat : list byte) (l : layout)
  : option (Z * list sample_info) :=
  for_range (sample_cnt l) (sample_step dat (sample_offset l))
    (0, samples_info_init (sample_cnt l)).

(** ** convert: the instrument entries (lines 165 to 182) *)

(** State of the second loop: [i_offset], the array, and the lines printed
    so far. *)
Definition instr_state : Type := Z * list sample_info * list message.

Definition instr_step (dat : list byte) (sample_cnt : Z) (i : Z)
    (st : instr_state) : option instr_state :=
  let '(i_offset, si, out) := st in
  kind ← read_ushort dat i_offset;
  '(si', out') ←
    (if kind =? 0 then
       (* is sampled instrument *)
       raw ← read_ushort dat (i_offset + 2);
       let instr_sample_id := wrap16 raw in
       if (0 <=? instr_sample_id) && (instr_sample_id <? sample_cnt) then
         len ← read_ushort dat (i_offset + 4);
         si1 ← store si instr_sample_id (set_length_from_instr len);
         rep ← read_ushort dat (i_offset + 6);
         si2 ← store si1 instr_sample_id (set_repeat_from_instr rep);
         si3 ← store si2 instr_sample_id (set_name_from_instr (i_offset + 0x7a));
         Some (si3, out)
       else
         Some (si, out ++ [Inconsistent_sample_id instr_sample_id i])
     else Some (si, out));
  Some (add32 i_offset 0x98, si', out').

Definition convert_instr (dat : list byte) (l : layout)
    (si : list sample_info) : option (list sample_info * list message) :=
  '(_, si', out) ← for_range (instr_cnt l) (instr_step dat (sample_cnt l))
                     (instr_offset l, si, []);
  Some (si', out).

(** ** convert: the output file (lines 195 to 243) *)

(** [fwrite(src, 1, n, f_out)]: the bytes read at [src] are appended to
    the file; reading them may be an invalid access. *)
Definition fwrite (src : option (list byte)) (f_out : list byte)
  : option (list byte) :=
  bs ← src; Some (f_out ++ bs).

(** The 30 bytes that [fwrite(e.name_from_instr, 1, 30, f_out)] reads. *)
Definition name_bytes (dat : list byte) (e : sample_info) : option (list byte) :=
  p ← name_from_instr e; bytes_at dat p 30.

Definition convert_write (dat : list byte) (l : layout)
    (si : list sample_info) (sample_len : Z) : option (list byte) :=
  f ← fwrite (Some SOAR_ID) [];

  f ← fwrite (Some STBL_ID) f;
  f ← fwrite (Some (long_bytes (song_cnt l))) f;
  f ← fwrite (bytes_at dat (song_offset l) (song_len l)) f;

  f ← fwrite (Some OVTB_ID) f;
  f ← fwrite (Some (long_bytes (over_cnt l))) f;
  f ← fwrite (bytes_at dat (over_offset l) (over_len l)) f;

  f ← fwrite (Some NTBL_ID) f;
  f ← fwrite (Some (long_bytes (note_cnt l))) f;
  f ← fwrite (bytes_at dat (note_offset l) (note_len l)) f;

  f ← fwrite (Some INST_ID) f;
  f ← fwrite (Some (long_bytes (instr_cnt l))) f;
  f ← fwrite (bytes_at dat (instr_offset l) (instr_len l)) f;

  f ← fwrite (Some SD8B_ID) f;
  f ← fwrite (Some (long_bytes (sample_cnt l))) f;
  (* write lengths, repeats, names, lengths *)
  f ← for_range (sample_cnt l) (λ i f,
         e ← load si i; fwrite (Some (long_bytes (length_from_instr e))) f) f;
  f ← for_range (sample_cnt l) (λ i f,
         e ← load si i; fwrite (Some (long_bytes (repeat_from_instr e))) f) f;
  f ← for_range (sample_cnt l) (λ i f,
         e ← load si i; fwrite (name_bytes dat e) f) f;
  f ← for_range (sample_cnt l) (λ i f,
         e ← load si i; fwrite (Some (long_bytes (si_length e))) f) f;
  f ← fwrite (bytes_at dat (sample_offset l + 4 + mul32 (sample_cnt l) 4)
                sample_len) f;

  f ← fwrite (Some SYWT_ID) f;
  f ← fwrite (Some (long_bytes (wave_cnt l))) f;
  f ← fwrite (bytes_at dat (wave_offset l) (wave_len l)) f;

  f ← fwrite (Some SYAR_ID) f;
  f ← fwrite (Some (long_bytes (adsr_cnt l))) f;
  f ← fwrite (bytes_at dat (adsr_offset l) (adsr_len l)) f;

  f ← fwrite (Some SYAF_ID) f;
  f ← fwrite (Some (long_bytes (amf_cnt l))) f;
  f ← fwrite (bytes_at dat (amf_offset l) (amf_len l)) f;

  f ← fwrite (Some EDAT_ID) f;
  fwrite (Some EDAT_DATA) f.

(** ** convert *)

(** [convert] from the point where the input buffer has been filled:
    [dat] is the buffer of [f_in_size] bytes as [fread] left it and
    [read_len] is the number of bytes [fread] returned. The result is
    [None] when the run performs an invalid memory access. *)
Definition convert (e : env) (dat : list byte) (read_len : Z) : option result :=
  let f_in_size := Z.of_nat (length dat) in
  let out :=
    [Source_size f_in_size;
     if f_in_size =? read_len then Read_bytes read_len
     else Read_failed f_in_size read_len] in
  offset ← findsong dat f_in_size;
  if (0 <=? offset) && (offset <? f_in_size - 28) then
    let out := out ++ [Found_module offset] in
    l ← convert_layout dat offset;
    if malloc_ok e (samples_info_size (sample_cnt l)) then
      '(sample_len, si) ← convert_samples dat l;
      '(si, printed) ← convert_instr dat l si;
      let out := out ++ printed ++ [Tables l sample_len] in
      if fopen_out_ok e then
        f ← convert_write dat l si sample_len;
        Some {| stdout := out ++ [Conversion_written]; f_out := Some f |}
      else
        Some {| stdout := out ++ [Cannot_open_file]; f_out := None |}
    else
      Some {| stdout := out ++ [Cannot_allocate_memory]; f_out := None |}
  else
    Some {| stdout := out ++ [Song_not_found]; f_out := None |}.

(** ** Sample buffers *)

Definition longs (l : list Z) : list byte := flat_map long_bytes l.
Definition ushort_bytes (z : Z) : list byte := [byte_of_Z (z / 2 ^ 8); byte_of_Z z].
Definition zeros (n : nat) : list byte := replicate n x00.

(** An environment in which allocation and opening the output succeed. *)
Definition env_ok : env := {| malloc_ok := λ _, true; fopen_out_ok := true |}.

(** An instrument record of 152 bytes: kind, sample index, length and
    repeat in words, and the name in its last 30 bytes. *)
Definition instrument (kind id len rep : Z) (name : list byte) : list byte :=
  ushort_bytes kind ++ ushort_bytes id ++ ushort_bytes len ++ ushort_bytes rep ++
  zeros 114 ++ name.

Definition name_A : list byte := replicate 30 "A"%byte.
Definition name_B : list byte := replicate 30 "B"%byte.

(** A packed module with the offset table at 0: one song record, one
    overview record, one note, the given instrument records, no wave, ADSR
    or AMF data, and samples of the given byte lengths. *)
Definition packed_module (instrs : list (list byte)) (lens : list Z)
    (payload : list byte) : list byte :=
  let i_end := 72 + 152 * Z.of_nat (length instrs) in
  longs [40; 52; 68; 72; i_end; i_end; i_end; i_end] ++ zeros 8 ++
  zeros 12 ++ zeros 16 ++ zeros 4 ++ concat instrs ++
  longs (Z.of_nat (length lens) :: lens) ++ payload.

(** The layout of such a module. *)
Definition packed_layout (n_instr n_sample : Z) : layout :=
  let i_end := 72 + 152 * n_instr in
  {| song_offset := 40; over_offset := 52; note_offset := 68;
     instr_offset := 72; wave_offset := i_end; adsr_offset := i_end;
     amf_offset := i_end; sample_offset := i_end;
     song_len := 12; over_len := 16; note_len := 4;
     instr_len := 152 * n_instr; wave_len := 0; adsr_len := 0; amf_len := 0;
     song_cnt := 1; over_cnt := 1; note_cnt := 1; instr_cnt := n_instr;
     wave_cnt := 0; adsr_cnt := 0; amf_cnt := 0; sample_cnt := n_sample |}.

(** One sample, one sampled instrument that refers to it. *)
Definition buf_one : list byte :=
  packed_module [instrument 0 0 7 5 name_A] [3] (map byte_of_Z [9; 8; 7]).

(** One sample, two sampled instruments that refer to it. *)
Definition buf_two : list byte :=
  packed_module [instrument 0 0 7 5 name_A; instrument 0 0 8 6 name_B] [3]
    (map byte_of_Z [9; 8; 7]).

(** One sample; the first instrument has the sample index 5. *)
Definition buf_bad_id : list byte :=
  packed_module [instrument 0 5 7 5 name_A; instrument 0 0 8 6 name_B] [3]
    (map byte_of_Z [9; 8; 7]).

(** Two samples, one sampled instrument that refers to the first. *)
Definition buf_unreferenced : list byte :=
  packed_module [instrument 0 0 7 5 name_A] [3; 2]
    (map byte_of_Z [9; 8; 7; 6; 5]).

(** A module without instruments whose stored sample count is 0xF0000001,
    a negative [long]. *)
Definition buf_negative_count : list byte :=
  longs [40; 52; 52; 52; 52; 52; 52; 52] ++ zeros 8 ++ zeros 12 ++
  longs [0xF0000001].

(** Three samples, each referred to by one instrument, whose byte lengths
    0x7FFFFFFF, 0x7FFFFFFF and 2 add up to 2^32. *)
Definition buf_overflow_sum : list byte :=
  packed_module
    [instrument 0 0 1 0 name_A; instrument 0 1 1 0 name_B;
     instrument 0 2 1 0 name_A]
    [0x7FFFFFFF; 0x7FFFFFFF; 2] [].

(** A module whose offset table is out of order: the note table (52) is
    said to start before the overview table (56). *)
Definition buf_out_of_order : list byte :=
  longs [40; 56; 52; 56; 56; 56; 56; 56] ++ zeros 8 ++ zeros 16 ++ longs [0].

(** A module without instruments whose stored sample count is 2^28. *)
Definition buf_huge_count : list byte :=
  longs [40; 52; 52; 52; 52; 52; 52; 52] ++ zeros 8 ++ zeros 12 ++
  longs [2 ^ 28].

(** A module that does not start the file, written out byte by byte. The
    first eight bytes are the longs 0x28 and 0x28, which are no signature;
    the offset table follows at 8 with the relative offsets 0x28, 0x34,
    0x44, 0x48, 0xe0, 0x160, 0x1e0 and 0x260; every table has its own
    filling byte; the one instrument is a sampled one for sample 0 with
    length 7, repeat 5 and a name of thirty letters A; the one sample has
    the three bytes 9, 8, 7. *)
Definition buf_marked : list byte :=
  ([x00; x00; x00; x28; x00; x00; x00; x28] ++
   [x00; x00; x00; x28; x00; x00; x00; x34; x00; x00; x00; x44;
    x00; x00; x00; x48; x00; x00; x00; xe0; x00; x00; x01; x60;
    x00; x00; x01; xe0; x00; x00; x02; x60] ++
   replicate 8 x00 ++
   replicate 12 "1" ++ replicate 16 "2" ++ replicate 4 "3" ++
   ([x00; x00; x00; x00; x00; x07; x00; x05] ++
    replicate 114 x00 ++ replicate 30 "A") ++
   replicate 128 "4" ++ replicate 128 "5" ++ replicate 128 "6" ++
   [x00; x00; x00; x01; x00; x00; x00; x03] ++
   [x09; x08; x07])%byte.

(** Its layout: the offset table is at 8. *)
Definition marked_layout : layout :=
  {| song_offset := 48; over_offset := 60; note_offset := 76;
     instr_offset := 80; wave_offset := 232; adsr_offset := 360;
     amf_offset := 488; sample_offset := 616;
     song_len := 12; over_len := 16; note_len := 4; instr_len := 152;
     wave_len := 128; adsr_len := 128; amf_len := 128;
     song_cnt := 1; over_cnt := 1; note_cnt := 1; instr_cnt := 1;
     wave_cnt := 1; adsr_cnt := 1; amf_cnt := 1; sample_cnt := 1 |}.

(** The file in the unpacked format for it, written out byte by byte. *)
Definition out_marked : list byte :=
  (["S"; "O"; "A"; "R"; "V"; "1"; "."; "0"] ++
   ["S"; "T"; "B"; "L"] ++ [x00; x00; x00; x01] ++ replicate 12 "1" ++
   ["O"; "V"; "T"; "B"] ++ [x00; x00; x00; x01] ++ replicate 16 "2" ++
   ["N"; "T"; "B"; "L"] ++ [x00; x00; x00; x01] ++ replicate 4 "3" ++
   ["I"; "N"; "S"; "T"] ++ [x00; x00; x00; x01] ++
     ([x00; x00; x00; x00; x00; x07; x00; x05] ++
      replicate 114 x00 ++ replicate 30 "A") ++
   ["S"; "D"; "8"; "B"] ++ [x00; x00; x00; x01] ++
     [x00; x00; x00; x07] ++ [x00; x00; x00; x05] ++ replicate 30 "A" ++
     [x00; x00; x00; x03] ++ [x09; x08; x07] ++
   ["S"; "Y"; "W"; "T"] ++ [x00; x00; x00; x01] ++ replicate 128 "4" ++
   ["S"; "Y"; "A"; "R"] ++ [x00; x00; x00; x01] ++ replicate 128 "5" ++
   ["S"; "Y"; "A"; "F"] ++ [x00; x00; x00; x01] ++ replicate 128 "6" ++
   ["E"; "D"; "A"; "T"; "V"; "1"; "."; "1"] ++
   [x00; x01; x00; x01; x00; x00; x00; x7b;
    x00; x00; x00; x00; x00; x01; x00; x03])%byte.

(** ** The vocabulary of the properties *)

(** The signature of the offset table, in the words of the specification:
    the 32-bit value at [o] is 0x28 and the following 32-bit value lies
    strictly between 0x28 and 0x400. *)
Definition anchor_signature (data : list byte) (o : Z) : Prop :=
  read_long data o = Some 0x28 ∧
  ∃ v, read_long data (o + 4) = Some v ∧ 0x28 < v < 0x400.

(** The same signature on the bytes of the buffer, without any read of
    the code: the eight bytes from [o] on are the big-endian long 0x28
    followed by a big-endian long [0; 0; h; l] whose value lies strictly
    between 0x28 and 0x400. *)
Definition signature_bytes (data : list byte) (o : Z) : Prop :=
  0 <= o ∧
  ∃ h l, take 8 (drop (Z.to_nat o) data)
           = [x00; x00; x00; x28; x00; x00; h; l] ∧
         0x28 < Z_of_byte h * 2 ^ 8 + Z_of_byte l < 0x400.

Definition in_long (z : Z) : Prop := - 2 ^ 31 <= z < 2 ^ 31.

(** [bs] is a copy of the [len] bytes of the buffer from index [off] on,
    stated on the bytes of the buffer: it has [len] bytes, and its byte
    [i] is the byte [off + i] of the buffer, which exists. *)
Definition copied_from (dat : list byte) (off len : Z) (bs : list byte)
  : Prop :=
  Z.of_nat (length bs) = len ∧
  ∀ i, 0 <= i < len →
    0 <= off + i ∧
    ∃ b, dat !! Z.to_nat (off + i) = Some b ∧ bs !! Z.to_nat i = Some b.

(** The entry that a sampled instrument at [i_offset] leaves for its
    sample: the byte length is kept, the other three fields come from the
    instrument record. *)
Definition join_entry (e : sample_info) (len rep i_offset : Z) : sample_info :=
  {| si_length := si_length e; length_from_instr := len;
     repeat_from_instr := rep; name_from_instr := Some (i_offset + 0x7a) |}.

(** The instrument record at [o] is a sampled instrument that refers to the
    sample index [k], and [k] is valid for [n] samples. *)
Definition sampled_ref (dat : list byte) (n o k : Z) : Prop :=
  read_ushort dat o = Some 0 ∧
  ∃ raw, read_ushort dat (o + 2) = Some raw ∧ wrap16 raw = k ∧ 0 <= k < n.

(** The instrument record at [o] is a sampled instrument whose sample index
    [id] is not valid for [n] samples. *)
Definition sampled_bad (dat : list byte) (n o id : Z) : Prop :=
  read_ushort dat o = Some 0 ∧
  ∃ raw, read_ushort dat (o + 2) = Some raw ∧ wrap16 raw = id ∧ ¬ 0 <= id < n.

(** The sum of the byte lengths of a list of entries. *)
Definition sum_lengths (es : list sample_info) : Z :=
  foldr (λ e acc, si_length e + acc) 0 es.

(** An entry that only the first loop has touched. *)
Definition unjoined (e : sample_info) : Prop :=
  length_from_instr e = 0 ∧ repeat_from_instr e = 0 ∧ name_from_instr e = None.

(** The sections of the output file. *)
Definition table_section (id : list byte) (cnt : Z) (raw : list byte)
  : list byte :=
  id ++ long_bytes cnt ++ raw.

Definition sample_section (cnt : Z) (entries : list sample_info)
    (names : list (list byte)) (payload : list byte) : list byte :=
  SD8B_ID ++ long_bytes cnt ++
  flat_map (λ e, long_bytes (length_from_instr e)) entries ++
  flat_map (λ e, long_bytes (repeat_from_instr e)) entries ++
  concat names ++
  flat_map (λ e, long_bytes (si_length e)) entries ++
  payload.

(** The entries the writer goes through: the first [sample_cnt] ones. *)
Definition written_entries (l : layout) (si : list sample_info)
  : list sample_info :=
  take (Z.to_nat (Z.max 0 (sample_cnt l))) si.

(** The format of the output file, in the order the specification gives:
    the magic, the song, overview, note and instrument tables (tag, count,
    raw bytes of the section), the sample section (tag, count, the four
    arrays over [entries], the sample payload), the wave, ADSR and AMF
    tables, and the fixed trailing block. Every block that comes from the
    input is a copy of the bytes of the buffer ([copied_from]), a name the
    copy of the 30 bytes at the name pointer of its entry. *)
Definition output_format (dat : list byte) (l : layout)
    (entries : list sample_info) (sample_len : Z) (f : list byte) : Prop :=
  ∃ song over note instr names payload wave adsr amf,
    copied_from dat (song_offset l) (song_len l) song ∧
    copied_from dat (over_offset l) (over_len l) over ∧
    copied_from dat (note_offset l) (note_len l) note ∧
    copied_from dat (instr_offset l) (instr_len l) instr ∧
    Forall2 (λ e name, ∃ p, name_from_instr e = Some p ∧
                            copied_from dat p 30 name)
      entries names ∧
    copied_from dat (sample_offset l + 4 + mul32 (sample_cnt l) 4) sample_len
      payload ∧
    copied_from dat (wave_offset l) (wave_len l) wave ∧
    copied_from dat (adsr_offset l) (adsr_len l) adsr ∧
    copied_from dat (amf_offset l) (amf_len l) amf ∧
    f = SOAR_ID ++
        STBL_ID ++ long_bytes (song_cnt l) ++ song ++
        OVTB_ID ++ long_bytes (over_cnt l) ++ over ++
        NTBL_ID ++ long_bytes (note_cnt l) ++ note ++
        INST_ID ++ long_bytes (instr_cnt l) ++ instr ++
        SD8B_ID ++ long_bytes (sample_cnt l) ++
          flat_map (λ e, long_bytes (length_from_instr e)) entries ++
          flat_map (λ e, long_bytes (repeat_from_instr e)) entries ++
          concat names ++
          flat_map (λ e, long_bytes (si_length e)) entries ++
          payload ++
        SYWT_ID ++ long_bytes (wave_cnt l) ++ wave ++
        SYAR_ID ++ long_bytes (adsr_cnt l) ++ adsr ++
        SYAF_ID ++ long_bytes (amf_cnt l) ++ amf ++
        EDAT_ID ++ EDAT_DATA.

(** The [len] bytes at [off] lie in the buffer. *)
Definition section_ok (dat : list byte) (off len : Z) : Prop :=
  0 <= len ∧ 0 <= off ∧ off + len <= Z.of_nat (length dat).

(** A packed module that [convert] can process: the buffer has a size that
    a [long] holds, its seven tables lie in the buffer, the sample count is
    not negative and the array for it has a size that [size_t] holds, the
    list of sample lengths and the sample payload lie in the buffer, and a
    sampled instrument refers to every sample. *)
Definition well_formed (dat : list byte) (l : layout) : Prop :=
  Z.of_nat (length dat) < 2 ^ 31 ∧
  section_ok dat (song_offset l) (song_len l) ∧
  section_ok dat (over_offset l) (over_len l) ∧
  section_ok dat (note_offset l) (note_len l) ∧
  section_ok dat (instr_offset l) (instr_len l) ∧
  section_ok dat (wave_offset l) (wave_len l) ∧
  section_ok dat (adsr_offset l) (adsr_len l) ∧
  section_ok dat (amf_offset l) (amf_len l) ∧
  instr_cnt l = instr_len l ÷ 152 ∧
  0 <= sample_cnt l < 2 ^ 28 ∧
  section_ok dat (sample_offset l) (4 + 4 * sample_cnt l) ∧
  (∀ sample_len si0,
     convert_samples dat l = Some (sample_len, si0) →
     section_ok dat (sample_offset l + 4 + 4 * sample_cnt l) sample_len) ∧
  (∀ k, 0 <= k < sample_cnt l →
     ∃ j, 0 <= j < instr_cnt l ∧
          sampled_ref dat (sample_cnt l) (instr_offset l + 152 * j) k).

(** ** The vocabulary of the further properties *)

(** The line that the instrument record [j] at [off] makes the second loop
    print, if any: records that are not sampled instruments and sampled
    instruments with a valid sample index print nothing. *)
Definition inconsistency (dat : list byte) (n off j : Z) : option message :=
  kind ← read_ushort dat off;
  if kind =? 0 then
    raw ← read_ushort dat (off + 2);
    if (0 <=? wrap16 raw) && (wrap16 raw <? n) then None
    else Some (Inconsistent_sample_id (wrap16 raw) j)
  else None.

(** The sample index for which the instrument record at [off] makes the
    second loop fill an entry, if any: the stored index of a sampled
    instrument, when it is valid for [n] samples. *)
Definition ref_index (dat : list byte) (n off : Z) : option Z :=
  kind ← read_ushort dat off;
  if kind =? 0 then
    raw ← read_ushort dat (off + 2);
    if (0 <=? wrap16 raw) && (wrap16 raw <? n) then Some (wrap16 raw)
    else None
  else None.

(** The four lines with which a run of [convert] tells its outcome. *)
Definition is_outcome (m : message) : bool :=
  match m with
  | Conversion_written | Cannot_open_file | Cannot_allocate_memory
  | Song_not_found => true
  | _ => false
  end.

(** An entry and a layout for the same module [p] bytes further on in a
    buffer: name pointers and offsets move, everything else stays. *)
Definition move_entry (p : Z) (e : sample_info) : sample_info :=
  {| si_length := si_length e; length_from_instr := length_from_instr e;
     repeat_from_instr := repeat_from_instr e;
     name_from_instr := (λ q, q + p) <$> name_from_instr e |}.

Definition move_layout (p : Z) (l : layout) : layout :=
  {| song_offset := wrap32 (song_offset l + p);
     over_offset := wrap32 (over_offset l + p);
     note_offset := wrap32 (note_offset l + p);
     instr_offset := wrap32 (instr_offset l + p);
     wave_offset := wrap32 (wave_offset l + p);
     adsr_offset := wrap32 (adsr_offset l + p);
     amf_offset := wrap32 (amf_offset l + p);
     sample_offset := wrap32 (sample_offset l + p);
     song_len := song_len l; over_len := over_len l; note_len := note_len l;
     instr_len := instr_len l; wave_len := wave_len l; adsr_len := adsr_len l;
     amf_len := amf_len l;
     song_cnt := song_cnt l; over_cnt := over_cnt l; note_cnt := note_cnt l;
     instr_cnt := instr_cnt l; wave_cnt := wave_cnt l; adsr_cnt := adsr_cnt l;
     amf_cnt := amf_cnt l; sample_cnt := sample_cnt l |}.

(** * Properties *)

(** ** Machine integers *)

Lemma wrap32_range z : - 2 ^ 31 <= wrap32 z < 2 ^ 31.
Proof. unfold wrap32. pose proof (Z.mod_pos_bound (z + 2 ^ 31) (2 ^ 32)). lia. Qed.

Lemma wrap32_id z : - 2 ^ 31 <= z < 2 ^ 31 → wrap32 z = z.
Proof. intros H. unfold wrap32. rewrite Z.mod_small by lia. lia. Qed.

(** An addition that does not leave the range of [long] is exact. *)
Lemma add32_exact a b : - 2 ^ 31 <= a + b < 2 ^ 31 → add32 a b = a + b.
Proof. apply wrap32_id. Qed.

Lemma sub32_exact a b : - 2 ^ 31 <= a - b < 2 ^ 31 → sub32 a b = a - b.
Proof. apply wrap32_id. Qed.

(** Stepping a non-negative [long] forward and landing on a non-negative
    [long] again is an exact addition. *)
Lemma add32_nonneg a d :
  0 <= a < 2 ^ 31 → 0 <= d < 2 ^ 31 → 0 <= add32 a d → add32 a d = a + d.
Proof.
  intros Ha Hd. unfold add32, wrap32.
  destruct (Z_lt_ge_dec (a + d) (2 ^ 31)) as [Hlt|Hge].
  - rewrite Z.mod_small by lia. lia.
  - replace (a + d + 2 ^ 31) with (a + d - 2 ^ 31 + 1 * 2 ^ 32) by lia.
    rewrite Z.mod_add by lia. rewrite Z.mod_small by lia. lia.
Qed.

(** ** Reading the buffer *)

Lemma Z_of_byte_range b : 0 <= Z_of_byte b < 256.
Proof.
  unfold Z_of_byte. pose proof (Byte.to_N_bounded b). lia.
Qed.

Lemma Z_of_byte_inj a b : Z_of_byte a = Z_of_byte b → a = b.
Proof.
  unfold Z_of_byte. intros H%N2Z.inj.
  apply (f_equal Byte.of_N) in H. rewrite !Byte.of_to_N in H. congruence.
Qed.

(** A slice of a list, byte by byte. *)
Lemma take_drop_lookup {A : Type} (xs : list A) (n k i : nat) :
  (i < k)%nat → take k (drop n xs) !! i = xs !! (n + i)%nat.
Proof. intros Hi. by rewrite lookup_take_lt, lookup_drop. Qed.

Lemma take_drop_eq {A : Type} (xs bs : list A) (n : nat) :
  (∀ i, (i < length bs)%nat → xs !! (n + i)%nat = bs !! i) →
  take (length bs) (drop n xs) = bs.
Proof.
  intros H. apply list_eq. intros i.
  destruct (decide (i < length bs)%nat) as [Hi|Hi].
  - rewrite take_drop_lookup by done. by apply H.
  - rewrite lookup_take_ge by lia. symmetry. apply lookup_ge_None. lia.
Qed.

Lemma peek_lookup dat i v :
  peek dat i = Some v ↔
  0 <= i ∧ ∃ b, dat !! Z.to_nat i = Some b ∧ v = Z_of_byte b.
Proof.
  unfold peek. destruct (Z.leb_spec 0 i); split.
  - destruct (dat !! Z.to_nat i) as [b|]; [|done]. simpl. intros [= <-]. eauto.
  - intros (_ & b & -> & ->). done.
  - done.
  - intros [? _]. lia.
Qed.

(** A read of a [long] in terms of the four bytes it goes through. *)
Lemma read_long_slice dat off v :
  read_long dat off = Some v ↔
  0 <= off ∧
  ∃ b0 b1 b2 b3,
    take 4 (drop (Z.to_nat off) dat) = [b0; b1; b2; b3] ∧
    v = wrap32 (Z_of_byte b0 * 2 ^ 24 + Z_of_byte b1 * 2 ^ 16 +
                Z_of_byte b2 * 2 ^ 8 + Z_of_byte b3).
Proof.
  unfold read_long. split.
  - destruct (peek dat off) as [z0|] eqn:H0; [|done].
    destruct (peek dat (off + 1)) as [z1|] eqn:H1; [|done].
    destruct (peek dat (off + 2)) as [z2|] eqn:H2; [|done].
    destruct (peek dat (off + 3)) as [z3|] eqn:H3; [|done].
    simpl. intros [= <-].
    apply peek_lookup in H0 as (Hoff & b0 & G0 & ->).
    apply peek_lookup in H1 as (_ & b1 & G1 & ->).
    apply peek_lookup in H2 as (_ & b2 & G2 & ->).
    apply peek_lookup in H3 as (_ & b3 & G3 & ->).
    split; [done|]. exists b0, b1, b2, b3. split; [|done].
    apply (take_drop_eq dat [b0; b1; b2; b3]). intros i Hi. simpl in Hi.
    destruct i as [|[|[|[|i]]]]; [| | | |lia]; simpl.
    + by rewrite Nat.add_0_r.
    + by replace (Z.to_nat off + 1)%nat with (Z.to_nat (off + 1)) by lia.
    + by replace (Z.to_nat off + 2)%nat with (Z.to_nat (off + 2)) by lia.
    + by replace (Z.to_nat off + 3)%nat with (Z.to_nat (off + 3)) by lia.
  - intros (Hoff & b0 & b1 & b2 & b3 & Hs & ->).
    assert (G : ∀ i c, [b0; b1; b2; b3] !! i = Some c →
                       dat !! (Z.to_nat off + i)%nat = Some c).
    { intros i c Hc. rewrite <- Hs in Hc.
      rewrite take_drop_lookup in Hc; [done|].
      apply lookup_lt_Some in Hc. rewrite length_take in Hc. lia. }
    assert (P : ∀ i c, (0 <= i)%Z → [b0; b1; b2; b3] !! Z.to_nat i = Some c →
                       peek dat (off + i) = Some (Z_of_byte c)).
    { intros i c Hi Hc. apply peek_lookup. split; [lia|]. exists c.
      split; [|done]. rewrite Z2Nat.inj_add by lia. by apply G. }
    rewrite <- (Z.add_0_r off) at 1.
    rewrite (P 0 b0), (P 1 b1), (P 2 b2), (P 3 b3) by done. done.
Qed.

Lemma peek_Some dat i :
  0 <= i < Z.of_nat (length dat) → ∃ v, peek dat i = Some v ∧ 0 <= v < 256.
Proof.
  intros Hi. unfold peek.
  destruct (Z.leb_spec 0 i); [|lia].
  destruct (lookup_lt_is_Some_2 dat (Z.to_nat i)) as [b Hb]; [lia|].
  rewrite Hb. simpl. eauto using Z_of_byte_range.
Qed.

Lemma peek_bounds dat i v : peek dat i = Some v → 0 <= i < Z.of_nat (length dat).
Proof.
  unfold peek. destruct (Z.leb_spec 0 i); [|discriminate].
  intros Hp. destruct (dat !! Z.to_nat i) eqn:Hl; [|discriminate].
  apply lookup_lt_Some in Hl. lia.
Qed.

Lemma read_long_Some dat off :
  0 <= off → off + 4 <= Z.of_nat (length dat) → ∃ v, read_long dat off = Some v.
Proof.
  intros H0 H4. unfold read_long.
  destruct (peek_Some dat off) as (b0 & -> & _); [lia|].
  destruct (peek_Some dat (off + 1)) as (b1 & -> & _); [lia|].
  destruct (peek_Some dat (off + 2)) as (b2 & -> & _); [lia|].
  destruct (peek_Some dat (off + 3)) as (b3 & -> & _); [lia|].
  simpl. eauto.
Qed.

Lemma read_ushort_bounds dat off v :
  read_ushort dat off = Some v → 0 <= off ∧ off + 2 <= Z.of_nat (length dat).
Proof.
  unfold read_ushort. intros H.
  destruct (peek dat off) eqn:H0; [|discriminate].
  destruct (peek dat (off + 1)) eqn:H1; [|discriminate].
  apply peek_bounds in H0, H1. lia.
Qed.

Lemma length_long_bytes z : length (long_bytes z) = 4%nat.
Proof. reflexivity. Qed.

Lemma bytes_at_length dat off len bs :
  bytes_at dat off len = Some bs → 0 <= len ∧ Z.of_nat (length bs) = len.
Proof.
  unfold bytes_at. destruct (Z.eqb_spec len 0) as [->|Hne].
  - intros [= <-]. simpl. lia.
  - destruct (Z.ltb_spec 0 len); simpl; [|discriminate].
    destruct (Z.leb_spec 0 off); simpl; [|discriminate].
    destruct (Z.leb_spec (off + len) (Z.of_nat (length dat))); [|discriminate].
    intros [= <-]. rewrite length_take, length_drop. lia.
Qed.

(** A negative length is never a valid copy size. *)
Lemma bytes_at_negative dat off len : len < 0 → bytes_at dat off len = None.
Proof.
  intros Hlen. unfold bytes_at.
  destruct (Z.eqb_spec len 0); [lia|].
  destruct (Z.ltb_spec 0 len); [lia|]. reflexivity.
Qed.

(** ** The locator *)

Lemma signature_at_true data o :
  signature_at data o = Some true ↔ anchor_signature data o.
Proof.
  unfold signature_at, anchor_signature. split.
  - destruct (read_long data o) as [p1|]; simpl; [|discriminate].
    destruct (Z.eqb_spec p1 40) as [->|]; [|discriminate].
    destruct (read_long data (o + 4)) as [p2|]; simpl; [|discriminate].
    intros [= H]. apply andb_true_iff in H as [H1 H2].
    apply Z.ltb_lt in H1, H2. split; [done|]. exists p2. split; [done|lia].
  - intros (-> & v & -> & Hv). simpl.
    destruct (Z.ltb_spec 40 v); [|lia]. destruct (Z.ltb_spec v 1024); [|lia]. done.
Qed.

Lemma signature_at_false data o :
  signature_at data o = Some false → ¬ anchor_signature data o.
Proof. intros H Ha. apply signature_at_true in Ha. congruence. Qed.

Lemma signature_at_Some data o :
  0 <= o → o + 8 <= Z.of_nat (length data) → ∃ b, signature_at data o = Some b.
Proof.
  intros H0 H8. unfold signature_at.
  destruct (read_long_Some data o) as [p1 ->]; [lia..|].
  destruct (read_long_Some data (o + 4)) as [p2 ->]; [lia..|].
  simpl. destruct (p1 =? 40); eauto.
Qed.

(** The loop, started at [offset] with enough fuel, stops at the first
    offset [offset + 2 * k] below [max_offset] that carries the signature,
    or returns -1 when there is none. *)
Lemma findsong_loop_spec data max_offset :
  max_offset + 7 <= Z.of_nat (length data) →
  ∀ fuel offset,
    0 <= offset → (Z.to_nat (max_offset - offset) < fuel)%nat →
    ∃ r, findsong_loop fuel data max_offset offset = Some r ∧
      ((r = -1 ∧
        ∀ k, 0 <= k → offset + 2 * k < max_offset →
             ¬ anchor_signature data (offset + 2 * k))
       ∨ (∃ k, 0 <= k ∧ r = offset + 2 * k ∧ r < max_offset ∧
               anchor_signature data r ∧
               ∀ k', 0 <= k' < k → ¬ anchor_signature data (offset + 2 * k'))).
Proof.
  intros Hmax fuel. induction fuel as [|fuel IH]; intros offset H0 Hfuel; [lia|].
  simpl. destruct (Z.ltb_spec offset max_offset) as [Hlt|Hge].
  - destruct (signature_at_Some data offset) as [b Hb]; [lia..|].
    rewrite Hb. simpl. destruct b.
    + exists offset. split; [done|]. right. exists 0.
      split; [lia|]. split; [lia|]. split; [lia|].
      split; [by apply signature_at_true|]. intros; lia.
    + destruct (IH (offset + 2)) as (r & Hr & Hcases); [lia..|].
      exists r. split; [done|]. destruct Hcases as [[-> Hnone]|(k & Hk & -> & Hlt' & Hsig & Hfirst)].
      * left. split; [done|]. intros k Hk Hk'.
        destruct (Z.eq_dec k 0) as [->|Hne].
        -- replace (offset + 2 * 0) with offset by lia. by apply signature_at_false.
        -- replace (offset + 2 * k) with (offset + 2 + 2 * (k - 1)) by lia.
           apply Hnone; lia.
      * right. exists (k + 1). split; [lia|]. split; [lia|]. split; [lia|].
        split; [done|]. intros k' Hk'. destruct (Z.eq_dec k' 0) as [->|Hne].
           ++ replace (offset + 2 * 0) with offset by lia. by apply signature_at_false.
           ++ replace (offset + 2 * k') with (offset + 2 + 2 * (k' - 1)) by lia.
              apply Hfirst; lia.
  - exists (-1). split; [done|]. left. split; [done|]. intros; lia.
Qed.

Lemma even_double o : Z.even o = true → o = 2 * (o / 2).
Proof.
  intros H. apply Zeven_bool_iff in H. apply Zeven_div2 in H.
  rewrite Z.div2_div in H. lia.
Qed.

Lemma findsong_spec data :
  let size := Z.of_nat (length data) in
  ∃ r, findsong data size = Some r ∧
    ((r = -1 ∧
      ∀ o, 0 <= o < size - 0x28 → Z.even o = true → ¬ anchor_signature data o)
     ∨ (0 <= r < size - 0x28 ∧ Z.even r = true ∧ anchor_signature data r ∧
        ∀ o, 0 <= o < r → Z.even o = true → ¬ anchor_signature data o)).
Proof.
  intros size. unfold findsong.
  destruct (findsong_loop_spec data (size - 40)) with
    (fuel := S (Z.to_nat (size - 40))) (offset := 0)
    as (r & Hr & Hcases); [unfold size; lia|lia|lia|].
  exists r. split; [done|].
  destruct Hcases as [[-> Hnone]|(k & Hk & -> & Hlt & Hsig & Hfirst)].
  - left. split; [done|]. intros o Ho He.
    rewrite (even_double o He). apply (Hnone (o / 2)).
    + apply Z.div_pos; lia.
    + rewrite <- (even_double o He). lia.
  - right. split; [lia|]. split; [by rewrite Z.add_0_l, Z.even_mul|].
    split; [done|]. intros o Ho He. rewrite (even_double o He). apply (Hfirst (o / 2)).
      pose proof (even_double o He). split; [apply Z.div_pos; lia|lia].
Qed.

(** [findsong], called on a buffer with its size, returns. *)
Lemma findsong_total data :
  ∃ r, findsong data (Z.of_nat (length data)) = Some r.
Proof. destruct (findsong_spec data) as (r & Hr & _). eauto. Qed.

(** The signature that the reads of the code see is the signature on the
    bytes of the buffer. *)
Lemma anchor_signature_bytes data o :
  anchor_signature data o ↔ signature_bytes data o.
Proof.
  unfold anchor_signature, signature_bytes. split.
  - intros (H1 & v & H2 & Hv).
    apply read_long_slice in H1 as (Ho & b0 & b1 & b2 & b3 & S1 & E1).
    apply read_long_slice in H2 as (_ & c0 & c1 & c2 & c3 & S2 & E2).
    pose proof (Z_of_byte_range b0). pose proof (Z_of_byte_range b1).
    pose proof (Z_of_byte_range b2). pose proof (Z_of_byte_range b3).
    pose proof (Z_of_byte_range c0). pose proof (Z_of_byte_range c1).
    pose proof (Z_of_byte_range c2). pose proof (Z_of_byte_range c3).
    unfold wrap32 in E1, E2.
    assert (Z_of_byte b0 = 0 ∧ Z_of_byte b1 = 0 ∧ Z_of_byte b2 = 0 ∧
            Z_of_byte b3 = 40) as (B0 & B1 & B2 & B3)
      by (Z.div_mod_to_equations; lia).
    assert (Z_of_byte c0 = 0 ∧ Z_of_byte c1 = 0 ∧
            v = Z_of_byte c2 * 2 ^ 8 + Z_of_byte c3) as (C0 & C1 & C2)
      by (Z.div_mod_to_equations; lia).
    assert (b0 = x00) as -> by (by apply Z_of_byte_inj).
    assert (b1 = x00) as -> by (by apply Z_of_byte_inj).
    assert (b2 = x00) as -> by (by apply Z_of_byte_inj).
    assert (b3 = x28) as -> by (by apply Z_of_byte_inj).
    assert (c0 = x00) as -> by (by apply Z_of_byte_inj).
    assert (c1 = x00) as -> by (by apply Z_of_byte_inj).
    split; [done|]. exists c2, c3. split; [|lia].
    change 8%nat with (4 + 4)%nat. rewrite <- take_take_drop, drop_drop.
    replace (Z.to_nat o + 4)%nat with (Z.to_nat (o + 4)) by lia.
    by rewrite S1, S2.
  - intros (Ho & h & l & Hs & Hv).
    assert (G : ∀ i, (i < 8)%nat →
              data !! (Z.to_nat o + i)%nat
              = [x00; x00; x00; x28; x00; x00; h; l] !! i).
    { intros i Hi. rewrite <- Hs. by rewrite take_drop_lookup. }
    assert (S1 : take 4 (drop (Z.to_nat o) data) = [x00; x00; x00; x28]).
    { apply (take_drop_eq data [x00; x00; x00; x28]). intros i Hi.
      simpl in Hi. rewrite G by lia.
      by destruct i as [|[|[|[|i]]]]; [| | | |lia]. }
    assert (S2 : take 4 (drop (Z.to_nat (o + 4)) data) = [x00; x00; h; l]).
    { apply (take_drop_eq data [x00; x00; h; l]). intros i Hi.
      simpl in Hi.
      replace (Z.to_nat (o + 4) + i)%nat with (Z.to_nat o + (4 + i))%nat
        by lia.
      rewrite G by lia.
      by destruct i as [|[|[|[|i]]]]; [| | | |lia]. }
    pose proof (Z_of_byte_range h). pose proof (Z_of_byte_range l).
    split.
    + apply read_long_slice. split; [done|]. by exists x00, x00, x00, x28.
    + exists (Z_of_byte h * 2 ^ 8 + Z_of_byte l). split; [|done].
      apply read_long_slice. split; [lia|]. exists x00, x00, h, l.
      split; [done|]. change (Z_of_byte x00) with 0.
      rewrite wrap32_id by lia. lia.
Qed.

(** C3: on every buffer the locator scans the even offsets from 0 up to
    (and excluding) length - 0x28 and returns the first one at which the
    32-bit value is 0x28 and the next 32-bit value lies strictly between
    0x28 and 0x400; when no offset below the bound qualifies it returns -1,
    and [convert] then reports that no song was found and writes no
    output. The signature is stated on the bytes of the buffer
    ([signature_bytes]), not through the reads of the code. *)
Theorem C3_locator_first_match (e : env) (data : list byte) (read_len : Z) :
  let size := Z.of_nat (length data) in
  ∃ r, findsong data size = Some r ∧
    ((0 <= r < size - 0x28 ∧ Z.even r = true ∧ signature_bytes data r ∧
      ∀ o, 0 <= o < r → Z.even o = true → ¬ signature_bytes data o)
     ∨ (r = -1 ∧
        (∀ o, 0 <= o < size - 0x28 → Z.even o = true →
              ¬ signature_bytes data o) ∧
        ∃ printed, convert e data read_len =
          Some {| stdout := printed ++ [Song_not_found]; f_out := None |})).
Proof.
  intros size. destruct (findsong_spec data) as (r & Hr & Hcases).
  exists r. split; [done|].
  destruct Hcases as [[-> Hnone]|(Hrange & Heven & Hsig & Hfirst)].
  - right. split; [done|]. split.
    { intros o Ho He Hb. apply (Hnone o Ho He). by apply anchor_signature_bytes. }
    subst size. unfold convert. cbv zeta. rewrite Hr. simpl.
    by eexists [_; _].
  - left. split; [done|]. split; [done|].
    split; [by apply anchor_signature_bytes|].
    intros o Ho He Hb. apply (Hfirst o Ho He). by apply anchor_signature_bytes.
Qed.

(** ** The layout resolver *)

Lemma convert_layout_inv dat offset l :
  convert_layout dat offset = Some l →
  ∃ r0 r1 r2 r3 r4 r5 r6 r7,
    (read_long dat offset = Some r0 ∧ read_long dat (offset + 4) = Some r1 ∧
     read_long dat (offset + 8) = Some r2 ∧ read_long dat (offset + 12) = Some r3 ∧
     read_long dat (offset + 16) = Some r4 ∧ read_long dat (offset + 20) = Some r5 ∧
     read_long dat (offset + 24) = Some r6 ∧ read_long dat (offset + 28) = Some r7) ∧
    (song_offset l = add32 offset r0 ∧ over_offset l = add32 offset r1 ∧
     note_offset l = add32 offset r2 ∧ instr_offset l = add32 offset r3 ∧
     wave_offset l = add32 offset r4 ∧ adsr_offset l = add32 offset r5 ∧
     amf_offset l = add32 offset r6 ∧ sample_offset l = add32 offset r7) ∧
    (song_len l = sub32 (over_offset l) (song_offset l) ∧
     over_len l = sub32 (note_offset l) (over_offset l) ∧
     note_len l = sub32 (instr_offset l) (note_offset l) ∧
     instr_len l = sub32 (wave_offset l) (instr_offset l) ∧
     wave_len l = sub32 (adsr_offset l) (wave_offset l) ∧
     adsr_len l = sub32 (amf_offset l) (adsr_offset l) ∧
     amf_len l = sub32 (sample_offset l) (amf_offset l)) ∧
    (song_cnt l = song_len l ÷ 12 ∧ over_cnt l = over_len l ÷ 16 ∧
     note_cnt l = note_len l ÷ 4 ∧ instr_cnt l = instr_len l ÷ 152 ∧
     wave_cnt l = wave_len l ÷ 128 ∧ adsr_cnt l = adsr_len l ÷ 128 ∧
     amf_cnt l = amf_len l ÷ 128) ∧
    read_long dat (sample_offset l) = Some (sample_cnt l).
Proof.
  unfold convert_layout. intros H.
  destruct (read_long dat offset) as [r0|]; [|discriminate].
  destruct (read_long dat (offset + 4)) as [r1|]; [|discriminate].
  destruct (read_long dat (offset + 8)) as [r2|]; [|discriminate].
  destruct (read_long dat (offset + 12)) as [r3|]; [|discriminate].
  destruct (read_long dat (offset + 16)) as [r4|]; [|discriminate].
  destruct (read_long dat (offset + 20)) as [r5|]; [|discriminate].
  destruct (read_long dat (offset + 24)) as [r6|]; [|discriminate].
  destruct (read_long dat (offset + 28)) as [r7|]; [|discriminate].
  simpl in H.
  destruct (read_long dat (add32 offset r7)) as [cnt|] eqn:Hcnt; [|discriminate].
  simpl in H. injection H as <-. simpl.
  exists r0, r1, r2, r3, r4, r5, r6, r7. by repeat split.
Qed.

(** When the sample count can be read, the resolver returns a layout. *)
Lemma convert_layout_Some dat offset :
  0 <= offset → offset + 32 <= Z.of_nat (length dat) →
  ∀ r7, read_long dat (offset + 28) = Some r7 →
  0 <= add32 offset r7 → add32 offset r7 + 4 <= Z.of_nat (length dat) →
  ∃ l, convert_layout dat offset = Some l.
Proof.
  intros H0 H32 r7 Hr7 Hs0 Hs4. unfold convert_layout.
  destruct (read_long_Some dat offset) as [r0 ->]; [lia..|].
  destruct (read_long_Some dat (offset + 4)) as [r1 ->]; [lia..|].
  destruct (read_long_Some dat (offset + 8)) as [r2 ->]; [lia..|].
  destruct (read_long_Some dat (offset + 12)) as [r3 ->]; [lia..|].
  destruct (read_long_Some dat (offset + 16)) as [r4 ->]; [lia..|].
  destruct (read_long_Some dat (offset + 20)) as [r5 ->]; [lia..|].
  destruct (read_long_Some dat (offset + 24)) as [r6 ->]; [lia..|].
  rewrite Hr7. simpl.
  destruct (read_long_Some dat (add32 offset r7)) as [cnt ->]; [lia..|].
  simpl. eauto.
Qed.

(** C2: for every buffer and anchor the layout resolver reads the eight
    32-bit relative offsets at anchor + 0, 4, ..., 28 and adds the anchor
    to each, giving the absolute offsets of song, overview, note,
    instrument, wave, ADSR, AMF and sample in this order; every section
    length is the next section's absolute offset minus its own; the
    element counts of the first seven sections are the lengths divided by
    12, 16, 4, 152, 128, 128 and 128; and the sample count is the 32-bit
    integer stored at the sample section's absolute offset. Sums and
    differences are those of the type long, and they are the exact ones
    whenever these lie in its range. The resolver returns a layout
    whenever these nine reads lie in the buffer, at every anchor. *)
Theorem C2_layout_resolver (dat : list byte) (offset : Z) :
  (∀ r0 r1 r2 r3 r4 r5 r6 r7 cnt,
     read_long dat offset = Some r0 →
     read_long dat (offset + 4) = Some r1 →
     read_long dat (offset + 8) = Some r2 →
     read_long dat (offset + 12) = Some r3 →
     read_long dat (offset + 16) = Some r4 →
     read_long dat (offset + 20) = Some r5 →
     read_long dat (offset + 24) = Some r6 →
     read_long dat (offset + 28) = Some r7 →
     read_long dat (add32 offset r7) = Some cnt →
     ∃ l, convert_layout dat offset = Some l ∧
          song_offset l = add32 offset r0 ∧ over_offset l = add32 offset r1 ∧
          note_offset l = add32 offset r2 ∧ instr_offset l = add32 offset r3 ∧
          wave_offset l = add32 offset r4 ∧ adsr_offset l = add32 offset r5 ∧
          amf_offset l = add32 offset r6 ∧ sample_offset l = add32 offset r7 ∧
          sample_cnt l = cnt) ∧
  (0 <= offset → offset + 32 <= Z.of_nat (length dat) →
   ∀ r7, read_long dat (offset + 28) = Some r7 →
         0 <= add32 offset r7 →
         add32 offset r7 + 4 <= Z.of_nat (length dat) →
         ∃ l, convert_layout dat offset = Some l) ∧
  ∀ l, convert_layout dat offset = Some l →
      ∃ r0 r1 r2 r3 r4 r5 r6 r7,
        (read_long dat offset = Some r0 ∧ read_long dat (offset + 4) = Some r1 ∧
         read_long dat (offset + 8) = Some r2 ∧ read_long dat (offset + 12) = Some r3 ∧
         read_long dat (offset + 16) = Some r4 ∧ read_long dat (offset + 20) = Some r5 ∧
         read_long dat (offset + 24) = Some r6 ∧ read_long dat (offset + 28) = Some r7) ∧
        (song_offset l = add32 offset r0 ∧ over_offset l = add32 offset r1 ∧
         note_offset l = add32 offset r2 ∧ instr_offset l = add32 offset r3 ∧
         wave_offset l = add32 offset r4 ∧ adsr_offset l = add32 offset r5 ∧
         amf_offset l = add32 offset r6 ∧ sample_offset l = add32 offset r7) ∧
        (song_len l = sub32 (over_offset l) (song_offset l) ∧
         over_len l = sub32 (note_offset l) (over_offset l) ∧
         note_len l = sub32 (instr_offset l) (note_offset l) ∧
         instr_len l = sub32 (wave_offset l) (instr_offset l) ∧
         wave_len l = sub32 (adsr_offset l) (wave_offset l) ∧
         adsr_len l = sub32 (amf_offset l) (adsr_offset l) ∧
         amf_len l = sub32 (sample_offset l) (amf_offset l)) ∧
        (song_cnt l = song_len l ÷ 12 ∧ over_cnt l = over_len l ÷ 16 ∧
         note_cnt l = note_len l ÷ 4 ∧ instr_cnt l = instr_len l ÷ 152 ∧
         wave_cnt l = wave_len l ÷ 128 ∧ adsr_cnt l = adsr_len l ÷ 128 ∧
         amf_cnt l = amf_len l ÷ 128) ∧
        read_long dat (sample_offset l) = Some (sample_cnt l) ∧
        (in_long (offset + r0) → in_long (offset + r1) → in_long (offset + r2) →
         in_long (offset + r3) → in_long (offset + r4) → in_long (offset + r5) →
         in_long (offset + r6) → in_long (offset + r7) →
         in_long (r1 - r0) → in_long (r2 - r1) → in_long (r3 - r2) →
         in_long (r4 - r3) → in_long (r5 - r4) → in_long (r6 - r5) →
         in_long (r7 - r6) →
         (song_offset l = offset + r0 ∧ over_offset l = offset + r1 ∧
          note_offset l = offset + r2 ∧ instr_offset l = offset + r3 ∧
          wave_offset l = offset + r4 ∧ adsr_offset l = offset + r5 ∧
          amf_offset l = offset + r6 ∧ sample_offset l = offset + r7) ∧
         (song_len l = over_offset l - song_offset l ∧
          over_len l = note_offset l - over_offset l ∧
          note_len l = instr_offset l - note_offset l ∧
          instr_len l = wave_offset l - instr_offset l ∧
          wave_len l = adsr_offset l - wave_offset l ∧
          adsr_len l = amf_offset l - adsr_offset l ∧
          amf_len l = sample_offset l - amf_offset l)).
Proof.
  split; [|split].
  { intros r0 r1 r2 r3 r4 r5 r6 r7 cnt H0 H1 H2 H3 H4 H5 H6 H7 Hcnt.
    unfold convert_layout. rewrite H0, H1, H2, H3, H4, H5, H6, H7.
    cbn [mbind option_bind]. rewrite Hcnt. cbn [mbind option_bind].
    eexists. split; [reflexivity|]. by repeat split. }
  { apply convert_layout_Some. }
  intros l H.
  destruct (convert_layout_inv dat offset l H)
    as (r0 & r1 & r2 & r3 & r4 & r5 & r6 & r7 & Hrd & Hoff & Hlen & Hcnt & Hsc).
  exists r0, r1, r2, r3, r4, r5, r6, r7.
  split; [done|]. split; [done|]. split; [done|]. split; [done|]. split; [done|].
  intros I0 I1 I2 I3 I4 I5 I6 I7 D0 D1 D2 D3 D4 D5 D6.
  destruct Hoff as (E0 & E1 & E2 & E3 & E4 & E5 & E6 & E7).
  destruct Hlen as (L0 & L1 & L2 & L3 & L4 & L5 & L6).
  rewrite add32_exact in E0, E1, E2, E3, E4, E5, E6, E7 by assumption.
  split; [done|].
  rewrite L0, L1, L2, L3, L4, L5, L6, E0, E1, E2, E3, E4, E5, E6, E7.
  unfold in_long in *.
  rewrite !sub32_exact by lia. done.
Qed.

(** ** The array of sample data *)

Lemma load_Some si i e : load si i = Some e ↔ 0 <= i ∧ si !! Z.to_nat i = Some e.
Proof.
  unfold load. destruct (Z.leb_spec 0 i); split.
  - by intros ->.
  - by intros [_ ->].
  - discriminate.
  - lia.
Qed.

Lemma load_bounds si i e : load si i = Some e → 0 <= i < Z.of_nat (length si).
Proof.
  intros [H0 Hl]%load_Some. apply lookup_lt_Some in Hl. lia.
Qed.

Lemma load_in_range si i :
  0 <= i < Z.of_nat (length si) → ∃ e, load si i = Some e.
Proof.
  intros Hi. destruct (lookup_lt_is_Some_2 si (Z.to_nat i)) as [e He]; [lia|].
  exists e. apply load_Some. split; [lia|done].
Qed.

Lemma store_inv si i f si' :
  store si i f = Some si' →
  ∃ e, load si i = Some e ∧ si' = <[Z.to_nat i := f e]> si.
Proof.
  unfold store. destruct (load si i) as [e|]; [|discriminate].
  simpl. intros [= <-]. eauto.
Qed.

Lemma load_insert_eq si i e x :
  load si i = Some e → load (<[Z.to_nat i := x]> si) i = Some x.
Proof.
  intros [H0 Hl]%load_Some. apply load_Some. split; [done|].
  apply list_lookup_insert_eq. by apply lookup_lt_Some in Hl.
Qed.

Lemma load_insert_ne si i j x :
  0 <= i → i ≠ j → load (<[Z.to_nat i := x]> si) j = load si j.
Proof.
  intros Hi Hne. unfold load. destruct (Z.leb_spec 0 j); [|done].
  apply list_lookup_insert_ne. lia.
Qed.

(** ** Loops *)

Lemma for_each_cons {St : Type} (body : Z → St → option St) i idx s :
  for_each body (i :: idx) s = s' ← body i s; for_each body idx s'.
Proof. reflexivity. Qed.

(** ** The metadata joiner *)

(** What one pass through the loop body does. *)
Lemma instr_step_inv dat n i off si out off' si' out' :
  instr_step dat n i (off, si, out) = Some (off', si', out') →
  off' = add32 off 0x98 ∧
  ∃ kind, read_ushort dat off = Some kind ∧
    ((kind ≠ 0 ∧ si' = si ∧ out' = out)
     ∨ (kind = 0 ∧ ∃ raw, read_ushort dat (off + 2) = Some raw ∧
         ((¬ 0 <= wrap16 raw < n ∧ si' = si ∧
           out' = out ++ [Inconsistent_sample_id (wrap16 raw) i])
          ∨ (0 <= wrap16 raw < n ∧ out' = out ∧
             ∃ len rep e,
               read_ushort dat (off + 4) = Some len ∧
               read_ushort dat (off + 6) = Some rep ∧
               load si (wrap16 raw) = Some e ∧
               si' = <[Z.to_nat (wrap16 raw) := join_entry e len rep off]> si)))).
Proof.
  unfold instr_step. intros H.
  destruct (read_ushort dat off) as [kind|] eqn:Hkind; [|discriminate].
  simpl in H. destruct (Z.eqb_spec kind 0) as [->|Hne].
  - destruct (read_ushort dat (off + 2)) as [raw|] eqn:Hraw; [|discriminate].
    simpl in H.
    destruct (Z.leb_spec 0 (wrap16 raw)) as [Hlo|Hlo];
      [destruct (Z.ltb_spec (wrap16 raw) n) as [Hhi|Hhi]|]; simpl in H.
    + destruct (read_ushort dat (off + 4)) as [len|] eqn:Hlen; [|discriminate].
      simpl in H.
      destruct (store si (wrap16 raw) _) as [si1|] eqn:H1; [|discriminate].
      simpl in H.
      destruct (read_ushort dat (off + 6)) as [rep|] eqn:Hrep; [|discriminate].
      simpl in H.
      destruct (store si1 (wrap16 raw) _) as [si2|] eqn:H2; [|discriminate].
      simpl in H.
      destruct (store si2 (wrap16 raw) _) as [si3|] eqn:H3; [|discriminate].
      simpl in H. injection H as <- <- <-.
      apply store_inv in H1 as (e & He & ->).
      apply store_inv in H2 as (e1 & He1 & ->).
      rewrite (load_insert_eq _ _ _ _ He) in He1. injection He1 as <-.
      rewrite list_insert_insert_eq in H3.
      apply store_inv in H3 as (e2 & He2 & ->).
      rewrite (load_insert_eq _ _ _ _ He) in He2. injection He2 as <-.
      rewrite list_insert_insert_eq.
      split; [done|]. exists 0. split; [done|]. right. split; [done|].
      exists raw. split; [done|]. right. split; [lia|]. split; [done|].
      exists len, rep, e. done.
    + injection H as <- <- <-. split; [done|]. exists 0. split; [done|].
      right. split; [done|]. exists raw. split; [done|]. left.
      split; [lia|done].
    + injection H as <- <- <-. split; [done|]. exists 0. split; [done|].
      right. split; [done|]. exists raw. split; [done|]. left.
      split; [lia|done].
  - injection H as <- <- <-. split; [done|]. exists kind. split; [done|].
    by left.
Qed.

Lemma seqZ_to_nat m n : seqZ m n = seqZ m (Z.of_nat (Z.to_nat n)).
Proof. unfold seqZ. by rewrite Nat2Z.id. Qed.

Lemma instr_step_reads dat n i off si out st' :
  instr_step dat n i (off, si, out) = Some st' → 0 <= off.
Proof.
  destruct st' as [[off' si'] out']. intros H.
  apply instr_step_inv in H as (_ & kind & Hk & _).
  by apply read_ushort_bounds in Hk as [? _].
Qed.

(** The loop over the instrument records, as an invariant rule: [i_offset]
    is [off + 152 * (j - m)] whenever the body runs for index [j]. *)
Lemma instr_loop_rule dat n (P : Z → list sample_info → list message → Prop) :
  ∀ (len : nat) m off si out off' si' out',
    in_long off →
    for_each (instr_step dat n) (seqZ m (Z.of_nat len)) (off, si, out)
      = Some (off', si', out') →
    P m si out →
    (∀ j si1 out1 o2 si2 out2,
        m <= j < m + Z.of_nat len → P j si1 out1 →
        instr_step dat n j (off + 152 * (j - m), si1, out1) = Some (o2, si2, out2) →
        P (j + 1) si2 out2) →
    P (m + Z.of_nat len) si' out'.
Proof.
  induction len as [|len IH]; intros m off si out off' si' out' Hoff Hrun HP Hstep.
  - rewrite seqZ_nil in Hrun by lia. simpl in Hrun. injection Hrun as <- <- <-.
    by rewrite Z.add_0_r.
  - rewrite seqZ_cons, for_each_cons in Hrun by lia.
    destruct (instr_step dat n m (off, si, out)) as [[[o1 si1] out1]|] eqn:H1;
      [|discriminate].
    simpl in Hrun.
    replace (Z.pred (Z.of_nat (S len))) with (Z.of_nat len) in Hrun by lia.
    assert (HP1 : P (Z.succ m) si1 out1).
    { apply (Hstep m si out o1); [lia|done|].
      by replace (off + 152 * (m - m)) with off by lia. }
    pose proof (instr_step_reads _ _ _ _ _ _ _ H1) as Hoff0.
    apply instr_step_inv in H1 as (Ho1 & _).
    replace (m + Z.of_nat (S len)) with (Z.succ m + Z.of_nat len) by lia.
    apply (IH (Z.succ m) o1 si1 out1 off'); [|done|done|].
    { subst o1. apply wrap32_range. }
    intros j sa oa o2 sb ob Hj HPa Hs.
    apply (Hstep j sa oa o2); [lia|done|].
    assert (Hlen : (0 < len)%nat) by lia.
    destruct len as [|len']; [lia|].
    rewrite seqZ_cons, for_each_cons in Hrun by lia.
    destruct (instr_step dat n (Z.succ m) (o1, si1, out1)) as [st2|] eqn:H2;
      [|discriminate].
    apply instr_step_reads in H2.
    assert (o1 = off + 152) as ->.
    { subst o1. unfold in_long in Hoff. apply add32_nonneg; lia. }
    by replace (off + 152 * (j - m)) with (off + 152 + 152 * (j - Z.succ m)) by lia.
Qed.

Lemma instr_range_rule dat n (P : Z → list sample_info → list message → Prop)
    cnt off si out off' si' out' :
  in_long off →
  for_range cnt (instr_step dat n) (off, si, out) = Some (off', si', out') →
  P 0 si out →
  (∀ j si1 out1 o2 si2 out2,
      0 <= j < cnt → P j si1 out1 →
      instr_step dat n j (off + 152 * j, si1, out1) = Some (o2, si2, out2) →
      P (j + 1) si2 out2) →
  P (Z.max 0 cnt) si' out'.
Proof.
  intros Hoff Hrun HP Hstep. unfold for_range in Hrun.
  rewrite seqZ_to_nat in Hrun.
  replace (Z.max 0 cnt) with (0 + Z.of_nat (Z.to_nat cnt)) by lia.
  apply (instr_loop_rule dat n P _ 0 off si out off'); [done..|].
  intros j sa oa o2 sb ob Hj HPa Hs. apply (Hstep j sa oa o2); [lia|done|].
  by replace (off + 152 * j) with (off + 152 * (j - 0)) by lia.
Qed.

Lemma instr_step_other dat n i off si out off' si' out' k :
  instr_step dat n i (off, si, out) = Some (off', si', out') →
  ¬ sampled_ref dat n off k → load si' k = load si k.
Proof.
  intros H Hno. apply instr_step_inv in H as (_ & kind & Hk & Hcases).
  destruct Hcases as [(_ & -> & _)|(-> & raw & Hraw & Hcases)]; [done|].
  destruct Hcases as [(_ & -> & _)|(Hin & _ & len & rep & e & _ & _ & He & ->)];
    [done|].
  destruct (Z.eq_dec (wrap16 raw) k) as [Heq|Hne].
  - destruct Hno. split; [done|]. exists raw. split; [done|]. split; [done|lia].
  - apply load_insert_ne; [lia|done].
Qed.

Lemma instr_step_ref dat n i off si out off' si' out' k :
  instr_step dat n i (off, si, out) = Some (off', si', out') →
  sampled_ref dat n off k →
  out' = out ∧
  ∃ e len rep,
    load si k = Some e ∧ read_ushort dat (off + 4) = Some len ∧
    read_ushort dat (off + 6) = Some rep ∧
    load si' k = Some (join_entry e len rep off).
Proof.
  intros H (Hkind & raw & Hraw & Hid & Hk).
  apply instr_step_inv in H as (_ & kind & Hk' & Hcases).
  rewrite Hkind in Hk'. injection Hk' as <-.
  destruct Hcases as [(? & _)|(_ & raw' & Hraw' & Hcases)]; [done|].
  rewrite Hraw in Hraw'. injection Hraw' as <-. rewrite Hid in Hcases.
  destruct Hcases as [(? & _)|(_ & -> & len & rep & e & Hlen & Hrep & He & ->)];
    [done|].
  split; [done|]. exists e, len, rep. split; [done|]. split; [done|].
  split; [done|]. by apply (load_insert_eq _ _ e).
Qed.

Lemma instr_step_length dat n i off si out off' si' out' k :
  instr_step dat n i (off, si, out) = Some (off', si', out') →
  length si' = length si ∧ si_length <$> load si' k = si_length <$> load si k.
Proof.
  intros H. apply instr_step_inv in H as (_ & kind & Hk & Hcases).
  destruct Hcases as [(_ & -> & _)|(-> & raw & Hraw & Hcases)]; [done|].
  destruct Hcases as [(_ & -> & _)|(Hin & _ & len & rep & e & _ & _ & He & ->)];
    [done|].
  split; [apply length_insert|].
  destruct (Z.eq_dec (wrap16 raw) k) as [<-|Hne].
  - rewrite (load_insert_eq _ _ e) by done. by rewrite He.
  - by rewrite load_insert_ne by lia.
Qed.

Lemma convert_instr_inv dat l si si' out :
  convert_instr dat l si = Some (si', out) →
  ∃ off', for_range (instr_cnt l) (instr_step dat (sample_cnt l))
            (instr_offset l, si, []) = Some (off', si', out).
Proof.
  unfold convert_instr. intros H.
  destruct (for_range _ _ _) as [[[off' s] o]|]; [|discriminate].
  simpl in H. injection H as <- <-. eauto.
Qed.

Lemma sampled_ref_dec dat n o k : sampled_ref dat n o k ∨ ¬ sampled_ref dat n o k.
Proof.
  unfold sampled_ref.
  destruct (read_ushort dat o) as [kind|]; [|right; intros [? _]; done].
  destruct (Z.eq_dec kind 0) as [->|]; [|right; intros [? _]; congruence].
  destruct (read_ushort dat (o + 2)) as [raw|];
    [|right; intros (_ & ? & ? & _); done].
  destruct (Z.eq_dec (wrap16 raw) k) as [Heq|];
    [|right; intros (_ & ? & ? & ? & _); congruence].
  destruct (Z_le_dec 0 k); [|right; intros (_ & ? & ? & ? & ?); lia].
  destruct (Z_lt_dec k n); [|right; intros (_ & ? & ? & ? & ?); lia].
  left. split; [done|]. exists raw. split; [done|]. split; [done|lia].
Qed.

(** The loop keeps the number of entries and their byte lengths. *)
Lemma convert_instr_length dat l si si' out k :
  in_long (instr_offset l) →
  convert_instr dat l si = Some (si', out) →
  length si' = length si ∧ si_length <$> load si' k = si_length <$> load si k.
Proof.
  intros Hoff (off' & Hrun)%convert_instr_inv.
  apply (instr_range_rule dat (sample_cnt l)
    (λ _ s _, length s = length si ∧
              si_length <$> load s k = si_length <$> load si k)
    _ _ _ _ _ _ _ Hoff Hrun); [done|].
  intros j s1 o1 o2 s2 out2 _ [Hl Hs] Hstep.
  destruct (instr_step_length _ _ _ _ _ _ _ _ _ k Hstep) as [Hl' Hs'].
  split; congruence.
Qed.

(** An entry changes only when a sampled instrument refers to it. *)
Lemma convert_instr_changed dat l si si' out k :
  in_long (instr_offset l) →
  convert_instr dat l si = Some (si', out) →
  load si' k = load si k ∨
  ∃ j, 0 <= j < instr_cnt l ∧
       sampled_ref dat (sample_cnt l) (instr_offset l + 152 * j) k.
Proof.
  intros Hoff (off' & Hrun)%convert_instr_inv.
  pose (P := λ (j : Z) (s : list sample_info) (_ : list message),
    load s k = load si k ∨
    ∃ j', 0 <= j' < j ∧ j' < instr_cnt l ∧
          sampled_ref dat (sample_cnt l) (instr_offset l + 152 * j') k).
  assert (HP : P (Z.max 0 (instr_cnt l)) si' out).
  { apply (instr_range_rule dat (sample_cnt l) P _ _ _ _ _ _ _ Hoff Hrun).
    - by left.
    - intros j s1 o1 o2 s2 out2 Hj [Hsame|(j' & Hj' & Hc & Href)] Hstep.
      + destruct (sampled_ref_dec dat (sample_cnt l) (instr_offset l + 152 * j) k)
          as [Href|Hno].
        * right. exists j. split; [lia|]. split; [lia|done].
        * left. rewrite <- Hsame. by eapply instr_step_other.
      + right. exists j'. split; [lia|]. split; [lia|done]. }
  destruct HP as [Hsame|(j' & Hj' & Hc & Href)]; [by left|].
  right. exists j'. split; [lia|done].
Qed.

(** Last writer wins: the entry of [k] holds the values of the last
    sampled instrument that refers to [k]. *)
Lemma convert_instr_last dat l si si' out k jl :
  in_long (instr_offset l) →
  convert_instr dat l si = Some (si', out) →
  0 <= jl < instr_cnt l →
  sampled_ref dat (sample_cnt l) (instr_offset l + 152 * jl) k →
  (∀ j, jl < j < instr_cnt l →
        ¬ sampled_ref dat (sample_cnt l) (instr_offset l + 152 * j) k) →
  ∃ e0 len rep,
    load si k = Some e0 ∧
    read_ushort dat (instr_offset l + 152 * jl + 4) = Some len ∧
    read_ushort dat (instr_offset l + 152 * jl + 6) = Some rep ∧
    load si' k = Some (join_entry e0 len rep (instr_offset l + 152 * jl)).
Proof.
  intros Hoff (off' & Hrun)%convert_instr_inv Hjl Href Hlast.
  pose (P := λ (j : Z) (s : list sample_info) (_ : list message),
    (si_length <$> load s k = si_length <$> load si k) ∧
    (jl < j → ∃ e0 len rep,
        load si k = Some e0 ∧
        read_ushort dat (instr_offset l + 152 * jl + 4) = Some len ∧
        read_ushort dat (instr_offset l + 152 * jl + 6) = Some rep ∧
        load s k = Some (join_entry e0 len rep (instr_offset l + 152 * jl)))).
  assert (HP : P (Z.max 0 (instr_cnt l)) si' out).
  { apply (instr_range_rule dat (sample_cnt l) P _ _ _ _ _ _ _ Hoff Hrun).
    - split; [done|]. lia.
    - intros j s1 o1 o2 s2 out2 Hj [Hlen Hafter] Hstep.
      split.
      { destruct (instr_step_length _ _ _ _ _ _ _ _ _ k Hstep) as [_ Hs].
        congruence. }
      intros Hlt. destruct (Z.eq_dec j jl) as [->|Hne].
      + destruct (instr_step_ref _ _ _ _ _ _ _ _ _ _ Hstep Href)
          as (_ & e & len & rep & He & Hl & Hr & Hnew).
        rewrite He in Hlen. simpl in Hlen.
        destruct (load si k) as [e0|] eqn:He0; [|discriminate].
        simpl in Hlen. injection Hlen as Hlen.
        exists e0, len, rep. split; [done|]. split; [done|]. split; [done|].
        rewrite Hnew. unfold join_entry. by rewrite Hlen.
      + destruct Hafter as (e0 & len & rep & He0 & Hl & Hr & Hcur); [lia|].
        exists e0, len, rep. split; [done|]. split; [done|]. split; [done|].
        rewrite <- Hcur. eapply instr_step_other; [done|]. apply Hlast. lia. }
  destruct HP as [_ HP]. apply HP. lia.
Qed.

(** C4: when the instrument table holds exactly one sampled instrument
    (discriminant 0), at record [j], and its sample index [k] is valid, the
    joiner sets entry [k]'s length to the 2-byte value at record offset 4,
    its repeat to the 2-byte value at record offset 6 and its name to the 30
    bytes at record offset 0x7a; the byte length of the entry and all other
    entries are as before. *)
Theorem C4_single_sampled_instrument
    (dat : list byte) (l : layout) (si si' : list sample_info)
    (out : list message) (j k : Z) :
  let record := instr_offset l + 152 * j in
  in_long (instr_offset l) →
  convert_instr dat l si = Some (si', out) →
  0 <= j < instr_cnt l →
  sampled_ref dat (sample_cnt l) record k →
  (∀ j', 0 <= j' < instr_cnt l → j' ≠ j →
         read_ushort dat (instr_offset l + 152 * j') ≠ Some 0) →
  ∃ e0 len rep e,
    load si k = Some e0 ∧
    read_ushort dat (record + 4) = Some len ∧
    read_ushort dat (record + 6) = Some rep ∧
    load si' k = Some e ∧
    length_from_instr e = len ∧
    repeat_from_instr e = rep ∧
    name_from_instr e = Some (record + 0x7a) ∧
    name_bytes dat e = bytes_at dat (record + 0x7a) 30 ∧
    si_length e = si_length e0 ∧
    ∀ i, i ≠ k → load si' i = load si i.
Proof.
  intros record Hoff Hrun Hj Href Honly.
  destruct (convert_instr_last dat l si si' out k j Hoff Hrun Hj Href)
    as (e0 & len & rep & He0 & Hlen & Hrep & He).
  { intros j' Hj' [Hk _]. apply (Honly j'); [lia|lia|done]. }
  exists e0, len, rep, (join_entry e0 len rep record).
  split; [done|]. split; [done|]. split; [done|]. split; [done|].
  split; [done|]. split; [done|]. split; [done|]. split; [done|]. split; [done|].
  intros i Hi.
  destruct (convert_instr_changed dat l si si' out i Hoff Hrun)
    as [Hsame|(j' & Hj' & Href')]; [done|].
  destruct (Z.eq_dec j' j) as [->|Hne].
  - subst record. destruct Href as (_ & raw & Hraw & Hid & _).
    destruct Href' as (_ & raw' & Hraw' & Hid' & _). congruence.
  - destruct Href' as [Hk _]. by destruct (Honly j' Hj' Hne).
Qed.

(** C5: when two (or more) sampled instruments refer to the same valid
    sample index [k], the entry of [k] holds the length, repeat and name of
    the one that comes last in the instrument table. *)
Theorem C5_last_writer_wins
    (dat : list byte) (l : layout) (si si' : list sample_info)
    (out : list message) (j1 j2 k : Z) :
  let record1 := instr_offset l + 152 * j1 in
  let record2 := instr_offset l + 152 * j2 in
  in_long (instr_offset l) →
  convert_instr dat l si = Some (si', out) →
  0 <= j1 < j2 → j2 < instr_cnt l →
  sampled_ref dat (sample_cnt l) record1 k →
  sampled_ref dat (sample_cnt l) record2 k →
  (∀ j, j2 < j < instr_cnt l →
        ¬ sampled_ref dat (sample_cnt l) (instr_offset l + 152 * j) k) →
  ∃ len rep e,
    read_ushort dat (record2 + 4) = Some len ∧
    read_ushort dat (record2 + 6) = Some rep ∧
    load si' k = Some e ∧
    length_from_instr e = len ∧
    repeat_from_instr e = rep ∧
    name_from_instr e = Some (record2 + 0x7a) ∧
    name_bytes dat e = bytes_at dat (record2 + 0x7a) 30.
Proof.
  intros record1 record2 Hoff Hrun Hj1 Hj2 _ Href Hlast.
  destruct (convert_instr_last dat l si si' out k j2 Hoff Hrun) as
    (e0 & len & rep & He0 & Hlen & Hrep & He); [lia|done|done|].
  exists len, rep, (join_entry e0 len rep record2).
  split; [done|]. split; [done|]. split; [done|]. done.
Qed.

Lemma instr_step_bad dat n i off si out id :
  sampled_bad dat n off id →
  instr_step dat n i (off, si, out) =
    Some (add32 off 0x98, si, out ++ [Inconsistent_sample_id id i]).
Proof.
  intros (Hkind & raw & Hraw & <- & Hbad). unfold instr_step.
  rewrite Hkind. simpl. rewrite Hraw. simpl.
  destruct (Z.leb_spec 0 (wrap16 raw)); [|done].
  destruct (Z.ltb_spec (wrap16 raw) n); [lia|done].
Qed.

(** C6: an instrument record with discriminant 0 whose sample index is not
    in [0, sample_count) makes the loop body print the inconsistency for
    that record and nothing more: no entry changes, the run is not
    aborted, and the loop goes on with the following records. The line is
    part of what a run of the whole loop prints. *)
Theorem C6_invalid_sample_index_skipped
    (dat : list byte) (l : layout) (j id : Z) :
  (∀ off si out,
     sampled_bad dat (sample_cnt l) off id →
     instr_step dat (sample_cnt l) j (off, si, out) =
       Some (add32 off 0x98, si, out ++ [Inconsistent_sample_id id j]) ∧
     ∀ rest,
       for_each (instr_step dat (sample_cnt l)) (j :: rest) (off, si, out) =
       for_each (instr_step dat (sample_cnt l)) rest
         (add32 off 0x98, si, out ++ [Inconsistent_sample_id id j])) ∧
  (∀ si si' out,
     in_long (instr_offset l) →
     convert_instr dat l si = Some (si', out) →
     0 <= j < instr_cnt l →
     sampled_bad dat (sample_cnt l) (instr_offset l + 152 * j) id →
     Inconsistent_sample_id id j ∈ out).
Proof.
  split.
  - intros off si out Hbad.
    pose proof (instr_step_bad dat (sample_cnt l) j off si out id Hbad) as Hstep.
    split; [done|]. intros rest. by rewrite for_each_cons, Hstep.
  - intros si si' out Hoff (off' & Hrun)%convert_instr_inv Hj Hbad.
    pose (P := λ (i : Z) (_ : list sample_info) (o : list message),
      j < i → Inconsistent_sample_id id j ∈ o).
    assert (HP : P (Z.max 0 (instr_cnt l)) si' out); [|apply HP; lia].
    apply (instr_range_rule dat (sample_cnt l) P _ _ _ _ _ _ _ Hoff Hrun).
    + intros ?; lia.
    + intros i s1 o1 o2 s2 out2 Hi HPi Hstep Hlt.
      destruct (Z.eq_dec i j) as [->|Hne].
      * rewrite (instr_step_bad _ _ _ _ _ _ _ Hbad) in Hstep.
        injection Hstep as _ _ <-. apply elem_of_app. right. by apply list_elem_of_singleton.
      * assert (Hin : Inconsistent_sample_id id j ∈ o1) by (apply HPi; lia).
        apply instr_step_inv in Hstep as (_ & kind & _ & Hcases).
        destruct Hcases as [(_ & _ & ->)|(_ & raw & _ & Hcases)]; [done|].
        destruct Hcases as [(_ & _ & ->)|(_ & -> & _)]; [|done].
        apply elem_of_app. by left.
Qed.

(** ** Counted loops, as an invariant rule *)

Lemma for_each_rule {St : Type} (body : Z → St → option St) (P : Z → St → Prop) :
  ∀ (len : nat) m s s',
    for_each body (seqZ m (Z.of_nat len)) s = Some s' →
    P m s →
    (∀ j s1 s2, m <= j < m + Z.of_nat len → P j s1 → body j s1 = Some s2 →
                P (j + 1) s2) →
    P (m + Z.of_nat len) s'.
Proof.
  induction len as [|len IH]; intros m s s' Hrun HP Hstep.
  - rewrite seqZ_nil in Hrun by lia. simpl in Hrun. injection Hrun as <-.
    by rewrite Z.add_0_r.
  - rewrite seqZ_cons, for_each_cons in Hrun by lia.
    destruct (body m s) as [s1|] eqn:H1; [|discriminate]. simpl in Hrun.
    replace (Z.pred (Z.of_nat (S len))) with (Z.of_nat len) in Hrun by lia.
    replace (m + Z.of_nat (S len)) with (Z.succ m + Z.of_nat len) by lia.
    apply (IH (Z.succ m) s1 s' Hrun).
    + apply (Hstep m s s1); [lia|done..].
    + intros j sa sb Hj. apply Hstep. lia.
Qed.

Lemma for_range_rule {St : Type} (body : Z → St → option St) (P : Z → St → Prop)
    n s s' :
  for_range n body s = Some s' →
  P 0 s →
  (∀ j s1 s2, 0 <= j < n → P j s1 → body j s1 = Some s2 → P (j + 1) s2) →
  P (Z.max 0 n) s'.
Proof.
  unfold for_range. rewrite seqZ_to_nat. intros Hrun HP Hstep.
  replace (Z.max 0 n) with (0 + Z.of_nat (Z.to_nat n)) by lia.
  apply (for_each_rule body P _ 0 s s' Hrun HP).
  intros j s1 s2 Hj. apply Hstep. lia.
Qed.

(** ** The sample lengths *)

Lemma sum_lengths_snoc es e : sum_lengths (es ++ [e]) = sum_lengths es + si_length e.
Proof. induction es as [|x es IH]; simpl; lia. Qed.

Lemma wrap32_add_l a b : wrap32 (wrap32 a + b) = wrap32 (a + b).
Proof.
  unfold wrap32.
  replace ((a + 2 ^ 31) mod 2 ^ 32 - 2 ^ 31 + b + 2 ^ 31)
    with ((a + 2 ^ 31) mod 2 ^ 32 + b) by lia.
  rewrite Zplus_mod_idemp_l. do 2 f_equal. lia.
Qed.

(** The first loop: the array keeps its size, [sample_len] is the sum, in
    the arithmetic of [long], of the byte lengths stored so far, and entry
    [i] holds the [i]-th length of the list that follows the sample count. *)
Lemma convert_samples_spec dat l sample_len si :
  convert_samples dat l = Some (sample_len, si) →
  let n := Z.max 0 (sample_cnt l) in
  n <= Z.of_nat (length si) ∧
  length si = length (samples_info_init (sample_cnt l)) ∧
  sample_len = wrap32 (sum_lengths (take (Z.to_nat n) si)) ∧
  Forall unjoined si ∧
  ∀ i, 0 <= i < n →
    ∃ v, read_long dat (sample_offset l + 4 + mul32 i 4) = Some v ∧
         si_length <$> load si i = Some v.
Proof.
  unfold convert_samples. intros Hrun.
  pose (P := λ (j : Z) (st : Z * list sample_info),
    j <= Z.of_nat (length st.2) ∧
    length st.2 = length (samples_info_init (sample_cnt l)) ∧
    st.1 = wrap32 (sum_lengths (take (Z.to_nat j) st.2)) ∧
    Forall unjoined st.2 ∧
    ∀ i, 0 <= i < j →
      ∃ v, read_long dat (sample_offset l + 4 + mul32 i 4) = Some v ∧
           si_length <$> load st.2 i = Some v).
  apply (for_range_rule _ P _ _ _ Hrun).
  - unfold P. simpl. split; [lia|]. split; [done|]. split; [done|].
    split; [by apply Forall_replicate|]. intros; lia.
  - intros j [sl s1] [sl2 s2] Hj (Hle & Hlen & Hsum & Hun & Hrd) Hstep.
    simpl in *. unfold sample_step in Hstep.
    destruct (read_long dat _) as [v|] eqn:Hv; [|discriminate]. simpl in Hstep.
    destruct (store s1 j _) as [s1'|] eqn:Hst; [|discriminate]. simpl in Hstep.
    injection Hstep as <- <-.
    apply store_inv in Hst as (e & He & ->).
    pose proof (load_bounds _ _ _ He) as Hb.
    apply load_Some in He as [_ Hl].
    unfold P. simpl. rewrite length_insert.
    split; [lia|]. split; [done|]. split; [|split].
    + replace (Z.to_nat (j + 1)) with (S (Z.to_nat j)) by lia.
      rewrite (take_S_r _ _ (set_length v e))
        by (apply list_lookup_insert_eq; lia).
      rewrite take_insert_ge by lia.
      rewrite sum_lengths_snoc. simpl. unfold add32.
      by rewrite Hsum, wrap32_add_l.
    + apply Forall_insert; [done|].
      rewrite Forall_lookup in Hun. apply (Hun _ _ Hl).
    + intros i Hi. destruct (Z.eq_dec i j) as [->|Hne].
      * exists v. split; [done|]. unfold load.
        destruct (Z.leb_spec 0 j); [|lia].
        by rewrite list_lookup_insert_eq by lia.
      * destruct (Hrd i) as (v' & Hv' & Hl'); [lia|].
        exists v'. split; [done|]. by rewrite load_insert_ne by lia.
Qed.

(** ** The writer *)

(** One of the four parallel arrays: the loop appends one chunk for each
    of the first [sample_cnt] entries, in their order. *)
Lemma write_array (g : sample_info → option (list byte)) si cnt f f' :
  for_range cnt (λ i f, e ← load si i; fwrite (g e) f) f = Some f' →
  let n := Z.max 0 cnt in
  n <= Z.of_nat (length si) ∧
  ∃ chunks,
    Forall2 (λ e c, g e = Some c) (take (Z.to_nat n) si) chunks ∧
    f' = f ++ concat chunks.
Proof.
  intros Hrun.
  pose (P := λ (j : Z) (fj : list byte),
    j <= Z.of_nat (length si) ∧
    ∃ chunks,
      Forall2 (λ e c, g e = Some c) (take (Z.to_nat j) si) chunks ∧
      fj = f ++ concat chunks).
  apply (for_range_rule _ P _ _ _ Hrun).
  - split; [lia|]. exists []. simpl. split; [constructor|by rewrite app_nil_r].
  - intros j f1 f2 Hj (Hle & chunks & HF & ->) Hstep.
    destruct (load si j) as [e|] eqn:He; [|discriminate]. simpl in Hstep.
    unfold fwrite in Hstep.
    destruct (g e) as [c|] eqn:Hc; [|discriminate]. simpl in Hstep.
    injection Hstep as <-.
    pose proof (load_bounds _ _ _ He) as Hb. apply load_Some in He as [_ Hl].
    split; [lia|]. exists (chunks ++ [c]).
    replace (Z.to_nat (j + 1)) with (S (Z.to_nat j)) by lia.
    rewrite (take_S_r _ _ e) by done. split.
    + apply Forall2_app; [done|]. by repeat constructor.
    + rewrite concat_app. simpl. by rewrite app_nil_r, app_assoc.
Qed.

Lemma Forall2_total_chunks {A B : Type} (h : A → B) es chunks :
  Forall2 (λ e c, Some (h e) = Some c) es chunks → chunks = map h es.
Proof.
  induction 1 as [|e c es chunks [= <-] _ IH]; simpl; [done|]. by rewrite IH.
Qed.

(** An array of [long] fields. *)
Lemma write_long_array (h : sample_info → Z) si cnt f f' :
  for_range cnt (λ i f, e ← load si i; fwrite (Some (long_bytes (h e))) f) f
    = Some f' →
  f' = f ++ flat_map (λ e, long_bytes (h e))
              (take (Z.to_nat (Z.max 0 cnt)) si).
Proof.
  intros Hrun.
  destruct (write_array (λ e, Some (long_bytes (h e))) si cnt f f' Hrun)
    as (_ & chunks & HF & ->).
  apply Forall2_total_chunks in HF as ->.
  f_equal. by rewrite flat_map_concat_map.
Qed.

(** The file a completed run of the writer leaves. *)
Lemma convert_write_inv dat l si sample_len f :
  convert_write dat l si sample_len = Some f →
  ∃ song over note instr names payload wave adsr amf,
    bytes_at dat (song_offset l) (song_len l) = Some song ∧
    bytes_at dat (over_offset l) (over_len l) = Some over ∧
    bytes_at dat (note_offset l) (note_len l) = Some note ∧
    bytes_at dat (instr_offset l) (instr_len l) = Some instr ∧
    Z.max 0 (sample_cnt l) <= Z.of_nat (length si) ∧
    Forall2 (λ e c, name_bytes dat e = Some c) (written_entries l si) names ∧
    bytes_at dat (sample_offset l + 4 + mul32 (sample_cnt l) 4) sample_len
      = Some payload ∧
    bytes_at dat (wave_offset l) (wave_len l) = Some wave ∧
    bytes_at dat (adsr_offset l) (adsr_len l) = Some adsr ∧
    bytes_at dat (amf_offset l) (amf_len l) = Some amf ∧
    f = SOAR_ID ++
        table_section STBL_ID (song_cnt l) song ++
        table_section OVTB_ID (over_cnt l) over ++
        table_section NTBL_ID (note_cnt l) note ++
        table_section INST_ID (instr_cnt l) instr ++
        sample_section (sample_cnt l) (written_entries l si) names payload ++
        table_section SYWT_ID (wave_cnt l) wave ++
        table_section SYAR_ID (adsr_cnt l) adsr ++
        table_section SYAF_ID (amf_cnt l) amf ++
        EDAT_ID ++ EDAT_DATA.
Proof.
  unfold convert_write. intros H.
  cbn [fwrite mbind option_bind] in H.
  destruct (bytes_at dat (song_offset l) _) as [song|]; [|discriminate].
  cbn [fwrite mbind option_bind] in H.
  destruct (bytes_at dat (over_offset l) _) as [over|]; [|discriminate].
  cbn [fwrite mbind option_bind] in H.
  destruct (bytes_at dat (note_offset l) _) as [note|]; [|discriminate].
  cbn [fwrite mbind option_bind] in H.
  destruct (bytes_at dat (instr_offset l) _) as [instr|]; [|discriminate].
  cbn [fwrite mbind option_bind] in H.
  destruct (for_range _ _ _) as [f1|] eqn:H1 in H; [|discriminate].
  cbn [mbind option_bind] in H.
  destruct (for_range _ _ _) as [f2|] eqn:H2 in H; [|discriminate].
  cbn [mbind option_bind] in H.
  destruct (for_range _ _ _) as [f3|] eqn:H3 in H; [|discriminate].
  cbn [mbind option_bind] in H.
  destruct (for_range _ _ _) as [f4|] eqn:H4 in H; [|discriminate].
  cbn [fwrite mbind option_bind] in H.
  destruct (bytes_at dat (sample_offset l + _ + _) _) as [payload|]; [|discriminate].
  cbn [fwrite mbind option_bind] in H.
  destruct (bytes_at dat (wave_offset l) _) as [wave|]; [|discriminate].
  cbn [fwrite mbind option_bind] in H.
  destruct (bytes_at dat (adsr_offset l) _) as [adsr|]; [|discriminate].
  cbn [fwrite mbind option_bind] in H.
  destruct (bytes_at dat (amf_offset l) _) as [amf|]; [|discriminate].
  cbn [fwrite mbind option_bind] in H. injection H as <-.
  apply write_long_array in H1, H2, H4.
  apply write_array in H3 as (Hle & names & HF & Hf3).
  subst f1 f2 f3 f4.
  exists song, over, note, instr, names, payload, wave, adsr, amf.
  repeat (split; [done|]).
  unfold table_section, sample_section, written_entries.
  rewrite <- !app_assoc. reflexivity.
Qed.

(** ** The whole conversion *)

(** A run that leaves an output file went through every stage. *)
Lemma convert_inv e dat read_len r f :
  convert e dat read_len = Some r → f_out r = Some f →
  ∃ offset l sample_len si0 si printed,
    findsong dat (Z.of_nat (length dat)) = Some offset ∧
    0 <= offset ∧
    convert_layout dat offset = Some l ∧
    malloc_ok e (samples_info_size (sample_cnt l)) = true ∧
    convert_samples dat l = Some (sample_len, si0) ∧
    convert_instr dat l si0 = Some (si, printed) ∧
    fopen_out_ok e = true ∧
    convert_write dat l si sample_len = Some f.
Proof.
  unfold convert. cbv zeta. intros H Hf.
  destruct (findsong dat _) as [offset|] eqn:Hfind; [|discriminate].
  simpl in H.
  destruct (Z.leb_spec 0 offset) as [H0|H0]; simpl in H;
    [|injection H as <-; discriminate].
  destruct (offset <? _); [|injection H as <-; discriminate].
  destruct (convert_layout dat offset) as [l|] eqn:Hlay; [|discriminate].
  simpl in H.
  destruct (malloc_ok e _) eqn:Hm; [|injection H as <-; discriminate].
  destruct (convert_samples dat l) as [[sample_len si0]|] eqn:Hsamp;
    [|discriminate].
  simpl in H.
  destruct (convert_instr dat l si0) as [[si printed]|] eqn:Hinstr;
    [|discriminate].
  simpl in H.
  destruct (fopen_out_ok e) eqn:Ho; [|injection H as <-; discriminate].
  destruct (convert_write dat l si sample_len) as [f'|] eqn:Hw; [|discriminate].
  simpl in H. injection H as <-. simpl in Hf. injection Hf as <-.
  exists offset, l, sample_len, si0, si, printed. done.
Qed.

Lemma convert_layout_in_long dat offset l :
  convert_layout dat offset = Some l → in_long (instr_offset l).
Proof.
  intros (r0 & r1 & r2 & r3 & r4 & r5 & r6 & r7 & _ & Hoff & _)%convert_layout_inv.
  destruct Hoff as (_ & _ & _ & -> & _). apply wrap32_range.
Qed.

Lemma name_bytes_length dat e name :
  name_bytes dat e = Some name → length name = 30%nat.
Proof.
  unfold name_bytes. destruct (name_from_instr e) as [p|]; [|discriminate].
  simpl. intros [_ H]%bytes_at_length. lia.
Qed.

Lemma length_written_entries l si :
  Z.max 0 (sample_cnt l) <= Z.of_nat (length si) →
  Z.of_nat (length (written_entries l si)) = Z.max 0 (sample_cnt l).
Proof. intros H. unfold written_entries. rewrite length_take. lia. Qed.

(** What [fwrite(dat + off, 1, len, f)] writes is a copy of the bytes of
    the buffer. *)
Lemma bytes_at_copied dat off len bs :
  bytes_at dat off len = Some bs → copied_from dat off len bs.
Proof.
  unfold bytes_at, copied_from. destruct (Z.eqb_spec len 0) as [->|Hne].
  { intros [= <-]. split; [done|]. intros; lia. }
  destruct (Z.ltb_spec 0 len); [|done].
  destruct (Z.leb_spec 0 off); [|done].
  destruct (Z.leb_spec (off + len) (Z.of_nat (length dat))); [|done].
  simpl. intros [= <-]. split.
  { rewrite length_take, length_drop. lia. }
  intros i Hi. split; [lia|].
  destruct (lookup_lt_is_Some_2 dat (Z.to_nat (off + i))) as [b Hb]; [lia|].
  exists b. split; [done|].
  rewrite take_drop_lookup by lia.
  by replace (Z.to_nat off + Z.to_nat i)%nat with (Z.to_nat (off + i)) by lia.
Qed.

(** A name written is a copy of the 30 bytes at the name pointer. *)
Lemma name_bytes_copied dat e name :
  name_bytes dat e = Some name →
  ∃ p, name_from_instr e = Some p ∧ copied_from dat p 30 name.
Proof.
  unfold name_bytes. destruct (name_from_instr e) as [p|]; [|done].
  simpl. intros H. exists p. split; [done|]. by apply bytes_at_copied.
Qed.

(** C1: a run that writes the output file writes, in this order, the magic
    SOARV1.0; the song, overview, note and instrument sections, each as its
    tag (STBL, OVTB, NTBL, INST), its 4-byte element count and the bytes of
    the section as they are in the input buffer; the sample section, as the
    tag SD8B, the 4-byte sample count, then for the [sample_cnt] entries
    all lengths from the instruments (4 bytes each), all repeats (4 bytes
    each), all names (30 bytes each), all byte lengths (4 bytes each) and
    the sample payload; the wave, ADSR and AMF sections (SYWT, SYAR, SYAF)
    like the first four; and the tag EDATV1.1 with its fixed 16 bytes. *)
Theorem C1_writer_output
    (e : env) (dat : list byte) (read_len : Z) (r : result) (f : list byte) :
  convert e dat read_len = Some r →
  f_out r = Some f →
  ∃ offset l sample_len si0 si printed,
    findsong dat (Z.of_nat (length dat)) = Some offset ∧
    convert_layout dat offset = Some l ∧
    convert_samples dat l = Some (sample_len, si0) ∧
    convert_instr dat l si0 = Some (si, printed) ∧
    Z.of_nat (length (written_entries l si)) = Z.max 0 (sample_cnt l) ∧
    output_format dat l (written_entries l si) sample_len f ∧
    EDAT_DATA = map byte_of_Z [0; 1; 0; 1; 0; 0; 0; 0x7b; 0; 0; 0; 0; 0; 1; 0; 3].
Proof.
  intros Hrun Hf.
  destruct (convert_inv e dat read_len r f Hrun Hf)
    as (offset & l & sample_len & si0 & si & printed &
        Hfind & _ & Hlay & _ & Hsamp & Hinstr & _ & Hwrite).
  exists offset, l, sample_len, si0, si, printed.
  do 4 (split; [done|]).
  destruct (convert_write_inv dat l si sample_len f Hwrite)
    as (song & over & note & instr & names & payload & wave & adsr & amf &
        Hsong & Hover & Hnote & Hins & Hle & Hnames & Hpay & Hwave & Hadsr &
        Hamf & ->).
  split; [by apply length_written_entries|]. split; [|done].
  exists song, over, note, instr, names, payload, wave, adsr, amf.
  do 4 (split; [by apply bytes_at_copied|]). split.
  { eapply Forall2_impl; [exact Hnames|]. simpl. intros x y Hxy.
    by apply name_bytes_copied. }
  do 4 (split; [by apply bytes_at_copied|]).
  unfold table_section, sample_section. rewrite <- !app_assoc. reflexivity.
Qed.

(** ** Names and the null pointer *)

(** After the first loop every entry below the sample count exists and has
    a null name pointer. *)
Lemma convert_samples_unjoined dat l sample_len si0 k :
  convert_samples dat l = Some (sample_len, si0) →
  0 <= k < sample_cnt l →
  ∃ e0, load si0 k = Some e0 ∧ unjoined e0.
Proof.
  intros (Hle & _ & _ & Hun & _)%convert_samples_spec Hk.
  destruct (load_in_range si0 k) as [e0 He0]; [lia|].
  exists e0. split; [done|]. apply load_Some in He0 as [_ Hl].
  rewrite Forall_lookup in Hun. by apply (Hun _ _ Hl).
Qed.

(** The writer needs a name for every entry it goes through. *)
Lemma convert_write_names dat l si sample_len f k :
  convert_write dat l si sample_len = Some f →
  0 <= k < sample_cnt l →
  ∃ e name, load si k = Some e ∧ name_bytes dat e = Some name.
Proof.
  intros Hw Hk.
  destruct (convert_write_inv dat l si sample_len f Hw)
    as (song & over & note & instr & names & payload & wave & adsr & amf &
        _ & _ & _ & _ & Hle & Hnames & _).
  destruct (load_in_range si k) as [e He]; [lia|].
  pose proof He as [_ Hl]%load_Some.
  assert (Hl' : written_entries l si !! Z.to_nat k = Some e).
  { unfold written_entries. rewrite lookup_take_lt by lia. done. }
  destruct (Forall2_lookup_l _ _ _ _ _ Hnames Hl') as (name & _ & Hname).
  eauto.
Qed.

Lemma name_bytes_null dat e : name_from_instr e = None → name_bytes dat e = None.
Proof. unfold name_bytes. by intros ->. Qed.

(** C10: the name the writer reads for a sample index is a view into the
    buffer only when a sampled instrument with a valid index refers to that
    sample. For a sample index below the sample count that no such
    instrument refers to, the name pointer is still the null pointer of the
    zero-filled array, the writer reads its 30 bytes through it, and the
    run has no defined result. So a run that completes the output file had
    every sample index referred to by a sampled instrument. *)
Theorem C10_names_need_references (e : env) (dat : list byte) (read_len : Z) :
  (∀ offset l sample_len si0 si printed k,
     convert_layout dat offset = Some l →
     convert_samples dat l = Some (sample_len, si0) →
     convert_instr dat l si0 = Some (si, printed) →
     0 <= k < sample_cnt l →
     (∀ j, 0 <= j < instr_cnt l →
           ¬ sampled_ref dat (sample_cnt l) (instr_offset l + 152 * j) k) →
     (∃ e0, load si k = Some e0 ∧ name_from_instr e0 = None ∧
            name_bytes dat e0 = None) ∧
     convert_write dat l si sample_len = None) ∧
  (∀ r f,
     convert e dat read_len = Some r → f_out r = Some f →
     ∃ offset l,
       findsong dat (Z.of_nat (length dat)) = Some offset ∧
       convert_layout dat offset = Some l ∧
       ∀ k, 0 <= k < sample_cnt l →
         ∃ j, 0 <= j < instr_cnt l ∧
              sampled_ref dat (sample_cnt l) (instr_offset l + 152 * j) k).
Proof.
  split.
  - intros offset l sample_len si0 si printed k Hlay Hsamp Hinstr Hk Hnone.
    pose proof (convert_layout_in_long _ _ _ Hlay) as Hoff.
    destruct (convert_samples_unjoined _ _ _ _ k Hsamp Hk) as (e0 & He0 & _ & _ & Hn).
    assert (Hsame : load si k = Some e0).
    { destruct (convert_instr_changed dat l si0 si printed k Hoff Hinstr)
        as [->|(j & Hj & Href)]; [done|]. by destruct (Hnone j Hj). }
    split.
    + exists e0. split; [done|]. split; [done|]. by apply name_bytes_null.
    + destruct (convert_write dat l si sample_len) as [f|] eqn:Hw; [|done].
      destruct (convert_write_names _ _ _ _ _ k Hw Hk) as (e1 & name & He1 & Hname).
      rewrite Hsame in He1. injection He1 as <-.
      by rewrite (name_bytes_null _ _ Hn) in Hname.
  - intros r f Hrun Hf.
    destruct (convert_inv e dat read_len r f Hrun Hf)
      as (offset & l & sample_len & si0 & si & printed &
          Hfind & _ & Hlay & _ & Hsamp & Hinstr & _ & Hw).
    exists offset, l. split; [done|]. split; [done|]. intros k Hk.
    pose proof (convert_layout_in_long _ _ _ Hlay) as Hoff.
    destruct (convert_instr_changed dat l si0 si printed k Hoff Hinstr)
      as [Hsame|Href]; [|done].
    destruct (convert_samples_unjoined _ _ _ _ k Hsamp Hk) as (e0 & He0 & _ & _ & Hn).
    destruct (convert_write_names _ _ _ _ _ k Hw Hk) as (e1 & name & He1 & Hname).
    rewrite Hsame, He0 in He1. injection He1 as <-.
    by rewrite (name_bytes_null _ _ Hn) in Hname.
Qed.

(** ** Sizes of the sections written *)

Lemma sum_lengths_fmap es : sum_lengths es = foldr Z.add 0 (si_length <$> es).
Proof.
  unfold sum_lengths. induction es as [|e es IH]; simpl; [done|]. by rewrite IH.
Qed.

(** The second loop leaves the byte lengths as the first loop stored them. *)
Lemma convert_instr_lengths dat l si si' out :
  in_long (instr_offset l) →
  convert_instr dat l si = Some (si', out) →
  si_length <$> si' = si_length <$> si.
Proof.
  intros Hoff Hrun. apply list_eq. intros i. rewrite !list_lookup_fmap.
  destruct (convert_instr_length dat l si si' out (Z.of_nat i) Hoff Hrun)
    as [_ H].
  unfold load in H. destruct (Z.leb_spec 0 (Z.of_nat i)); [|lia].
  by rewrite Nat2Z.id in H.
Qed.

Lemma flat_map_long_length {A : Type} (h : A → Z) es :
  Z.of_nat (length (flat_map (λ e, long_bytes (h e)) es))
    = 4 * Z.of_nat (length es).
Proof.
  induction es as [|e es IH]; simpl; [done|]. simpl in IH. lia.
Qed.

Lemma concat_names_length (dat : list byte) entries names :
  Forall2 (λ e c, name_bytes dat e = Some c) entries names →
  Z.of_nat (length (concat names)) = 30 * Z.of_nat (length entries).
Proof.
  induction 1 as [|e c es cs Hc _ IH]; simpl; [done|].
  rewrite length_app. apply name_bytes_length in Hc. lia.
Qed.

Lemma length_table_section id cnt raw :
  length id = 4%nat →
  Z.of_nat (length (table_section id cnt raw)) = 8 + Z.of_nat (length raw).
Proof.
  intros Hid. unfold table_section. rewrite !length_app, Hid, length_long_bytes.
  lia.
Qed.

(** C8, amended: in a run that writes the output file, every tagged section
    other than the sample section takes 8 bytes plus the byte length of the
    section, and the sample section takes 8 + 8*n + 30*n + 4*n bytes plus
    the sample payload length, where [n] is the number of entries written:
    the sample count, or none when the stored count is negative. The
    payload length is the sum of the byte lengths of these entries in the
    arithmetic of [long]. *)
Theorem C8_section_sizes
    (e : env) (dat : list byte) (read_len : Z) (r : result) (f : list byte) :
  convert e dat read_len = Some r →
  f_out r = Some f →
  ∃ offset l sample_len si0 si printed,
    findsong dat (Z.of_nat (length dat)) = Some offset ∧
    convert_layout dat offset = Some l ∧
    convert_samples dat l = Some (sample_len, si0) ∧
    convert_instr dat l si0 = Some (si, printed) ∧
    ∃ song over note instr names payload wave adsr amf,
      let n := Z.max 0 (sample_cnt l) in
      let s_song := table_section STBL_ID (song_cnt l) song in
      let s_over := table_section OVTB_ID (over_cnt l) over in
      let s_note := table_section NTBL_ID (note_cnt l) note in
      let s_instr := table_section INST_ID (instr_cnt l) instr in
      let s_sample :=
        sample_section (sample_cnt l) (written_entries l si) names payload in
      let s_wave := table_section SYWT_ID (wave_cnt l) wave in
      let s_adsr := table_section SYAR_ID (adsr_cnt l) adsr in
      let s_amf := table_section SYAF_ID (amf_cnt l) amf in
      f = SOAR_ID ++ s_song ++ s_over ++ s_note ++ s_instr ++ s_sample ++
          s_wave ++ s_adsr ++ s_amf ++ EDAT_ID ++ EDAT_DATA ∧
      Z.of_nat (length s_song) = 8 + song_len l ∧
      Z.of_nat (length s_over) = 8 + over_len l ∧
      Z.of_nat (length s_note) = 8 + note_len l ∧
      Z.of_nat (length s_instr) = 8 + instr_len l ∧
      Z.of_nat (length s_wave) = 8 + wave_len l ∧
      Z.of_nat (length s_adsr) = 8 + adsr_len l ∧
      Z.of_nat (length s_amf) = 8 + amf_len l ∧
      Z.of_nat (length s_sample) = 8 + 8 * n + 30 * n + 4 * n + sample_len ∧
      sample_len = wrap32 (sum_lengths (written_entries l si)).
Proof.
  intros Hrun Hf.
  destruct (convert_inv e dat read_len r f Hrun Hf)
    as (offset & l & sample_len & si0 & si & printed &
        Hfind & _ & Hlay & _ & Hsamp & Hinstr & _ & Hwrite).
  exists offset, l, sample_len, si0, si, printed.
  do 4 (split; [done|]).
  destruct (convert_write_inv dat l si sample_len f Hwrite)
    as (song & over & note & instr & names & payload & wave & adsr & amf &
        Hsong & Hover & Hnote & Hins & Hle & Hnames & Hpay & Hwave & Hadsr &
        Hamf & ->).
  exists song, over, note, instr, names, payload, wave, adsr, amf.
  cbv zeta. split; [done|].
  apply bytes_at_length in Hsong as [_ Hsong], Hover as [_ Hover],
    Hnote as [_ Hnote], Hins as [_ Hins], Hwave as [_ Hwave],
    Hadsr as [_ Hadsr], Hamf as [_ Hamf], Hpay as [_ Hpay].
  rewrite !length_table_section by done.
  do 7 (split; [lia|]). split.
  - unfold sample_section. rewrite !length_app, !Nat2Z.inj_add.
    rewrite !flat_map_long_length, (concat_names_length _ _ _ Hnames).
    rewrite (length_written_entries l si Hle). simpl length. lia.
  - pose proof (convert_layout_in_long _ _ _ Hlay) as Hoff.
    destruct (convert_samples_spec _ _ _ _ Hsamp) as (_ & _ & -> & _).
    f_equal. unfold written_entries. rewrite !sum_lengths_fmap, !fmap_take.
    by rewrite (convert_instr_lengths _ _ _ _ _ Hoff Hinstr).
Qed.

(** ** Section lengths that are negative *)

(** No check stands between a negative section length and its use as a
    copy size. *)
Lemma convert_write_negative dat l si sample_len :
  song_len l < 0 ∨ over_len l < 0 ∨ note_len l < 0 ∨ instr_len l < 0 ∨
  wave_len l < 0 ∨ adsr_len l < 0 ∨ amf_len l < 0 →
  convert_write dat l si sample_len = None.
Proof.
  intros Hneg.
  destruct (convert_write dat l si sample_len) as [f|] eqn:Hw; [|done].
  destruct (convert_write_inv dat l si sample_len f Hw)
    as (song & over & note & instr & names & payload & wave & adsr & amf &
        Hsong & Hover & Hnote & Hins & _ & _ & _ & Hwave & Hadsr & Hamf & _).
  apply bytes_at_length in Hsong as [? _], Hover as [? _], Hnote as [? _],
    Hins as [? _], Hwave as [? _], Hadsr as [? _], Hamf as [? _].
  lia.
Qed.

(** ** A short read *)

Lemma convert_read_len e dat read_len :
  f_out <$> convert e dat read_len
    = f_out <$> convert e dat (Z.of_nat (length dat)).
Proof.
  unfold convert. cbv zeta.
  destruct (findsong dat _) as [offset|]; [|done]. simpl.
  destruct (_ && _); [|done].
  destruct (convert_layout dat offset) as [l|]; [|done]. simpl.
  destruct (malloc_ok e _); [|done].
  destruct (convert_samples dat l) as [[sample_len si0]|]; [|done]. simpl.
  destruct (convert_instr dat l si0) as [[si printed]|]; [|done]. simpl.
  destruct (fopen_out_ok e); [|done].
  destruct (convert_write dat l si sample_len) as [f'|]; done.
Qed.

Lemma convert_stdout e dat read_len r :
  convert e dat read_len = Some r →
  ∃ rest,
    stdout r =
      Source_size (Z.of_nat (length dat)) ::
      (if Z.of_nat (length dat) =? read_len then Read_bytes read_len
       else Read_failed (Z.of_nat (length dat)) read_len) :: rest.
Proof.
  unfold convert. cbv zeta. intros H.
  destruct (findsong dat _) as [offset|]; [|discriminate]. simpl in H.
  destruct (_ && _); [|injection H as <-; simpl; eauto].
  destruct (convert_layout dat offset) as [l|]; [|discriminate]. simpl in H.
  destruct (malloc_ok e _); [|injection H as <-; simpl; eauto].
  destruct (convert_samples dat l) as [[sample_len si0]|]; [|discriminate].
  simpl in H.
  destruct (convert_instr dat l si0) as [[si printed]|]; [|discriminate].
  simpl in H.
  destruct (fopen_out_ok e); [|injection H as <-; simpl; eauto].
  destruct (convert_write dat l si sample_len) as [f'|]; [|discriminate].
  simpl in H. injection H as <-. simpl. eauto.
Qed.

(** C9, amended: when the number of bytes read differs from the size of the
    input file, the run prints that the read failed, with the expected and
    the actual number of bytes, and goes on with the buffer as it is: the
    output is the one of a full read of the same buffer contents. *)
Theorem C9_short_read_reported_only (e : env) (dat : list byte) (read_len : Z) :
  read_len ≠ Z.of_nat (length dat) →
  f_out <$> convert e dat read_len
    = f_out <$> convert e dat (Z.of_nat (length dat)) ∧
  ∀ r, convert e dat read_len = Some r →
    ∃ rest, stdout r =
      Source_size (Z.of_nat (length dat)) ::
      Read_failed (Z.of_nat (length dat)) read_len :: rest.
Proof.
  intros Hne. split; [apply convert_read_len|].
  intros r (rest & Hr)%convert_stdout. exists rest.
  destruct (Z.eqb_spec (Z.of_nat (length dat)) read_len); [lia|done].
Qed.

(** ** Runs that complete *)

Lemma read_ushort_Some dat off :
  0 <= off → off + 2 <= Z.of_nat (length dat) → ∃ v, read_ushort dat off = Some v.
Proof.
  intros H0 H2. unfold read_ushort.
  destruct (peek_Some dat off) as (b0 & -> & _); [lia|].
  destruct (peek_Some dat (off + 1)) as (b1 & -> & _); [lia|].
  simpl. eauto.
Qed.

Lemma bytes_at_Some dat off len :
  section_ok dat off len → ∃ bs, bytes_at dat off len = Some bs.
Proof.
  intros (Hlen & Hoff & Hend). unfold bytes_at.
  destruct (Z.eqb_spec len 0); [eauto|].
  destruct (Z.ltb_spec 0 len); [|lia].
  destruct (Z.leb_spec 0 off); [|lia].
  destruct (Z.leb_spec (off + len) (Z.of_nat (length dat))); [|lia].
  simpl. eauto.
Qed.

Lemma store_Some si i f :
  0 <= i < Z.of_nat (length si) →
  ∃ si', store si i f = Some si' ∧ length si' = length si.
Proof.
  intros Hi. destruct (load_in_range si i Hi) as [e He].
  unfold store. rewrite He. simpl. eexists. split; [done|].
  apply length_insert.
Qed.

(** A loop whose body runs from every state that satisfies the invariant,
    and keeps it, runs to its end. *)
Lemma for_each_progress {St : Type} (body : Z → St → option St)
    (I : Z → St → Prop) :
  ∀ (len : nat) m s,
    I m s →
    (∀ j s1, m <= j < m + Z.of_nat len → I j s1 →
             ∃ s2, body j s1 = Some s2 ∧ I (j + 1) s2) →
    ∃ s', for_each body (seqZ m (Z.of_nat len)) s = Some s' ∧
          I (m + Z.of_nat len) s'.
Proof.
  induction len as [|len IH]; intros m s HI Hstep.
  - rewrite seqZ_nil by lia. exists s. split; [done|]. by rewrite Z.add_0_r.
  - rewrite seqZ_cons, for_each_cons by lia.
    destruct (Hstep m s) as (s1 & -> & HI1); [lia|done|]. simpl.
    replace (Z.pred (Z.of_nat (S len))) with (Z.of_nat len) by lia.
    destruct (IH (Z.succ m) s1 HI1) as (s' & Hrun & HI').
    { intros j sa Hj. apply Hstep. lia. }
    exists s'. split; [done|].
    by replace (m + Z.of_nat (S len)) with (Z.succ m + Z.of_nat len) by lia.
Qed.

Lemma for_range_progress {St : Type} (body : Z → St → option St)
    (I : Z → St → Prop) n s :
  I 0 s →
  (∀ j s1, 0 <= j < n → I j s1 → ∃ s2, body j s1 = Some s2 ∧ I (j + 1) s2) →
  ∃ s', for_range n body s = Some s' ∧ I (Z.max 0 n) s'.
Proof.
  intros HI Hstep. unfold for_range. rewrite seqZ_to_nat.
  replace (Z.max 0 n) with (0 + Z.of_nat (Z.to_nat n)) by lia.
  apply for_each_progress; [done|]. intros j s1 Hj. apply Hstep. lia.
Qed.

Lemma samples_info_init_length cnt :
  0 <= cnt < 2 ^ 28 → Z.of_nat (length (samples_info_init cnt)) = cnt.
Proof.
  intros Hc. unfold samples_info_init, samples_info_size, to_size_t.
  rewrite length_replicate, Z.mod_small by lia.
  rewrite Z.quot_mul by lia. lia.
Qed.

(** The first loop completes when the list of sample lengths lies in the
    buffer. *)
Lemma convert_samples_total dat l :
  0 <= sample_cnt l < 2 ^ 28 →
  section_ok dat (sample_offset l) (4 + 4 * sample_cnt l) →
  ∃ sample_len si, convert_samples dat l = Some (sample_len, si).
Proof.
  intros Hc (_ & Hoff & Hend). unfold convert_samples.
  destruct (for_range_progress (sample_step dat (sample_offset l))
    (λ _ st, Z.of_nat (length st.2) = sample_cnt l)
    (sample_cnt l) (0, samples_info_init (sample_cnt l)))
    as ([sl si] & Hrun & _).
  - simpl. by apply samples_info_init_length.
  - intros j [sl s1] Hj Hlen. simpl in Hlen. unfold sample_step.
    assert (Hmul : mul32 j 4 = 4 * j).
    { unfold mul32. rewrite wrap32_id by lia. lia. }
    rewrite Hmul.
    destruct (read_long_Some dat (sample_offset l + 4 + 4 * j)) as [v ->];
      [lia..|].
    simpl. destruct (store_Some s1 j (set_length v)) as (s2 & -> & Hl2); [lia|].
    simpl. eexists. split; [done|]. simpl. lia.
  - eauto.
Qed.

(** The second loop completes when the instrument table lies in the buffer
    and the array has an entry for every valid sample index. *)
Lemma convert_instr_total dat l si :
  Z.of_nat (length dat) < 2 ^ 31 →
  0 <= instr_offset l →
  instr_offset l + 152 * instr_cnt l <= Z.of_nat (length dat) →
  sample_cnt l <= Z.of_nat (length si) →
  ∃ si' out, convert_instr dat l si = Some (si', out).
Proof.
  intros Hsize Hoff Hend Hcap. unfold convert_instr.
  destruct (for_range_progress (instr_step dat (sample_cnt l))
    (λ j (st : instr_state),
       st.1.1 = instr_offset l + 152 * j ∧ length st.1.2 = length si)
    (instr_cnt l) (instr_offset l, si, []))
    as ([[off' si'] out] & -> & _).
  - simpl. split; [lia|done].
  - intros j [[off s1] out] Hj [Ho Hl]. simpl in Ho, Hl. subst off.
    set (off := instr_offset l + 152 * j).
    assert (Hnext : add32 off 152 = off + 152).
    { apply add32_exact. unfold off. lia. }
    unfold instr_step.
    destruct (read_ushort_Some dat off) as [kind ->]; [unfold off; lia..|].
    simpl. destruct (kind =? 0).
    + destruct (read_ushort_Some dat (off + 2)) as [raw ->]; [unfold off; lia..|].
      simpl.
      destruct (Z.leb_spec 0 (wrap16 raw)) as [Hlo|Hlo];
        [destruct (Z.ltb_spec (wrap16 raw) (sample_cnt l)) as [Hhi|Hhi]|]; simpl.
      * destruct (read_ushort_Some dat (off + 4)) as [len ->]; [unfold off; lia..|].
        simpl.
        destruct (store_Some s1 (wrap16 raw) (set_length_from_instr len))
          as (s2 & -> & Hl2); [lia|].
        simpl.
        destruct (read_ushort_Some dat (off + 6)) as [rep ->]; [unfold off; lia..|].
        simpl.
        destruct (store_Some s2 (wrap16 raw) (set_repeat_from_instr rep))
          as (s3 & -> & Hl3); [lia|].
        simpl.
        destruct (store_Some s3 (wrap16 raw) (set_name_from_instr (off + 122)))
          as (s4 & -> & Hl4); [lia|].
        simpl. eexists. split; [done|]. simpl. rewrite Hnext. unfold off.
        split; [lia|congruence].
      * eexists. split; [done|]. simpl. rewrite Hnext. unfold off.
        split; [lia|done].
      * eexists. split; [done|]. simpl. rewrite Hnext. unfold off.
        split; [lia|done].
    + simpl. eexists. split; [done|]. simpl. rewrite Hnext. unfold off.
      split; [lia|done].
  - simpl. eauto.
Qed.

(** One of the four arrays is written to its end when every entry exists
    and its chunk can be read. *)
Lemma write_array_total (g : sample_info → option (list byte)) si cnt f :
  (∀ i, 0 <= i < cnt → ∃ e c, load si i = Some e ∧ g e = Some c) →
  ∃ f', for_range cnt (λ i f, e ← load si i; fwrite (g e) f) f = Some f'.
Proof.
  intros Hall.
  destruct (for_range_progress (λ i f, e ← load si i; fwrite (g e) f)
              (λ _ _, True) cnt f) as (f' & Hrun & _); [done| |eauto].
  intros j f1 Hj _. destruct (Hall j Hj) as (e & c & -> & Hc). simpl.
  unfold fwrite. rewrite Hc. simpl. eauto.
Qed.

(** The writer completes when all it copies lies in the buffer and every
    entry it goes through has a name to read. *)
Lemma convert_write_total dat l si sample_len :
  section_ok dat (song_offset l) (song_len l) →
  section_ok dat (over_offset l) (over_len l) →
  section_ok dat (note_offset l) (note_len l) →
  section_ok dat (instr_offset l) (instr_len l) →
  section_ok dat (wave_offset l) (wave_len l) →
  section_ok dat (adsr_offset l) (adsr_len l) →
  section_ok dat (amf_offset l) (amf_len l) →
  section_ok dat (sample_offset l + 4 + mul32 (sample_cnt l) 4) sample_len →
  (∀ i, 0 <= i < sample_cnt l →
        ∃ e name, load si i = Some e ∧ name_bytes dat e = Some name) →
  ∃ f, convert_write dat l si sample_len = Some f.
Proof.
  intros [song Hsong]%bytes_at_Some [over Hover]%bytes_at_Some
    [note Hnote]%bytes_at_Some [instr Hinstr]%bytes_at_Some
    [wave Hwave]%bytes_at_Some [adsr Hadsr]%bytes_at_Some
    [amf Hamf]%bytes_at_Some [payload Hpay]%bytes_at_Some Hnames.
  assert (Hentries : ∀ (h : sample_info → Z) i, 0 <= i < sample_cnt l →
            ∃ e c, load si i = Some e ∧ Some (long_bytes (h e)) = Some c).
  { intros h i Hi. destruct (Hnames i Hi) as (e & _ & He & _). eauto. }
  unfold convert_write.
  rewrite Hsong, Hover, Hnote, Hinstr, Hwave, Hadsr, Hamf, Hpay.
  cbn [fwrite mbind option_bind].
  edestruct (write_array_total (λ e, Some (long_bytes (length_from_instr e))))
    as [f1 ->]; [apply (Hentries length_from_instr)|].
  cbn [mbind option_bind].
  edestruct (write_array_total (λ e, Some (long_bytes (repeat_from_instr e))))
    as [f2 ->]; [apply (Hentries repeat_from_instr)|].
  cbn [mbind option_bind].
  edestruct (write_array_total (name_bytes dat)) as [f3 ->]; [exact Hnames|].
  cbn [mbind option_bind].
  edestruct (write_array_total (λ e, Some (long_bytes (si_length e))))
    as [f4 ->]; [apply (Hentries si_length)|].
  cbn [mbind option_bind]. eauto.
Qed.

(** Among the records that refer to a sample there is a last one. *)
Lemma last_sampled_ref dat n off k :
  ∀ cnt : nat,
    (∃ j, 0 <= j < Z.of_nat cnt ∧ sampled_ref dat n (off + 152 * j) k) →
    ∃ j, 0 <= j < Z.of_nat cnt ∧ sampled_ref dat n (off + 152 * j) k ∧
         ∀ j', j < j' < Z.of_nat cnt → ¬ sampled_ref dat n (off + 152 * j') k.
Proof.
  induction cnt as [|cnt IH]; intros (j & Hj & Href); [lia|].
  destruct (sampled_ref_dec dat n (off + 152 * Z.of_nat cnt) k) as [Hlast|Hno].
  - exists (Z.of_nat cnt). split; [lia|]. split; [done|]. intros; lia.
  - destruct IH as (j0 & Hj0 & Href0 & Hafter).
    { exists j. split; [|done].
      destruct (Z.eq_dec j (Z.of_nat cnt)) as [->|]; [done|lia]. }
    exists j0. split; [lia|]. split; [done|]. intros j' Hj'.
    destruct (Z.eq_dec j' (Z.of_nat cnt)) as [->|]; [done|]. apply Hafter. lia.
Qed.

(** A well-formed packed module is converted: with memory for the array
    and an output file that opens, [convert] runs to its end and leaves the
    output file. *)
Lemma convert_total (e : env) (dat : list byte) (read_len offset : Z)
    (l : layout) :
  findsong dat (Z.of_nat (length dat)) = Some offset →
  0 <= offset →
  convert_layout dat offset = Some l →
  well_formed dat l →
  malloc_ok e (samples_info_size (sample_cnt l)) = true →
  fopen_out_ok e = true →
  ∃ r f, convert e dat read_len = Some r ∧ f_out r = Some f.
Proof.
  intros Hfind H0 Hlay
    (Hsize & Hsong & Hover & Hnote & Hinstr & Hwave & Hadsr & Hamf & Hicnt &
     Hcnt & Hlist & Hpay & Hrefs) Hmalloc Hopen.
  pose proof (convert_layout_in_long _ _ _ Hlay) as Hlong.
  destruct (convert_samples_total dat l Hcnt Hlist) as (sample_len & si0 & Hsamp).
  pose proof (convert_samples_spec _ _ _ _ Hsamp) as (Hle & _).
  assert (Hiend : instr_offset l + 152 * instr_cnt l <= Z.of_nat (length dat)).
  { destruct Hinstr as (Hl0 & Ho0 & Hend). rewrite Hicnt.
    pose proof (Z.mul_quot_le (instr_len l) 152). lia. }
  destruct (convert_instr_total dat l si0) as (si & printed & Hins);
    [done|by destruct Hinstr as (_ & ? & _)|done|lia|].
  assert (Hnames : ∀ i, 0 <= i < sample_cnt l →
            ∃ e name, load si i = Some e ∧ name_bytes dat e = Some name).
  { intros i Hi.
    destruct (last_sampled_ref dat (sample_cnt l) (instr_offset l) i
                (Z.to_nat (instr_cnt l))) as (j & Hj & Href & Hafter).
    { destruct (Hrefs i Hi) as (j & Hj & Href). exists j. split; [lia|done]. }
    destruct (convert_instr_last dat l si0 si printed i j Hlong Hins)
      as (e0 & len & rep & _ & _ & _ & He); [lia|done| |].
    { intros j' Hj'. apply Hafter. lia. }
    destruct (bytes_at_Some dat (instr_offset l + 152 * j + 122) 30) as [name Hname].
    { destruct Hinstr as (_ & ? & _). unfold section_ok. lia. }
    exists (join_entry e0 len rep (instr_offset l + 152 * j)), name.
    split; [done|]. exact Hname. }
  assert (Hmul : mul32 (sample_cnt l) 4 = 4 * sample_cnt l).
  { unfold mul32. rewrite wrap32_id by lia. lia. }
  destruct (convert_write_total dat l si sample_len) as [f Hw]; try done.
  { rewrite Hmul. exact (Hpay _ _ Hsamp). }
  assert (Hguard : (0 <=? offset) && (offset <? Z.of_nat (length dat) - 28) = true).
  { destruct (findsong_spec dat) as (r & Hr & Hcases). cbv zeta in Hr.
    rewrite Hfind in Hr. injection Hr as <-.
    destruct Hcases as [[-> _]|(Hrange & _)]; [lia|].
    apply andb_true_iff. split; [apply Z.leb_le|apply Z.ltb_lt]; lia. }
  unfold convert. cbv zeta. rewrite Hfind. simpl. rewrite Hguard, Hlay. simpl.
  rewrite Hmalloc, Hsamp. simpl. rewrite Hins. simpl. rewrite Hopen, Hw. simpl.
  eauto.
Qed.

(** C7: a module whose offset table is out of order gives a negative
    section length; no check rejects it, the writer uses it as a copy size
    and reads outside the buffer. On [buf_out_of_order] the overview length
    is -4 and the run ends in that invalid read. *)
Theorem C7_out_of_order_offsets_unchecked :
  ∃ l, convert_layout buf_out_of_order 0 = Some l ∧
       over_len l = -4 ∧
       bytes_at buf_out_of_order (over_offset l) (over_len l) = None ∧
       convert env_ok buf_out_of_order 60 = None.
Proof.
  eexists. split; [vm_compute; reflexivity|]. by vm_compute.
Qed.

(** ** Runs on the sample buffers *)

Ltac by_evaluation := vm_compute; reflexivity.

(** A [sampled_ref] or [sampled_bad] on a sample buffer, given the index
    stored in the record. *)
Ltac record_with raw :=
  split; [by_evaluation|];
  exists raw; split; [by_evaluation|]; split; [by_evaluation|lia].

(** [buf_one] is a well-formed packed module. *)
Lemma well_formed_buf_one : well_formed buf_one (packed_layout 1 1).
Proof.
  unfold well_formed, section_ok.
  split; [by_evaluation|]. do 7 (split; [vm_compute; intuition discriminate|]).
  split; [by_evaluation|]. split; [vm_compute; intuition discriminate|].
  split; [vm_compute; intuition discriminate|]. split.
  - intros sample_len si0 Hsamp. vm_compute in Hsamp. injection Hsamp as <- <-.
    vm_compute. intuition discriminate.
  - intros k Hk. simpl in Hk. assert (k = 0) as -> by lia.
    exists 0. split; [simpl; lia|].
    change (sampled_ref buf_one 1 72 0). record_with 0.
Qed.

(** So [convert] runs to its end on [buf_one], whatever [fread] returned. *)
Lemma convert_total_buf_one read_len :
  ∃ r f, convert env_ok buf_one read_len = Some r ∧ f_out r = Some f.
Proof.
  apply (convert_total env_ok buf_one read_len 0 (packed_layout 1 1));
    [by_evaluation|lia|by_evaluation|apply well_formed_buf_one|done|done].
Qed.

Lemma C1_writer_output_witness :
  convert env_ok buf_marked 627
    = Some {| stdout := [Source_size 627; Read_bytes 627; Found_module 8;
                         Tables marked_layout 3; Conversion_written];
              f_out := Some out_marked |} ∧
  ∃ si sample_len,
    Z.of_nat (length (written_entries marked_layout si)) = 1 ∧
    output_format buf_marked marked_layout (written_entries marked_layout si)
      sample_len out_marked.
Proof.
  assert (Hrun : convert env_ok buf_marked 627
            = Some {| stdout := [Source_size 627; Read_bytes 627;
                                 Found_module 8; Tables marked_layout 3;
                                 Conversion_written];
                      f_out := Some out_marked |}) by (by_evaluation).
  split; [exact Hrun|].
  destruct (C1_writer_output env_ok buf_marked 627 _ out_marked Hrun eq_refl)
    as (offset & l & sample_len & si0 & si & printed & Hfind & Hlay & _ & _
        & Hlen & Hfmt & _).
  assert (offset = 8) as -> by (vm_compute in Hfind; congruence).
  assert (l = marked_layout) as ->
    by (vm_compute in Hlay; injection Hlay as <-; reflexivity).
  exists si, sample_len. split; [exact Hlen|exact Hfmt].
Defined.

Lemma C2_layout_resolver_witness :
  convert_layout buf_marked 8 = Some marked_layout ∧
  (∃ l, convert_layout buf_marked 8 = Some l ∧
        song_offset l = add32 8 40 ∧ over_offset l = add32 8 52 ∧
        note_offset l = add32 8 68 ∧ instr_offset l = add32 8 72 ∧
        wave_offset l = add32 8 224 ∧ adsr_offset l = add32 8 352 ∧
        amf_offset l = add32 8 480 ∧ sample_offset l = add32 8 608 ∧
        sample_cnt l = 1) ∧
  ∃ r3 r4,
    read_long buf_marked (8 + 12) = Some r3 ∧
    read_long buf_marked (8 + 16) = Some r4 ∧
    r3 = 72 ∧ r4 = 224 ∧
    instr_offset marked_layout = 8 + r3 ∧
    instr_len marked_layout = r4 - r3 ∧
    instr_cnt marked_layout = (r4 - r3) ÷ 152.
Proof.
  assert (H : convert_layout buf_marked 8 = Some marked_layout)
    by (by_evaluation).
  destruct (C2_layout_resolver buf_marked 8) as (Hfwd & _ & Hinv).
  split; [exact H|]. split.
  { apply (Hfwd 40 52 68 72 224 352 480 608 1); by_evaluation. }
  destruct (Hinv marked_layout H)
    as (r0 & r1 & r2 & r3 & r4 & r5 & r6 & r7 & Hrd & Hoff & Hlen & Hcnt & _).
  destruct Hrd as (_ & _ & _ & H3 & H4 & _).
  destruct Hoff as (_ & _ & _ & Ho3 & _).
  destruct Hlen as (_ & _ & _ & Hl3 & _).
  destruct Hcnt as (_ & _ & _ & Hc3 & _).
  exists r3, r4. split; [exact H3|]. split; [exact H4|].
  vm_compute in H3, H4. injection H3 as <-. injection H4 as <-.
  split; [reflexivity|]. split; [reflexivity|].
  split; [reflexivity|]. split; [reflexivity|]. reflexivity.
Defined.

Lemma C3_locator_first_match_witness :
  findsong buf_marked (Z.of_nat (length buf_marked)) = Some 8 ∧
  signature_bytes buf_marked 8 ∧
  (∀ o, 0 <= o < 8 → Z.even o = true → ¬ signature_bytes buf_marked o) ∧
  take 8 (drop 8 buf_marked)
    = [x00; x00; x00; x28; x00; x00; x00; x34]%byte.
Proof.
  assert (Hfind : findsong buf_marked (Z.of_nat (length buf_marked)) = Some 8)
    by (by_evaluation).
  destruct (C3_locator_first_match env_ok buf_marked 627)
    as (r & Hr & Hcases).
  rewrite Hfind in Hr. injection Hr as <-.
  split; [exact Hfind|].
  destruct Hcases as [(_ & _ & Hsig & Hfirst)|(Hneg & _)]; [|discriminate].
  split; [exact Hsig|]. split; [exact Hfirst|]. reflexivity.
Defined.

Lemma C4_single_sampled_instrument_witness :
  convert_samples buf_one (packed_layout 1 1)
    = Some (3, [set_length 3 zero_info]) ∧
  convert_instr buf_one (packed_layout 1 1) [set_length 3 zero_info]
    = Some ([join_entry (set_length 3 zero_info) 7 5 72], []) ∧
  sampled_ref buf_one 1 72 0 ∧
  ∃ e, load [join_entry (set_length 3 zero_info) 7 5 72] 0 = Some e ∧
       length_from_instr e = 7 ∧ repeat_from_instr e = 5 ∧
       name_bytes buf_one e = Some name_A.
Proof.
  set (si0 := [set_length 3 zero_info]).
  set (si := [join_entry (set_length 3 zero_info) 7 5 72]).
  split; [by_evaluation|].
  assert (Hrun : convert_instr buf_one (packed_layout 1 1) si0 = Some (si, []))
    by (by_evaluation).
  split; [exact Hrun|].
  assert (Href : sampled_ref buf_one 1 72 0).
  { record_with 0. }
  split; [exact Href|].
  destruct (C4_single_sampled_instrument buf_one (packed_layout 1 1) si0 si [] 0 0)
    as (e0 & len & rep & e & _ & Hlen & Hrep & He & Hl & Hr & _ & Hname & _).
  - vm_compute. split; [discriminate|reflexivity].
  - exact Hrun.
  - vm_compute. split; [discriminate|reflexivity].
  - exact Href.
  - intros j' Hj' Hne. simpl in Hj'. lia.
  - exists e. split; [exact He|].
    vm_compute in Hlen, Hrep. injection Hlen as <-. injection Hrep as <-.
    split; [exact Hl|]. split; [exact Hr|]. rewrite Hname.
    vm_compute. reflexivity.
Defined.

Lemma C5_last_writer_wins_witness :
  convert_samples buf_two (packed_layout 2 1)
    = Some (3, [set_length 3 zero_info]) ∧
  convert_instr buf_two (packed_layout 2 1) [set_length 3 zero_info]
    = Some ([join_entry (set_length 3 zero_info) 8 6 224], []) ∧
  sampled_ref buf_two 1 72 0 ∧ sampled_ref buf_two 1 224 0 ∧
  ∃ e, load [join_entry (set_length 3 zero_info) 8 6 224] 0 = Some e ∧
       length_from_instr e = 8 ∧ repeat_from_instr e = 6 ∧
       name_bytes buf_two e = Some name_B.
Proof.
  set (si0 := [set_length 3 zero_info]).
  set (si := [join_entry (set_length 3 zero_info) 8 6 224]).
  split; [by_evaluation|].
  assert (Hrun : convert_instr buf_two (packed_layout 2 1) si0 = Some (si, []))
    by (by_evaluation).
  split; [exact Hrun|].
  assert (Href1 : sampled_ref buf_two 1 72 0).
  { record_with 0. }
  assert (Href2 : sampled_ref buf_two 1 224 0).
  { record_with 0. }
  split; [exact Href1|]. split; [exact Href2|].
  destruct (C5_last_writer_wins buf_two (packed_layout 2 1) si0 si [] 0 1 0)
    as (len & rep & e & Hlen & Hrep & He & Hl & Hr & _ & Hname).
  - vm_compute. split; [discriminate|reflexivity].
  - exact Hrun.
  - lia.
  - simpl. lia.
  - exact Href1.
  - exact Href2.
  - intros j Hj. simpl in Hj. lia.
  - exists e. split; [exact He|].
    vm_compute in Hlen, Hrep. injection Hlen as <-. injection Hrep as <-.
    split; [exact Hl|]. split; [exact Hr|]. rewrite Hname.
    vm_compute. reflexivity.
Defined.

Lemma C6_invalid_sample_index_skipped_witness :
  sampled_bad buf_bad_id 1 72 5 ∧
  instr_step buf_bad_id 1 0 (72, [set_length 3 zero_info], [])
    = Some (224, [set_length 3 zero_info], [Inconsistent_sample_id 5 0]) ∧
  convert_instr buf_bad_id (packed_layout 2 1) [set_length 3 zero_info]
    = Some ([join_entry (set_length 3 zero_info) 8 6 224],
            [Inconsistent_sample_id 5 0]) ∧
  Inconsistent_sample_id 5 0 ∈ [Inconsistent_sample_id 5 0].
Proof.
  assert (Hbad : sampled_bad buf_bad_id 1 72 5).
  { record_with 5. }
  assert (Hrun : convert_instr buf_bad_id (packed_layout 2 1)
                   [set_length 3 zero_info]
                 = Some ([join_entry (set_length 3 zero_info) 8 6 224],
                         [Inconsistent_sample_id 5 0]))
    by (by_evaluation).
  destruct (C6_invalid_sample_index_skipped buf_bad_id (packed_layout 2 1) 0 5)
    as [Hstep Hprinted].
  split; [exact Hbad|]. split.
  - destruct (Hstep 72 [set_length 3 zero_info] [] Hbad) as [H _]. exact H.
  - split; [exact Hrun|].
    assert (Hin : in_long (instr_offset (packed_layout 2 1)))
      by (vm_compute; split; [discriminate|reflexivity]).
    assert (Hj : 0 <= 0 < instr_cnt (packed_layout 2 1)) by (simpl; lia).
    exact (Hprinted _ _ _ Hin Hrun Hj Hbad).
Defined.

Lemma C8_section_sizes_witness :
  ∃ r f,
    convert env_ok buf_one 235 = Some r ∧ f_out r = Some f ∧
    ∃ l si sample_len,
      convert_layout buf_one 0 = Some l ∧
      sample_len = wrap32 (sum_lengths (written_entries l si)).
Proof.
  eexists _, _. split; [by_evaluation|]. split; [reflexivity|].
  edestruct (C8_section_sizes env_ok buf_one 235)
    as (offset & l & sample_len & si0 & si & printed & Hfind & Hlay & _ & _ & Hsec);
    [by_evaluation|reflexivity|].
  assert (offset = 0) as -> by (vm_compute in Hfind; congruence).
  destruct Hsec as (song & over & note & instr & names & payload & wave &
                    adsr & amf & Hsec).
  cbv zeta in Hsec.
  destruct Hsec as (_ & _ & _ & _ & _ & _ & _ & _ & _ & Hsum).
  exists l, si, sample_len. split; [exact Hlay|exact Hsum].
Defined.

(** C8 as stated fails on a module whose stored sample count is negative:
    the run completes, the sample section is the 8 bytes of tag and count,
    and the stated size is a negative number. It also fails, when the sum
    is taken in the integers, on a module whose three byte lengths add up
    to 2^32: [sample_len] is 0 and the sample section has 134 bytes. *)
Lemma C8_counterexample :
  (∃ r f l,
    convert env_ok buf_negative_count 56 = Some r ∧ f_out r = Some f ∧
    convert_layout buf_negative_count 0 = Some l ∧
    convert_samples buf_negative_count l = Some (0, [zero_info]) ∧
    sample_cnt l = -268435455 ∧
    f = SOAR_ID ++ table_section STBL_ID 1 (zeros 12) ++
        table_section OVTB_ID 0 [] ++ table_section NTBL_ID 0 [] ++
        table_section INST_ID 0 [] ++
        (SD8B_ID ++ long_bytes (sample_cnt l)) ++
        table_section SYWT_ID 0 [] ++ table_section SYAR_ID 0 [] ++
        table_section SYAF_ID 0 [] ++ EDAT_ID ++ EDAT_DATA ∧
    Z.of_nat (length (SD8B_ID ++ long_bytes (sample_cnt l)))
      ≠ 8 + 8 * sample_cnt l + 30 * sample_cnt l + 4 * sample_cnt l + 0) ∧
  (∃ r f,
    let si0 := [set_length 2147483647 zero_info;
                set_length 2147483647 zero_info; set_length 2 zero_info] in
    let si := [join_entry (set_length 2147483647 zero_info) 1 0 72;
               join_entry (set_length 2147483647 zero_info) 1 0 224;
               join_entry (set_length 2 zero_info) 1 0 376] in
    convert env_ok buf_overflow_sum 544 = Some r ∧ f_out r = Some f ∧
    convert_layout buf_overflow_sum 0 = Some (packed_layout 3 3) ∧
    convert_samples buf_overflow_sum (packed_layout 3 3) = Some (0, si0) ∧
    convert_instr buf_overflow_sum (packed_layout 3 3) si0 = Some (si, []) ∧
    f = SOAR_ID ++ table_section STBL_ID 1 (zeros 12) ++
        table_section OVTB_ID 1 (zeros 16) ++ table_section NTBL_ID 1 (zeros 4) ++
        table_section INST_ID 3
          (instrument 0 0 1 0 name_A ++ instrument 0 1 1 0 name_B ++
           instrument 0 2 1 0 name_A) ++
        sample_section 3 si [name_A; name_B; name_A] [] ++
        table_section SYWT_ID 0 [] ++ table_section SYAR_ID 0 [] ++
        table_section SYAF_ID 0 [] ++ EDAT_ID ++ EDAT_DATA ∧
    Z.of_nat (length (sample_section 3 si [name_A; name_B; name_A] []))
      ≠ 8 + 8 * 3 + 30 * 3 + 4 * 3 + (2147483647 + 2147483647 + 2)).
Proof.
  split.
  - eexists _, _, _. split; [by_evaluation|]. split; [reflexivity|].
    split; [by_evaluation|]. split; [by_evaluation|].
    split; [reflexivity|]. split; [by_evaluation|].
    vm_compute. discriminate.
  - eexists _, _. cbv zeta. split; [by_evaluation|]. split; [reflexivity|].
    split; [by_evaluation|]. split; [by_evaluation|].
    split; [by_evaluation|]. split; [by_evaluation|].
    vm_compute. discriminate.
Qed.

(** C9 as stated fails: with one byte less read than the file size says,
    the run prints the failed read and still writes the output file. *)
Lemma C9_counterexample_short_read :
  234 ≠ Z.of_nat (length buf_one) ∧
  ∃ f, convert env_ok buf_one 234 =
    Some {| stdout := [Source_size 235; Read_failed 235 234; Found_module 0;
                       Tables (packed_layout 1 1) 3; Conversion_written];
            f_out := Some f |}.
Proof.
  split; [vm_compute; discriminate|]. eexists. vm_compute. reflexivity.
Qed.

Lemma C9_short_read_reported_only_witness :
  234 ≠ Z.of_nat (length buf_one) ∧
  f_out <$> convert env_ok buf_one 234
    = f_out <$> convert env_ok buf_one (Z.of_nat (length buf_one)) ∧
  ∀ r, convert env_ok buf_one 234 = Some r →
    ∃ rest, stdout r =
      Source_size (Z.of_nat (length buf_one)) ::
      Read_failed (Z.of_nat (length buf_one)) 234 :: rest.
Proof.
  assert (H : 234 ≠ Z.of_nat (length buf_one)) by (vm_compute; discriminate).
  split; [exact H|]. exact (C9_short_read_reported_only env_ok buf_one 234 H).
Defined.

Lemma C10_names_need_references_witness :
  convert_layout buf_unreferenced 0 = Some (packed_layout 1 2) ∧
  convert_samples buf_unreferenced (packed_layout 1 2)
    = Some (5, [set_length 3 zero_info; set_length 2 zero_info]) ∧
  convert_instr buf_unreferenced (packed_layout 1 2)
      [set_length 3 zero_info; set_length 2 zero_info]
    = Some ([join_entry (set_length 3 zero_info) 7 5 72;
             set_length 2 zero_info], []) ∧
  convert_write buf_unreferenced (packed_layout 1 2)
      [join_entry (set_length 3 zero_info) 7 5 72; set_length 2 zero_info] 5
    = None.
Proof.
  assert (Hlay : convert_layout buf_unreferenced 0 = Some (packed_layout 1 2))
    by (by_evaluation).
  assert (Hsamp : convert_samples buf_unreferenced (packed_layout 1 2)
            = Some (5, [set_length 3 zero_info; set_length 2 zero_info]))
    by (by_evaluation).
  assert (Hinstr : convert_instr buf_unreferenced (packed_layout 1 2)
              [set_length 3 zero_info; set_length 2 zero_info]
            = Some ([join_entry (set_length 3 zero_info) 7 5 72;
                     set_length 2 zero_info], []))
    by (by_evaluation).
  split; [exact Hlay|]. split; [exact Hsamp|]. split; [exact Hinstr|].
  destruct (C10_names_need_references env_ok buf_unreferenced 241) as [Hnull _].
  destruct (Hnull 0 (packed_layout 1 2) 5 _ _ [] 1 Hlay Hsamp Hinstr) as [_ Hw].
  - simpl. lia.
  - intros j Hj. simpl in Hj. assert (j = 0) as -> by lia.
    intros (_ & raw & Hraw & Hid & _).
    vm_compute in Hraw. injection Hraw as <-. vm_compute in Hid. discriminate.
  - exact Hw.
Defined.

(** * Further properties *)

(** ** What the second loop prints *)

Lemma seqZ_snoc j : 0 <= j → seqZ 0 (j + 1) = seqZ 0 j ++ [j].
Proof.
  intros Hj. rewrite seqZ_app by lia. rewrite (seqZ_cons (0 + j)) by lia.
  rewrite (seqZ_nil (Z.succ (0 + j))) by lia. by rewrite Z.add_0_l.
Qed.

Lemma instr_step_out dat n i off si out off' si' out' :
  instr_step dat n i (off, si, out) = Some (off', si', out') →
  out' = out ++ option_list (inconsistency dat n off i).
Proof.
  intros H. apply instr_step_inv in H as (_ & kind & Hk & Hcases).
  unfold inconsistency. rewrite Hk. simpl.
  destruct Hcases as [(Hne & _ & ->)|(-> & raw & Hraw & Hcases)].
  - destruct (Z.eqb_spec kind 0); [done|]. simpl. by rewrite app_nil_r.
  - simpl. rewrite Hraw. simpl.
    destruct Hcases as [(Hbad & _ & ->)|(Hin & -> & _)].
    + destruct (Z.leb_spec 0 (wrap16 raw)); [|done].
      destruct (Z.ltb_spec (wrap16 raw) n); [lia|done].
    + destruct (Z.leb_spec 0 (wrap16 raw)); [|lia].
      destruct (Z.ltb_spec (wrap16 raw) n); [|lia]. simpl. by rewrite app_nil_r.
Qed.

Lemma convert_instr_out dat l si si' out :
  in_long (instr_offset l) →
  convert_instr dat l si = Some (si', out) →
  out = omap (λ j, inconsistency dat (sample_cnt l) (instr_offset l + 152 * j) j)
          (seqZ 0 (instr_cnt l)).
Proof.
  intros Hoff (off' & Hrun)%convert_instr_inv.
  pose (P := λ (j : Z) (_ : list sample_info) (o : list message),
    o = omap (λ j, inconsistency dat (sample_cnt l) (instr_offset l + 152 * j) j)
          (seqZ 0 j)).
  assert (HP : P (Z.max 0 (instr_cnt l)) si' out).
  { apply (instr_range_rule dat (sample_cnt l) P _ _ _ _ _ _ _ Hoff Hrun).
    - unfold P. by rewrite seqZ_nil.
    - intros j s1 o1 o2 s2 out2 Hj HPj Hstep. unfold P in *.
      rewrite seqZ_snoc, omap_app by lia. rewrite <- HPj. simpl.
      rewrite (instr_step_out _ _ _ _ _ _ _ _ _ Hstep).
      by destruct (inconsistency _ _ _ _). }
  unfold P in HP. rewrite HP.
  destruct (Z.max_spec 0 (instr_cnt l)) as [[_ ->]|[Hle ->]]; [done|].
  by rewrite !seqZ_nil by lia.
Qed.

Lemma inconsistency_bad dat n off j id :
  inconsistency dat n off j = Some (Inconsistent_sample_id id j) ↔
  sampled_bad dat n off id.
Proof.
  unfold inconsistency, sampled_bad. split.
  - destruct (read_ushort dat off) as [kind|]; [|done]. simpl.
    destruct (Z.eqb_spec kind 0) as [->|]; [|done].
    destruct (read_ushort dat (off + 2)) as [raw|]; [|done]. simpl.
    destruct (Z.leb_spec 0 (wrap16 raw)); simpl;
      [destruct (Z.ltb_spec (wrap16 raw) n); [done|]|];
      intros [= <-]; (split; [done|]); exists raw; (split; [done|]);
      (split; [done|lia]).
  - intros (-> & raw & -> & <- & Hbad). simpl.
    destruct (Z.leb_spec 0 (wrap16 raw)); [|done].
    destruct (Z.ltb_spec (wrap16 raw) n); [lia|done].
Qed.

Lemma inconsistency_line dat n off j m :
  inconsistency dat n off j = Some m → ∃ id, m = Inconsistent_sample_id id j.
Proof.
  unfold inconsistency.
  destruct (read_ushort dat off) as [kind|]; [|done]. simpl.
  destruct (kind =? 0); [|done].
  destruct (read_ushort dat (off + 2)) as [raw|]; [|done]. simpl.
  destruct (_ && _); [done|]. intros [= <-]. eauto.
Qed.

(** The second loop prints exactly one line for every sampled instrument
    whose sample index is not valid, in the order of the instrument table,
    and nothing else. *)
Theorem instr_lines_exact
    (dat : list byte) (l : layout) (si si' : list sample_info)
    (out : list message) :
  in_long (instr_offset l) →
  convert_instr dat l si = Some (si', out) →
  out = omap (λ j, inconsistency dat (sample_cnt l) (instr_offset l + 152 * j) j)
          (seqZ 0 (instr_cnt l)) ∧
  ∀ m, m ∈ out ↔
    ∃ j id, m = Inconsistent_sample_id id j ∧ 0 <= j < instr_cnt l ∧
            sampled_bad dat (sample_cnt l) (instr_offset l + 152 * j) id.
Proof.
  intros Hoff Hrun. pose proof (convert_instr_out _ _ _ _ _ Hoff Hrun) as Hout.
  split; [done|]. intros m. rewrite Hout, list_elem_of_omap. split.
  - intros (j & Hj%elem_of_seqZ & Hm).
    destruct (inconsistency_line _ _ _ _ _ Hm) as [id ->].
    exists j, id. split; [done|]. split; [lia|]. by apply inconsistency_bad in Hm.
  - intros (j & id & -> & Hj & Hbad). exists j.
    split; [apply elem_of_seqZ; lia|]. by apply inconsistency_bad.
Qed.

(** ** How a run ends *)

Lemma convert_instr_no_outcome dat l si si' out :
  in_long (instr_offset l) →
  convert_instr dat l si = Some (si', out) →
  Forall (λ m, is_outcome m = false) out.
Proof.
  intros Hoff Hrun. rewrite (convert_instr_out _ _ _ _ _ Hoff Hrun).
  apply Forall_forall. intros m (j & _ & Hm)%list_elem_of_omap.
  by destruct (inconsistency_line _ _ _ _ _ Hm) as [id ->].
Qed.

(** Whenever [findsong] returns an offset, the test that [convert] makes
    of it holds. *)
Lemma findsong_guard dat offset :
  findsong dat (Z.of_nat (length dat)) = Some offset →
  ((0 <=? offset) && (offset <? Z.of_nat (length dat) - 28) = false ∧ offset = -1)
  ∨ ((0 <=? offset) && (offset <? Z.of_nat (length dat) - 28) = true ∧
     0 <= offset ∧ offset + 40 < Z.of_nat (length dat) ∧
     anchor_signature dat offset).
Proof.
  intros Hfind. destruct (findsong_spec dat) as (r & Hr & Hcases).
  cbv zeta in Hr. rewrite Hfind in Hr. injection Hr as <-.
  destruct Hcases as [[-> _]|(Hrange & _ & Hsig & _)].
  - left. done.
  - right. split; [|split; [lia|split; [lia|done]]].
    apply andb_true_iff. split; [apply Z.leb_le|apply Z.ltb_lt]; lia.
Qed.

(** Every run of [convert] that has opened its input and filled the
    buffer (the run from line 109 on; the return at lines 102 to 106, when
    the input cannot be opened, comes before it) and that ends prints one
    outcome line, as its last line, and this line tells whether there is
    an output file and why not: the file exists exactly when the line is
    the one of a written conversion; otherwise the output could not be
    opened, or the array of sample data could not be allocated, or
    [findsong] returned -1. *)
Theorem convert_outcome
    (e : env) (dat : list byte) (read_len : Z) (res : result) :
  convert e dat read_len = Some res →
  ∃ body final,
    stdout res = body ++ [final] ∧
    Forall (λ m, is_outcome m = false) body ∧
    ((final = Conversion_written ∧ is_Some (f_out res) ∧
      fopen_out_ok e = true)
     ∨ (final = Cannot_open_file ∧ f_out res = None ∧
        fopen_out_ok e = false)
     ∨ (final = Cannot_allocate_memory ∧ f_out res = None ∧
        ∃ offset l,
          findsong dat (Z.of_nat (length dat)) = Some offset ∧
          convert_layout dat offset = Some l ∧
          malloc_ok e (samples_info_size (sample_cnt l)) = false)
     ∨ (final = Song_not_found ∧ f_out res = None ∧
        findsong dat (Z.of_nat (length dat)) = Some (-1))).
Proof.
  unfold convert. cbv zeta. intros H.
  destruct (findsong dat _) as [offset|] eqn:Hfind; [|discriminate].
  simpl in H.
  destruct (findsong_guard dat offset Hfind) as [[Hg ->]|[Hg _]];
    rewrite Hg in H.
  { injection H as <-. simpl. eexists [_; _], _. split; [done|].
    split; [|by repeat right].
    repeat constructor. by destruct (_ =? _). }
  destruct (convert_layout dat offset) as [l|] eqn:Hlay; [|discriminate].
  simpl in H.
  set (head := [Source_size (Z.of_nat (length dat));
                if Z.of_nat (length dat) =? read_len then Read_bytes read_len
                else Read_failed (Z.of_nat (length dat)) read_len;
                Found_module offset]) in *.
  assert (Hhead : Forall (λ m, is_outcome m = false) head).
  { repeat constructor. by destruct (_ =? _). }
  destruct (malloc_ok e _) eqn:Hm.
  2:{ injection H as <-. cbn [stdout f_out].
      exists head, Cannot_allocate_memory. split; [done|].
      split; [done|]. right; right; left. eauto 10. }
  destruct (convert_samples dat l) as [[sample_len si0]|]; [|discriminate].
  simpl in H.
  destruct (convert_instr dat l si0) as [[si printed]|] eqn:Hinstr;
    [|discriminate].
  simpl in H.
  pose proof (convert_instr_no_outcome _ _ _ _ _
                (convert_layout_in_long _ _ _ Hlay) Hinstr) as Hprinted.
  assert (Hbody : Forall (λ m, is_outcome m = false)
                    (head ++ printed ++ [Tables l sample_len])).
  { apply Forall_app. split; [done|]. apply Forall_app. split; [done|].
    by repeat constructor. }
  destruct (fopen_out_ok e) eqn:Ho.
  - destruct (convert_write dat l si sample_len) as [f|]; [|discriminate].
    simpl in H. injection H as <-. cbn [stdout f_out].
    exists (head ++ printed ++ [Tables l sample_len]), Conversion_written.
    split; [by rewrite <- !app_assoc|]. split; [done|]. left. eauto.
  - injection H as <-. cbn [stdout f_out].
    exists (head ++ printed ++ [Tables l sample_len]), Cannot_open_file.
    split; [by rewrite <- !app_assoc|]. split; [done|]. right. left. done.
Qed.

(** ** Short input *)

(** A buffer of 40 bytes or fewer, the empty one included, is never
    converted, whatever it holds: [findsong] returns -1 and [convert]
    prints the sizes and that no song was found. *)
Theorem convert_short_input (e : env) (dat : list byte) (read_len : Z) :
  Z.of_nat (length dat) <= 0x28 →
  findsong dat (Z.of_nat (length dat)) = Some (-1) ∧
  convert e dat read_len =
    Some {| stdout :=
              [Source_size (Z.of_nat (length dat));
               if Z.of_nat (length dat) =? read_len then Read_bytes read_len
               else Read_failed (Z.of_nat (length dat)) read_len;
               Song_not_found];
            f_out := None |}.
Proof.
  intros Hlen.
  assert (Hfind : findsong dat (Z.of_nat (length dat)) = Some (-1)).
  { destruct (findsong_spec dat) as (r & Hr & [[-> _]|(Hrange & _)]);
      [done|lia]. }
  split; [done|]. unfold convert. cbv zeta. by rewrite Hfind.
Qed.

(** ** The located offset table *)

(** The test that [convert] makes of the result of [findsong] fails only
    for -1: every other result passes it, and the eight reads of the offset
    table, like the whole header block of 40 bytes, lie inside the
    buffer. *)
Theorem located_table_in_buffer (dat : list byte) (offset : Z) :
  findsong dat (Z.of_nat (length dat)) = Some offset →
  offset ≠ -1 →
  (0 <=? offset) && (offset <? Z.of_nat (length dat) - 28) = true ∧
  0 <= offset ∧ offset + 0x28 < Z.of_nat (length dat) ∧
  ∀ k, 0 <= k < 8 → ∃ v, read_long dat (offset + 4 * k) = Some v.
Proof.
  intros Hfind Hne.
  destruct (findsong_guard dat offset Hfind) as [[_ ->]|(Hg & H0 & H40 & _)];
    [done|].
  split; [done|]. split; [done|]. split; [done|].
  intros k Hk. apply read_long_Some; lia.
Qed.

Lemma wrap32_add_mul z k : wrap32 (z + k * 2 ^ 32) = wrap32 z.
Proof.
  unfold wrap32. replace (z + k * 2 ^ 32 + 2 ^ 31) with (z + 2 ^ 31 + k * 2 ^ 32)
    by lia. by rewrite Z.mod_add by lia.
Qed.

Lemma wrap32_multiple z : ∃ k, wrap32 z = z + k * 2 ^ 32.
Proof.
  exists (- ((z + 2 ^ 31) / 2 ^ 32)). unfold wrap32.
  rewrite Z.mod_eq by lia. lia.
Qed.

(** Differences of wrapped values are wrapped differences. *)
Lemma sub32_wrap x y : sub32 (wrap32 x) (wrap32 y) = wrap32 (x - y).
Proof.
  unfold sub32. destruct (wrap32_multiple x) as [k ->].
  destruct (wrap32_multiple y) as [k' ->].
  replace (x + k * 2 ^ 32 - (y + k' * 2 ^ 32)) with (x - y + (k - k') * 2 ^ 32)
    by lia.
  apply wrap32_add_mul.
Qed.

(** The song table of a located module is not empty and is shorter than
    984 bytes, so that its count lies between 0 and 81: the signature fixes
    the first two offsets. In a buffer whose size a [long] holds it starts
    exactly 40 bytes after the offset table, inside the buffer. *)
Theorem located_song_table (dat : list byte) (offset : Z) (l : layout) :
  Z.of_nat (length dat) < 2 ^ 31 →
  findsong dat (Z.of_nat (length dat)) = Some offset →
  0 <= offset →
  convert_layout dat offset = Some l →
  ∃ v, read_long dat (offset + 4) = Some v ∧ 0x28 < v < 0x400 ∧
       song_len l = v - 0x28 ∧
       0 <= song_cnt l <= 81 ∧
       song_offset l = offset + 0x28 ∧
       song_offset l < Z.of_nat (length dat).
Proof.
  intros Hsize Hfind H0 Hlay.
  destruct (findsong_guard dat offset Hfind)
    as [[_ ->]|(_ & _ & H40 & Hr0 & v & Hr1 & Hv)]; [lia|].
  destruct (convert_layout_inv dat offset l Hlay)
    as (r0 & r1 & r2 & r3 & r4 & r5 & r6 & r7 & Hrd & Hoff & Hlen & Hcnt & _).
  destruct Hrd as (Hr0' & Hr1' & _). rewrite Hr0 in Hr0'. rewrite Hr1 in Hr1'.
  injection Hr0' as <-. injection Hr1' as <-.
  destruct Hoff as (Hso & Hoo & _). destruct Hlen as (Hsl & _).
  destruct Hcnt as (Hsc & _).
  assert (Hsl' : song_len l = v - 40).
  { rewrite Hsl, Hso, Hoo. unfold add32. rewrite sub32_wrap.
    replace (offset + v - (offset + 40)) with (v - 40) by lia.
    apply wrap32_id. lia. }
  rewrite add32_exact in Hso by lia.
  exists v. split; [done|]. split; [done|]. split; [done|]. split; [|lia].
  rewrite Hsc, Hsl', Z.quot_div_nonneg by lia.
  split; [apply Z.div_pos; lia|].
  assert ((v - 40) / 12 < 82) by (apply Z.div_lt_upper_bound; lia). lia.
Qed.

(** ** The size of the array of sample data *)

Lemma samples_info_init_capacity cnt :
  0 <= cnt →
  Z.of_nat (length (samples_info_init cnt)) = cnt mod 2 ^ 28.
Proof.
  intros Hc. unfold samples_info_init, samples_info_size, to_size_t.
  rewrite length_replicate.
  replace (2 ^ 32) with (2 ^ 28 * 16) by lia.
  rewrite Zmult_mod_distr_r, Z.quot_mul by lia.
  pose proof (Z.mod_pos_bound cnt (2 ^ 28)). lia.
Qed.

(** A first loop that completes for a sample count that is not negative
    has left exactly that many entries, fewer than 2^28. *)
Lemma convert_samples_length dat l sample_len si :
  convert_samples dat l = Some (sample_len, si) →
  0 <= sample_cnt l →
  Z.of_nat (length si) = sample_cnt l ∧ sample_cnt l < 2 ^ 28.
Proof.
  intros Hrun Hc.
  destruct (convert_samples_spec _ _ _ _ Hrun) as (Hle & Hlen & _).
  pose proof (samples_info_init_capacity (sample_cnt l) Hc) as Hcap.
  pose proof (Z.mod_pos_bound (sample_cnt l) (2 ^ 28)).
  rewrite Hlen, Hcap. rewrite Hlen, Hcap in Hle.
  destruct (Z_lt_ge_dec (sample_cnt l) (2 ^ 28)) as [Hlt|Hge]; [|lia].
  by rewrite Z.mod_small by lia.
Qed.

(** A sample count of 2^28 or more makes the size of the array, the
    product with the 16 bytes of an entry, wrap around in [size_t]: the
    block allocated is too small and the first loop writes past its end.
    Such a run has no defined result, whatever the buffer holds. *)
Theorem convert_samples_count_overflow (dat : list byte) (l : layout) :
  2 ^ 28 <= sample_cnt l →
  convert_samples dat l = None.
Proof.
  intros Hbig.
  destruct (convert_samples dat l) as [[sample_len si]|] eqn:Hrun; [|done].
  destruct (convert_samples_length _ _ _ _ Hrun) as [_ Hlt]; lia.
Qed.

(** ** Where the entries come from *)

Lemma peek_range dat i v : peek dat i = Some v → 0 <= v < 256.
Proof.
  unfold peek. destruct (0 <=? i); [|done].
  destruct (dat !! Z.to_nat i) as [b|]; [|done]. simpl. intros [= <-].
  apply Z_of_byte_range.
Qed.

Lemma read_ushort_range dat off v : read_ushort dat off = Some v → 0 <= v < 2 ^ 16.
Proof.
  unfold read_ushort.
  destruct (peek dat off) as [b0|] eqn:H0; [|done].
  destruct (peek dat (off + 1)) as [b1|] eqn:H1; [|done].
  simpl. intros [= <-]. apply peek_range in H0, H1. lia.
Qed.

Lemma sampled_ref_any_dec dat n off k :
  ∀ cnt : nat,
    (∃ j, 0 <= j < Z.of_nat cnt ∧ sampled_ref dat n (off + 152 * j) k) ∨
    (∀ j, 0 <= j < Z.of_nat cnt → ¬ sampled_ref dat n (off + 152 * j) k).
Proof.
  induction cnt as [|cnt [(j & Hj & Href)|Hnone]].
  - right. intros; lia.
  - left. exists j. split; [lia|done].
  - destruct (sampled_ref_dec dat n (off + 152 * Z.of_nat cnt) k) as [Href|Hno].
    + left. exists (Z.of_nat cnt). split; [lia|done].
    + right. intros j Hj. destruct (Z.eq_dec j (Z.of_nat cnt)) as [->|]; [done|].
      apply Hnone. lia.
Qed.

(** After the second loop every entry is either as it was before the loop,
    when no sampled instrument with a valid index refers to it, or it holds
    the byte length it had and the length, repeat and name of the last
    sampled instrument of the table that refers to it. *)
Theorem convert_instr_provenance
    (dat : list byte) (l : layout) (si si' : list sample_info)
    (out : list message) (k : Z) :
  in_long (instr_offset l) →
  convert_instr dat l si = Some (si', out) →
  ((∀ j, 0 <= j < instr_cnt l →
         ¬ sampled_ref dat (sample_cnt l) (instr_offset l + 152 * j) k) ∧
   load si' k = load si k)
  ∨ (∃ j e0 len rep,
       0 <= j < instr_cnt l ∧
       sampled_ref dat (sample_cnt l) (instr_offset l + 152 * j) k ∧
       (∀ j', j < j' < instr_cnt l →
              ¬ sampled_ref dat (sample_cnt l) (instr_offset l + 152 * j') k) ∧
       load si k = Some e0 ∧
       read_ushort dat (instr_offset l + 152 * j + 4) = Some len ∧
       read_ushort dat (instr_offset l + 152 * j + 6) = Some rep ∧
       load si' k = Some (join_entry e0 len rep (instr_offset l + 152 * j))).
Proof.
  intros Hoff Hrun.
  destruct (sampled_ref_any_dec dat (sample_cnt l) (instr_offset l) k
              (Z.to_nat (instr_cnt l))) as [Hsome|Hnone].
  - right.
    destruct (last_sampled_ref _ _ _ _ _ Hsome) as (j & Hj & Href & Hafter).
    destruct (convert_instr_last dat l si si' out k j Hoff Hrun)
      as (e0 & len & rep & He0 & Hlen & Hrep & He); [lia|done| |].
    { intros j' Hj'. apply Hafter. lia. }
    exists j, e0, len, rep. split; [lia|]. split; [done|]. split.
    { intros j' Hj'. apply Hafter. lia. }
    done.
  - left. assert (Hnone' : ∀ j, 0 <= j < instr_cnt l →
        ¬ sampled_ref dat (sample_cnt l) (instr_offset l + 152 * j) k).
    { intros j Hj. apply Hnone. lia. }
    split; [done|].
    destruct (convert_instr_changed dat l si si' out k Hoff Hrun)
      as [Hsame|(j & Hj & Href)]; [done|]. by destruct (Hnone' j Hj).
Qed.

(** The length and the repeat that the join leaves in an entry are 16-bit
    values, and a name pointer that is not null points to the name field of
    a record of the instrument table; an entry with a null name pointer has
    length and repeat 0. *)
Theorem joined_fields_in_range
    (dat : list byte) (offset : Z) (l : layout) (sample_len : Z)
    (si0 si : list sample_info) (out : list message) (k : Z) (e : sample_info) :
  convert_layout dat offset = Some l →
  convert_samples dat l = Some (sample_len, si0) →
  convert_instr dat l si0 = Some (si, out) →
  load si k = Some e →
  0 <= length_from_instr e < 2 ^ 16 ∧
  0 <= repeat_from_instr e < 2 ^ 16 ∧
  ((name_from_instr e = None ∧ length_from_instr e = 0 ∧
    repeat_from_instr e = 0)
   ∨ ∃ j, 0 <= j < instr_cnt l ∧
          name_from_instr e = Some (instr_offset l + 152 * j + 0x7a)).
Proof.
  intros Hlay Hsamp Hinstr He.
  pose proof (convert_layout_in_long _ _ _ Hlay) as Hoff.
  assert (Hcases : load si k = load si0 k ∨
            ∃ j e0 len rep, 0 <= j < instr_cnt l ∧
              read_ushort dat (instr_offset l + 152 * j + 4) = Some len ∧
              read_ushort dat (instr_offset l + 152 * j + 6) = Some rep ∧
              load si k = Some (join_entry e0 len rep (instr_offset l + 152 * j))).
  { destruct (convert_instr_changed dat l si0 si out k Hoff Hinstr)
      as [Hsame|(j0 & Hj0 & Href0)]; [by left|]. right.
    destruct (last_sampled_ref dat (sample_cnt l) (instr_offset l) k
                (Z.to_nat (instr_cnt l)))
      as (j & Hj & Href & Hafter); [exists j0; split; [lia|done]|].
    destruct (convert_instr_last dat l si0 si out k j Hoff Hinstr)
      as (e0 & len & rep & _ & Hlen & Hrep & Hnew); [lia|done| |].
    { intros j' Hj'. apply Hafter. lia. }
    exists j, e0, len, rep. split; [lia|done]. }
  destruct Hcases as [Hsame|(j & e0 & len & rep & Hj & Hlen & Hrep & Hnew)].
  - rewrite Hsame in He.
    destruct (convert_samples_spec _ _ _ _ Hsamp) as (_ & _ & _ & Hun & _).
    apply load_Some in He as [_ Hl]. rewrite Forall_lookup in Hun.
    destruct (Hun _ _ Hl) as (-> & -> & ->). split; [lia|]. split; [lia|].
    by left.
  - rewrite Hnew in He. injection He as <-. simpl.
    apply read_ushort_range in Hlen, Hrep. split; [done|]. split; [done|].
    right. exists j. done.
Qed.

(** ** Bytes and the longs they store *)

Lemma byte_of_Z_of_byte b : byte_of_Z (Z_of_byte b) = b.
Proof.
  unfold byte_of_Z, Z_of_byte. pose proof (Byte.to_N_bounded b).
  rewrite Z.mod_small by lia. by rewrite N2Z.id, Byte.of_to_N.
Qed.

Lemma Z_of_byte_of_Z z : Z_of_byte (byte_of_Z z) = z mod 256.
Proof.
  unfold byte_of_Z, Z_of_byte. pose proof (Z.mod_pos_bound z 256).
  destruct (Byte.of_N (Z.to_N (z mod 256))) as [y|] eqn:Hy.
  - apply Byte.to_of_N in Hy. simpl. rewrite Hy. lia.
  - apply Byte.of_N_None_iff in Hy. lia.
Qed.

Lemma byte_of_Z_mod x y : x mod 256 = y mod 256 → byte_of_Z x = byte_of_Z y.
Proof. unfold byte_of_Z. by intros ->. Qed.

(** The four bytes of a stored [long], from its value. *)
Lemma long_bytes_wrap b0 b1 b2 b3 :
  long_bytes (wrap32 (Z_of_byte b0 * 2 ^ 24 + Z_of_byte b1 * 2 ^ 16 +
                      Z_of_byte b2 * 2 ^ 8 + Z_of_byte b3))
    = [b0; b1; b2; b3].
Proof.
  pose proof (Z_of_byte_range b0). pose proof (Z_of_byte_range b1).
  pose proof (Z_of_byte_range b2). pose proof (Z_of_byte_range b3).
  set (u := Z_of_byte b0 * 2 ^ 24 + Z_of_byte b1 * 2 ^ 16 +
            Z_of_byte b2 * 2 ^ 8 + Z_of_byte b3).
  destruct (wrap32_multiple u) as [k Hk]. pose proof (wrap32_range u).
  assert (k = 0 ∨ k = -1) as Hk' by (unfold u in *; lia).
  rewrite Hk. unfold long_bytes.
  f_equal; [|f_equal; [|f_equal; [|f_equal]]];
    (etransitivity; [|apply byte_of_Z_of_byte]); apply byte_of_Z_mod;
    destruct Hk' as [-> | ->]; unfold u; Z.div_mod_to_equations; lia.
Qed.

(** The value that four bytes store, read back. *)
Lemma wrap32_bytes z :
  wrap32 ((z / 2 ^ 24) mod 256 * 2 ^ 24 + (z / 2 ^ 16) mod 256 * 2 ^ 16 +
          (z / 2 ^ 8) mod 256 * 2 ^ 8 + z mod 256) = wrap32 z.
Proof.
  replace ((z / 2 ^ 24) mod 256 * 2 ^ 24 + (z / 2 ^ 16) mod 256 * 2 ^ 16 +
           (z / 2 ^ 8) mod 256 * 2 ^ 8 + z mod 256)
    with (z + (- (z / 2 ^ 32)) * 2 ^ 32)
    by (Z.div_mod_to_equations; lia).
  apply wrap32_add_mul.
Qed.

(** ** Buffers inside larger buffers *)

Lemma peek_app_r pre dat i :
  0 <= i → peek (pre ++ dat) (Z.of_nat (length pre) + i) = peek dat i.
Proof.
  intros Hi. unfold peek.
  destruct (Z.leb_spec 0 (Z.of_nat (length pre) + i)); [|lia].
  destruct (Z.leb_spec 0 i); [|lia].
  rewrite lookup_app_r by lia. do 2 f_equal. lia.
Qed.

Lemma peek_app_l dat post i v :
  peek dat i = Some v → peek (dat ++ post) i = Some v.
Proof.
  intros H. pose proof (peek_bounds _ _ _ H) as Hb. unfold peek in *.
  destruct (0 <=? i); [|done]. by rewrite lookup_app_l by lia.
Qed.

(** A read that succeeds in a buffer gives the same value when the buffer
    lies inside a larger one, at the position moved by the bytes put in
    front. *)
Lemma peek_embedded pre dat post i v :
  peek dat i = Some v →
  peek (pre ++ dat ++ post) (Z.of_nat (length pre) + i) = Some v.
Proof.
  intros H. pose proof (peek_bounds _ _ _ H).
  rewrite peek_app_r by lia. by apply peek_app_l.
Qed.

Lemma read_ushort_embedded pre dat post off v :
  read_ushort dat off = Some v →
  read_ushort (pre ++ dat ++ post) (Z.of_nat (length pre) + off) = Some v.
Proof.
  unfold read_ushort. intros H.
  destruct (peek dat off) as [b0|] eqn:H0; [|done].
  destruct (peek dat (off + 1)) as [b1|] eqn:H1; [|done].
  rewrite (peek_embedded pre dat post _ _ H0).
  replace (Z.of_nat (length pre) + off + 1)
    with (Z.of_nat (length pre) + (off + 1)) by lia.
  by rewrite (peek_embedded pre dat post _ _ H1).
Qed.

Lemma read_long_embedded pre dat post off v :
  read_long dat off = Some v →
  read_long (pre ++ dat ++ post) (Z.of_nat (length pre) + off) = Some v.
Proof.
  unfold read_long. intros H.
  destruct (peek dat off) as [b0|] eqn:H0; [|done].
  destruct (peek dat (off + 1)) as [b1|] eqn:H1; [|done].
  destruct (peek dat (off + 2)) as [b2|] eqn:H2; [|done].
  destruct (peek dat (off + 3)) as [b3|] eqn:H3; [|done].
  rewrite (peek_embedded pre dat post _ _ H0).
  replace (Z.of_nat (length pre) + off + 1)
    with (Z.of_nat (length pre) + (off + 1)) by lia.
  replace (Z.of_nat (length pre) + off + 2)
    with (Z.of_nat (length pre) + (off + 2)) by lia.
  replace (Z.of_nat (length pre) + off + 3)
    with (Z.of_nat (length pre) + (off + 3)) by lia.
  rewrite (peek_embedded pre dat post _ _ H1).
  rewrite (peek_embedded pre dat post _ _ H2).
  by rewrite (peek_embedded pre dat post _ _ H3).
Qed.

Lemma bytes_at_embedded pre dat post off len bs :
  bytes_at dat off len = Some bs →
  bytes_at (pre ++ dat ++ post) (Z.of_nat (length pre) + off) len = Some bs.
Proof.
  unfold bytes_at. destruct (Z.eqb_spec len 0); [done|].
  destruct (Z.ltb_spec 0 len); [|done].
  destruct (Z.leb_spec 0 off); [|done].
  destruct (Z.leb_spec (off + len) (Z.of_nat (length dat))); [|done].
  simpl. intros [= <-].
  destruct (Z.leb_spec 0 (Z.of_nat (length pre) + off)); [|lia].
  destruct (Z.leb_spec (Z.of_nat (length pre) + off + len)
              (Z.of_nat (length (pre ++ dat ++ post)))) as [_|Hgt].
  2:{ rewrite !length_app in Hgt. lia. }
  simpl. f_equal.
  replace (Z.to_nat (Z.of_nat (length pre) + off))
    with (length pre + Z.to_nat off)%nat by lia.
  rewrite drop_app_add, drop_app_le, take_app_le; [done| |lia].
  rewrite length_drop. lia.
Qed.

Lemma read_long_in_buffer pre dat post off :
  0 <= off → off + 4 <= Z.of_nat (length dat) →
  read_long (pre ++ dat ++ post) (Z.of_nat (length pre) + off) = read_long dat off.
Proof.
  intros H0 H4. destruct (read_long_Some dat off H0 H4) as [v Hv].
  rewrite Hv. by apply read_long_embedded.
Qed.

Lemma anchor_signature_embedded pre dat post o :
  anchor_signature dat o →
  anchor_signature (pre ++ dat ++ post) (Z.of_nat (length pre) + o).
Proof.
  intros (H0 & v & H4 & Hv). split; [by apply read_long_embedded|].
  exists v. split; [|done].
  replace (Z.of_nat (length pre) + o + 4) with (Z.of_nat (length pre) + (o + 4))
    by lia.
  by apply read_long_embedded.
Qed.

Lemma anchor_signature_in_buffer pre dat post o :
  0 <= o → o + 8 <= Z.of_nat (length dat) →
  anchor_signature (pre ++ dat ++ post) (Z.of_nat (length pre) + o) →
  anchor_signature dat o.
Proof.
  intros H0 H8 (Hr0 & v & Hr4 & Hv).
  rewrite read_long_in_buffer in Hr0 by lia.
  replace (Z.of_nat (length pre) + o + 4) with (Z.of_nat (length pre) + (o + 4))
    in Hr4 by lia.
  rewrite read_long_in_buffer in Hr4 by lia.
  split; [done|]. eauto.
Qed.

(** [findsong] on a buffer that lies inside a larger one: when the part
    before it has an even size and no signature at an even offset, the
    larger buffer gives the same offset table, further on by the size of
    that part, whatever follows the buffer. *)
Theorem findsong_in_larger_buffer (pre dat post : list byte) (offset : Z) :
  findsong dat (Z.of_nat (length dat)) = Some offset →
  0 <= offset →
  Z.even (Z.of_nat (length pre)) = true →
  (∀ o, 0 <= o < Z.of_nat (length pre) → Z.even o = true →
        ¬ anchor_signature (pre ++ dat ++ post) o) →
  findsong (pre ++ dat ++ post) (Z.of_nat (length (pre ++ dat ++ post)))
    = Some (Z.of_nat (length pre) + offset).
Proof.
  intros Hfind H0 Heven Hpre.
  destruct (findsong_spec dat) as (r & Hr & Hcases). cbv zeta in Hr.
  rewrite Hfind in Hr. injection Hr as <-.
  destruct Hcases as [[-> _]|(Hrange & Hev & Hsig & Hfirst)]; [lia|].
  destruct (findsong_spec (pre ++ dat ++ post)) as (r' & Hr' & Hcases').
  cbv zeta in Hr'. rewrite Hr'. f_equal.
  set (p := Z.of_nat (length pre)) in *.
  assert (Hlen : Z.of_nat (length (pre ++ dat ++ post))
                 = p + Z.of_nat (length dat) + Z.of_nat (length post)).
  { rewrite !length_app. unfold p. lia. }
  assert (Hsig' : anchor_signature (pre ++ dat ++ post) (p + offset))
    by by apply anchor_signature_embedded.
  assert (Hev' : Z.even (p + offset) = true)
    by by rewrite Z.even_add, Heven, Hev.
  destruct Hcases' as [[-> Hnone]|(Hrange' & Hevr & Hsigr & Hfirst')].
  - destruct (Hnone (p + offset)); [lia|done..].
  - destruct (Z_lt_ge_dec r' (p + offset)) as [Hlt|Hge].
    + destruct (Z_lt_ge_dec r' p) as [Hin|Hout].
      * destruct (Hpre r'); [lia|done..].
      * destruct (Hfirst (r' - p)); [lia| |].
        { rewrite Z.even_sub, Hevr, Heven. done. }
        apply (anchor_signature_in_buffer pre dat post); [lia..|].
        by replace (Z.of_nat (length pre) + (r' - p)) with r' by (unfold p; lia).
    + destruct (Z.eq_dec r' (p + offset)) as [->|Hne]; [done|].
      destruct (Hfirst' (p + offset)); [lia|done..].
Qed.

(** ** A module found further on in a larger buffer *)

Lemma add32_moved p offset r : add32 (p + offset) r = wrap32 (add32 offset r + p).
Proof. unfold add32. rewrite wrap32_add_l. f_equal. lia. Qed.

Lemma sub32_moved a b p : sub32 (wrap32 (a + p)) (wrap32 (b + p)) = sub32 a b.
Proof. rewrite sub32_wrap. unfold sub32. f_equal. lia. Qed.

(** An offset that lies in the buffer moves without wrapping. *)
Lemma wrap32_moved (pre dat post : list byte) o :
  Z.of_nat (length (pre ++ dat ++ post)) < 2 ^ 31 →
  0 <= o <= Z.of_nat (length dat) →
  wrap32 (o + Z.of_nat (length pre)) = Z.of_nat (length pre) + o.
Proof.
  intros Hsize Ho. rewrite !length_app in Hsize.
  rewrite wrap32_id by lia. lia.
Qed.

Lemma convert_layout_embedded pre dat post offset l :
  Z.of_nat (length (pre ++ dat ++ post)) < 2 ^ 31 →
  convert_layout dat offset = Some l →
  convert_layout (pre ++ dat ++ post) (Z.of_nat (length pre) + offset)
    = Some (move_layout (Z.of_nat (length pre)) l).
Proof.
  intros Hsize. unfold convert_layout. intros H.
  destruct (read_long dat offset) as [r0|] eqn:E0; [|done].
  destruct (read_long dat (offset + 4)) as [r1|] eqn:E1; [|done].
  destruct (read_long dat (offset + 8)) as [r2|] eqn:E2; [|done].
  destruct (read_long dat (offset + 12)) as [r3|] eqn:E3; [|done].
  destruct (read_long dat (offset + 16)) as [r4|] eqn:E4; [|done].
  destruct (read_long dat (offset + 20)) as [r5|] eqn:E5; [|done].
  destruct (read_long dat (offset + 24)) as [r6|] eqn:E6; [|done].
  destruct (read_long dat (offset + 28)) as [r7|] eqn:E7; [|done].
  simpl in H.
  destruct (read_long dat (add32 offset r7)) as [cnt|] eqn:Ec; [|done].
  simpl in H. injection H as <-.
  rewrite <- !Z.add_assoc.
  rewrite (read_long_embedded pre dat post _ _ E0),
    (read_long_embedded pre dat post _ _ E1),
    (read_long_embedded pre dat post _ _ E2),
    (read_long_embedded pre dat post _ _ E3),
    (read_long_embedded pre dat post _ _ E4),
    (read_long_embedded pre dat post _ _ E5),
    (read_long_embedded pre dat post _ _ E6),
    (read_long_embedded pre dat post _ _ E7).
  simpl. rewrite !add32_moved, !sub32_moved.
  assert (Hso : 0 <= add32 offset r7 <= Z.of_nat (length dat)).
  { unfold read_long in Ec.
    destruct (peek dat (add32 offset r7)) as [b|] eqn:Hb; [|done].
    apply peek_bounds in Hb. lia. }
  rewrite (wrap32_moved pre dat post _ Hsize Hso).
  rewrite (read_long_embedded pre dat post _ _ Ec). simpl.
  unfold move_layout. simpl.
  by rewrite (wrap32_moved pre dat post _ Hsize Hso).
Qed.

(** Two loops over the same indices whose bodies keep a relation between
    their states: when the first runs to its end, so does the second, and
    the final states are related. *)
Lemma for_each_sim {S1 S2 : Type} (body1 : Z → S1 → option S1)
    (body2 : Z → S2 → option S2) (R : S1 → S2 → Prop) idx :
  (∀ i s1 s2 t1, R s1 s2 → body1 i s1 = Some t1 →
                 ∃ t2, body2 i s2 = Some t2 ∧ R t1 t2) →
  ∀ s1 s2 t1, R s1 s2 → for_each body1 idx s1 = Some t1 →
              ∃ t2, for_each body2 idx s2 = Some t2 ∧ R t1 t2.
Proof.
  intros Hstep. induction idx as [|i idx IH]; intros s1 s2 t1 HR Hrun.
  - simpl in Hrun. injection Hrun as <-. exists s2. done.
  - rewrite for_each_cons in Hrun. rewrite for_each_cons.
    destruct (body1 i s1) as [u1|] eqn:H1; [|done]. simpl in Hrun.
    destruct (Hstep i s1 s2 u1 HR H1) as (u2 & -> & HR'). simpl.
    by apply (IH u1).
Qed.

Lemma convert_samples_embedded pre dat post l sample_len si0 :
  Z.of_nat (length (pre ++ dat ++ post)) < 2 ^ 31 →
  0 <= sample_offset l <= Z.of_nat (length dat) →
  convert_samples dat l = Some (sample_len, si0) →
  convert_samples (pre ++ dat ++ post) (move_layout (Z.of_nat (length pre)) l)
    = Some (sample_len, si0).
Proof.
  intros Hsize Hso. unfold convert_samples, for_range. simpl.
  rewrite (wrap32_moved pre dat post _ Hsize Hso). intros Hrun.
  destruct (for_each_sim (sample_step dat (sample_offset l))
              (sample_step (pre ++ dat ++ post)
                 (Z.of_nat (length pre) + sample_offset l)) eq
              (seqZ 0 (sample_cnt l))) with
    (s1 := (0, samples_info_init (sample_cnt l)))
    (s2 := (0, samples_info_init (sample_cnt l)))
    (t1 := (sample_len, si0)) as (t2 & Hrun' & <-); [|done|done|done].
  intros i [sl s] ? t1 <- Hstep. exists t1. split; [|done].
  unfold sample_step in *.
  destruct (read_long dat _) as [v|] eqn:Hv; [|done].
  replace (Z.of_nat (length pre) + sample_offset l + 4 + mul32 i 4)
    with (Z.of_nat (length pre) + (sample_offset l + 4 + mul32 i 4)) by lia.
  by rewrite (read_long_embedded pre dat post _ _ Hv).
Qed.

Lemma load_fmap (f : sample_info → sample_info) si i :
  load (f <$> si) i = f <$> load si i.
Proof. unfold load. destruct (0 <=? i); [|done]. apply list_lookup_fmap. Qed.

Lemma instr_step_other_kind dat n i off si out kind :
  read_ushort dat off = Some kind → kind ≠ 0 →
  instr_step dat n i (off, si, out) = Some (add32 off 0x98, si, out).
Proof.
  intros Hk Hne. unfold instr_step. rewrite Hk. simpl.
  by destruct (Z.eqb_spec kind 0).
Qed.

Lemma store_eq si i f e :
  load si i = Some e → store si i f = Some (<[Z.to_nat i := f e]> si).
Proof. intros He. unfold store. by rewrite He. Qed.

Lemma instr_step_joined dat n i off si out raw len rep e :
  read_ushort dat off = Some 0 →
  read_ushort dat (off + 2) = Some raw →
  0 <= wrap16 raw < n →
  read_ushort dat (off + 4) = Some len →
  read_ushort dat (off + 6) = Some rep →
  load si (wrap16 raw) = Some e →
  instr_step dat n i (off, si, out) =
    Some (add32 off 0x98,
          <[Z.to_nat (wrap16 raw) := join_entry e len rep off]> si, out).
Proof.
  intros Hk Hraw Hin Hlen Hrep He. unfold instr_step.
  rewrite Hk. simpl. rewrite Hraw. simpl.
  destruct (Z.leb_spec 0 (wrap16 raw)); [|lia].
  destruct (Z.ltb_spec (wrap16 raw) n); [|lia]. cbn [andb].
  rewrite Hlen. cbn [mbind option_bind].
  rewrite (store_eq _ _ _ _ He). cbn [mbind option_bind].
  rewrite Hrep. cbn [mbind option_bind].
  rewrite (store_eq _ _ _ _ (load_insert_eq _ _ _ _ He)).
  cbn [mbind option_bind]. rewrite list_insert_insert_eq.
  rewrite (store_eq _ _ _ _ (load_insert_eq _ _ _ _ He)).
  cbn [mbind option_bind]. by rewrite list_insert_insert_eq.
Qed.

Lemma move_join_entry p e len rep off :
  move_entry p (join_entry e len rep off)
    = join_entry (move_entry p e) len rep (p + off).
Proof. unfold move_entry, join_entry. simpl. do 2 f_equal. lia. Qed.

Lemma instr_step_embedded pre dat post n i off si out off2 si2 out2 :
  Z.of_nat (length (pre ++ dat ++ post)) < 2 ^ 31 →
  instr_step dat n i (off, si, out) = Some (off2, si2, out2) →
  instr_step (pre ++ dat ++ post) n i
    (wrap32 (off + Z.of_nat (length pre)),
     move_entry (Z.of_nat (length pre)) <$> si, out)
  = Some (wrap32 (off2 + Z.of_nat (length pre)),
          move_entry (Z.of_nat (length pre)) <$> si2, out2).
Proof.
  intros Hsize Hstep.
  apply instr_step_inv in Hstep as (-> & kind & Hk & Hcases).
  assert (Hoff : 0 <= off <= Z.of_nat (length dat)).
  { apply read_ushort_bounds in Hk. lia. }
  rewrite (wrap32_moved pre dat post _ Hsize Hoff).
  rewrite <- add32_moved.
  set (p := Z.of_nat (length pre)).
  pose proof (read_ushort_embedded pre dat post _ _ Hk) as Hk'. fold p in Hk'.
  destruct Hcases as [(Hne & -> & ->)|(-> & raw & Hraw & Hcases)].
  - by apply (instr_step_other_kind _ _ _ _ _ _ kind).
  - pose proof (read_ushort_embedded pre dat post _ _ Hraw) as Hraw'.
    fold p in Hraw'. rewrite Z.add_assoc in Hraw'.
    destruct Hcases as [(Hbad & -> & ->)|(Hin & -> & len & rep & e & Hlen & Hrep & He & ->)].
    + apply instr_step_bad. split; [done|]. exists raw. done.
    + pose proof (read_ushort_embedded pre dat post _ _ Hlen) as Hlen'.
      pose proof (read_ushort_embedded pre dat post _ _ Hrep) as Hrep'.
      fold p in Hlen', Hrep'. rewrite Z.add_assoc in Hlen', Hrep'.
      rewrite list_fmap_insert, move_join_entry.
      apply (instr_step_joined _ _ _ _ _ _ raw); try done.
      by rewrite load_fmap, He.
Qed.

Lemma convert_instr_embedded pre dat post l si si' out :
  Z.of_nat (length (pre ++ dat ++ post)) < 2 ^ 31 →
  convert_instr dat l si = Some (si', out) →
  convert_instr (pre ++ dat ++ post) (move_layout (Z.of_nat (length pre)) l)
    (move_entry (Z.of_nat (length pre)) <$> si)
  = Some (move_entry (Z.of_nat (length pre)) <$> si', out).
Proof.
  intros Hsize (off' & Hrun)%convert_instr_inv.
  unfold convert_instr, for_range in *. simpl.
  set (p := Z.of_nat (length pre)) in *.
  destruct (for_each_sim (instr_step dat (sample_cnt l))
              (instr_step (pre ++ dat ++ post) (sample_cnt l))
              (λ (st st' : instr_state),
                 st' = (wrap32 (st.1.1 + p), move_entry p <$> st.1.2, st.2))
              (seqZ 0 (instr_cnt l))) with
    (s1 := (instr_offset l, si, @nil message))
    (s2 := (wrap32 (instr_offset l + p), move_entry p <$> si, @nil message))
    (t1 := (off', si', out)) as (t2 & -> & ->); [|done|done|done].
  intros i [[off s] o] st2 [[off2 s2] o2] -> Hstep. simpl.
  eexists. split; [|done]. by apply instr_step_embedded.
Qed.

Lemma Forall2_chunks_functional {A B : Type} (g : A → option B) es c1 c2 :
  Forall2 (λ e c, g e = Some c) es c1 →
  Forall2 (λ e c, g e = Some c) es c2 → c1 = c2.
Proof.
  intros H1. revert c2. induction H1 as [|e c es cs Hc _ IH]; intros c2 H2.
  - by inversion H2.
  - inversion H2 as [|? c' ? cs' Hc' H2']; subst. f_equal; [congruence|].
    by apply IH.
Qed.

(** One of the four arrays, from the chunks of its entries. *)
Lemma write_array_intro (g : sample_info → option (list byte)) si cnt f chunks :
  Z.max 0 cnt <= Z.of_nat (length si) →
  Forall2 (λ e c, g e = Some c) (take (Z.to_nat (Z.max 0 cnt)) si) chunks →
  for_range cnt (λ i f, e ← load si i; fwrite (g e) f) f
    = Some (f ++ concat chunks).
Proof.
  intros Hle HF.
  destruct (write_array_total g si cnt f) as [f' Hrun].
  { intros i Hi. destruct (load_in_range si i) as [e He]; [lia|].
    pose proof He as [_ Hl]%load_Some.
    assert (Hl' : take (Z.to_nat (Z.max 0 cnt)) si !! Z.to_nat i = Some e)
      by (rewrite lookup_take_lt by lia; done).
    destruct (Forall2_lookup_l _ _ _ _ _ HF Hl') as (c & _ & Hc). eauto. }
  rewrite Hrun. destruct (write_array g si cnt f f' Hrun) as (_ & chunks' & HF' & ->).
  by rewrite (Forall2_chunks_functional g _ _ _ HF HF').
Qed.

Lemma Forall2_total_map {A B : Type} (h : A → B) (es : list A) :
  Forall2 (λ e c, Some (h e) = Some c) es (map h es).
Proof. induction es; constructor; done. Qed.

(** The file that the writer leaves, from the bytes it copies: the converse
    of [convert_write_inv]. *)
Lemma convert_write_intro dat l si sample_len
    song over note instr names payload wave adsr amf :
  bytes_at dat (song_offset l) (song_len l) = Some song →
  bytes_at dat (over_offset l) (over_len l) = Some over →
  bytes_at dat (note_offset l) (note_len l) = Some note →
  bytes_at dat (instr_offset l) (instr_len l) = Some instr →
  Z.max 0 (sample_cnt l) <= Z.of_nat (length si) →
  Forall2 (λ e c, name_bytes dat e = Some c) (written_entries l si) names →
  bytes_at dat (sample_offset l + 4 + mul32 (sample_cnt l) 4) sample_len
    = Some payload →
  bytes_at dat (wave_offset l) (wave_len l) = Some wave →
  bytes_at dat (adsr_offset l) (adsr_len l) = Some adsr →
  bytes_at dat (amf_offset l) (amf_len l) = Some amf →
  convert_write dat l si sample_len =
    Some (SOAR_ID ++
          table_section STBL_ID (song_cnt l) song ++
          table_section OVTB_ID (over_cnt l) over ++
          table_section NTBL_ID (note_cnt l) note ++
          table_section INST_ID (instr_cnt l) instr ++
          sample_section (sample_cnt l) (written_entries l si) names payload ++
          table_section SYWT_ID (wave_cnt l) wave ++
          table_section SYAR_ID (adsr_cnt l) adsr ++
          table_section SYAF_ID (amf_cnt l) amf ++
          EDAT_ID ++ EDAT_DATA).
Proof.
  intros Hsong Hover Hnote Hinstr Hle Hnames Hpay Hwave Hadsr Hamf.
  unfold convert_write.
  rewrite Hsong, Hover, Hnote, Hinstr, Hwave, Hadsr, Hamf, Hpay.
  cbn [fwrite mbind option_bind].
  rewrite (write_array_intro (λ e, Some (long_bytes (length_from_instr e)))
             si _ _ _ Hle (Forall2_total_map _ _)).
  cbn [mbind option_bind].
  rewrite (write_array_intro (λ e, Some (long_bytes (repeat_from_instr e)))
             si _ _ _ Hle (Forall2_total_map _ _)).
  cbn [mbind option_bind].
  rewrite (write_array_intro (name_bytes dat) si _ _ _ Hle Hnames).
  cbn [mbind option_bind].
  rewrite (write_array_intro (λ e, Some (long_bytes (si_length e)))
             si _ _ _ Hle (Forall2_total_map _ _)).
  cbn [mbind option_bind]. f_equal.
  unfold table_section, sample_section, written_entries.
  rewrite !flat_map_concat_map, <- !app_assoc. reflexivity.
Qed.

Lemma bytes_at_moved pre dat post o len bs :
  Z.of_nat (length (pre ++ dat ++ post)) < 2 ^ 31 →
  bytes_at dat o len = Some bs →
  bytes_at (pre ++ dat ++ post) (wrap32 (o + Z.of_nat (length pre))) len
    = Some bs.
Proof.
  intros Hsize H. destruct (Z.eq_dec len 0) as [->|Hne].
  - unfold bytes_at in *. by simpl in *.
  - assert (Ho : 0 <= o <= Z.of_nat (length dat)).
    { unfold bytes_at in H. destruct (Z.eqb_spec len 0); [done|].
      destruct (Z.ltb_spec 0 len); [|done].
      destruct (Z.leb_spec 0 o); [|done].
      destruct (Z.leb_spec (o + len) (Z.of_nat (length dat))); [|done]. lia. }
    rewrite (wrap32_moved pre dat post _ Hsize Ho).
    by apply bytes_at_embedded.
Qed.

Lemma name_bytes_moved pre dat post e c :
  name_bytes dat e = Some c →
  name_bytes (pre ++ dat ++ post) (move_entry (Z.of_nat (length pre)) e) = Some c.
Proof.
  unfold name_bytes. simpl.
  destruct (name_from_instr e) as [q|]; [|done]. simpl. intros H.
  rewrite Z.add_comm. by apply bytes_at_embedded.
Qed.

Lemma flat_map_moved (h : sample_info → Z) p es :
  (∀ e, h (move_entry p e) = h e) →
  flat_map (λ e, long_bytes (h e)) (move_entry p <$> es)
    = flat_map (λ e, long_bytes (h e)) es.
Proof.
  intros Hh. induction es as [|e es IH]; [done|].
  rewrite fmap_cons. cbn [flat_map]. by rewrite Hh, IH.
Qed.

(** The file that [convert] writes depends on the module only, not on
    where the module lies in the input nor on what surrounds it: when
    [convert] writes the file [f] for a buffer, it writes the same file
    for every buffer, of a size that a [long] holds, that has this buffer
    inside it and in which [findsong] finds the same offset table. *)
Theorem convert_in_larger_buffer
    (e : env) (pre dat post : list byte) (read_len read_len' offset : Z)
    (r : result) (f : list byte) :
  convert e dat read_len = Some r →
  f_out r = Some f →
  findsong dat (Z.of_nat (length dat)) = Some offset →
  findsong (pre ++ dat ++ post) (Z.of_nat (length (pre ++ dat ++ post)))
    = Some (Z.of_nat (length pre) + offset) →
  Z.of_nat (length (pre ++ dat ++ post)) < 2 ^ 31 →
  ∃ r', convert e (pre ++ dat ++ post) read_len' = Some r' ∧
        f_out r' = Some f.
Proof.
  intros Hrun Hf Hfind Hfind' Hsize.
  destruct (convert_inv e dat read_len r f Hrun Hf)
    as (offset0 & l & sample_len & si0 & si & printed &
        Hfind0 & H0 & Hlay & Hmalloc & Hsamp & Hinstr & Hopen & Hw).
  rewrite Hfind in Hfind0. injection Hfind0 as <-.
  set (p := Z.of_nat (length pre)) in *.
  pose proof (convert_layout_embedded pre dat post offset l Hsize Hlay) as Hlay'.
  assert (Hso : 0 <= sample_offset l <= Z.of_nat (length dat)).
  { destruct (convert_layout_inv _ _ _ Hlay)
      as (? & ? & ? & ? & ? & ? & ? & ? & _ & _ & _ & _ & Hcnt).
    unfold read_long in Hcnt.
    destruct (peek dat (sample_offset l)) as [b|] eqn:Hb; [|done].
    apply peek_bounds in Hb. lia. }
  pose proof (convert_samples_embedded pre dat post l _ _ Hsize Hso Hsamp)
    as Hsamp'.
  pose proof (convert_instr_embedded pre dat post l _ _ _ Hsize Hinstr)
    as Hinstr'.
  fold p in Hlay', Hsamp', Hinstr'.
  assert (Hunmoved : move_entry p <$> si0 = si0).
  { destruct (convert_samples_spec _ _ _ _ Hsamp) as (_ & _ & _ & Hun & _).
    rewrite <- (list_fmap_id si0) at 2. apply Forall_fmap_ext_1.
    eapply Forall_impl; [exact Hun|]. intros [a b c d] (_ & _ & Hd).
    simpl in *. subst d. done. }
  rewrite Hunmoved in Hinstr'.
  destruct (convert_write_inv dat l si sample_len f Hw)
    as (song & over & note & instr & names & payload & wave & adsr & amf &
        Hsong & Hover & Hnote & Hins & Hle & Hnames & Hpay & Hwave & Hadsr &
        Hamf & ->).
  assert (Hw' : convert_write (pre ++ dat ++ post) (move_layout p l)
                  (move_entry p <$> si) sample_len
                = Some (SOAR_ID ++
                    table_section STBL_ID (song_cnt l) song ++
                    table_section OVTB_ID (over_cnt l) over ++
                    table_section NTBL_ID (note_cnt l) note ++
                    table_section INST_ID (instr_cnt l) instr ++
                    sample_section (sample_cnt l) (written_entries l si)
                      names payload ++
                    table_section SYWT_ID (wave_cnt l) wave ++
                    table_section SYAR_ID (adsr_cnt l) adsr ++
                    table_section SYAF_ID (amf_cnt l) amf ++
                    EDAT_ID ++ EDAT_DATA)).
  { assert (Hentries : written_entries (move_layout p l) (move_entry p <$> si)
                       = move_entry p <$> written_entries l si).
    { unfold written_entries. simpl. by rewrite fmap_take. }
    rewrite (convert_write_intro (pre ++ dat ++ post) (move_layout p l)
               (move_entry p <$> si) sample_len
               song over note instr names payload wave adsr amf).
    - f_equal. simpl. rewrite Hentries. unfold sample_section.
      by rewrite !flat_map_moved by done.
    - by apply bytes_at_moved.
    - by apply bytes_at_moved.
    - by apply bytes_at_moved.
    - by apply bytes_at_moved.
    - simpl. by rewrite length_fmap.
    - rewrite Hentries. apply Forall2_fmap_l.
      eapply Forall2_impl; [exact Hnames|]. simpl. intros x y Hxy.
      by apply name_bytes_moved.
    - change (sample_offset (move_layout p l))
        with (wrap32 (sample_offset l + Z.of_nat (length pre))).
      change (sample_cnt (move_layout p l)) with (sample_cnt l).
      rewrite (wrap32_moved pre dat post _ Hsize Hso).
      replace (Z.of_nat (length pre) + sample_offset l + 4 + mul32 (sample_cnt l) 4)
        with (Z.of_nat (length pre) + (sample_offset l + 4 + mul32 (sample_cnt l) 4))
        by lia.
      by apply bytes_at_embedded.
    - by apply bytes_at_moved.
    - by apply bytes_at_moved.
    - by apply bytes_at_moved. }
  assert (Hguard : (0 <=? p + offset)
                   && (p + offset <? Z.of_nat (length (pre ++ dat ++ post)) - 28)
                   = true).
  { destruct (findsong_guard _ _ Hfind') as [[_ Hm]|[Hg _]]; [|done].
    unfold p in Hm. lia. }
  unfold convert. cbv zeta. rewrite Hfind'. cbn [mbind option_bind].
  fold p. rewrite Hguard, Hlay'. cbn [mbind option_bind].
  change (sample_cnt (move_layout p l)) with (sample_cnt l).
  rewrite Hmalloc, Hsamp'. cbn [mbind option_bind].
  rewrite Hinstr'. cbn [mbind option_bind]. rewrite Hopen, Hw'.
  cbn [mbind option_bind]. eexists. split; [done|]. done.
Qed.

(** ** What a written file tells about the input *)

Lemma bytes_at_pos dat off len bs :
  bytes_at dat off len = Some bs → 0 < len →
  0 <= off ∧ off + len <= Z.of_nat (length dat) ∧
  bs = take (Z.to_nat len) (drop (Z.to_nat off) dat).
Proof.
  unfold bytes_at. intros H Hlen. destruct (Z.eqb_spec len 0); [lia|].
  destruct (Z.ltb_spec 0 len); [|lia].
  destruct (Z.leb_spec 0 off); [|done].
  destruct (Z.leb_spec (off + len) (Z.of_nat (length dat))); [|done].
  simpl in H. injection H as <-. done.
Qed.

(** Two reads that follow each other are one read. *)
Lemma bytes_at_app dat off a b x y :
  bytes_at dat off a = Some x →
  bytes_at dat (off + a) b = Some y →
  bytes_at dat off (a + b) = Some (x ++ y).
Proof.
  intros Ha Hb.
  destruct (bytes_at_length _ _ _ _ Ha) as [Ha0 _].
  destruct (bytes_at_length _ _ _ _ Hb) as [Hb0 _].
  destruct (Z.eq_dec a 0) as [->|Hna].
  { unfold bytes_at in Ha. simpl in Ha. injection Ha as <-.
    by rewrite Z.add_0_r in Hb. }
  destruct (Z.eq_dec b 0) as [->|Hnb].
  { unfold bytes_at in Hb. simpl in Hb. injection Hb as <-.
    by rewrite Z.add_0_r, app_nil_r. }
  destruct (bytes_at_pos _ _ _ _ Ha) as (Ho & Hend & ->); [lia|].
  destruct (bytes_at_pos _ _ _ _ Hb) as (Ho' & Hend' & ->); [lia|].
  unfold bytes_at. destruct (Z.eqb_spec (a + b) 0); [lia|].
  destruct (Z.ltb_spec 0 (a + b)); [|lia].
  destruct (Z.leb_spec 0 off); [|lia].
  destruct (Z.leb_spec (off + (a + b)) (Z.of_nat (length dat))); [|lia].
  simpl. f_equal.
  rewrite (Z2Nat.inj_add off a), (Z2Nat.inj_add a b) by lia.
  rewrite <- take_take_drop, drop_drop. done.
Qed.

(** A section that the writer could copy ends where the next one starts. *)
Lemma section_next dat off next len bs :
  Z.of_nat (length dat) < 2 ^ 31 →
  in_long off → in_long next →
  len = sub32 next off →
  bytes_at dat off len = Some bs →
  next = off + len ∧ 0 <= len.
Proof.
  unfold in_long, sub32. intros Hsize Ho Hn -> Hb.
  destruct (bytes_at_length _ _ _ _ Hb) as [H0 _].
  destruct (wrap32_multiple (next - off)) as [k Hk].
  pose proof (wrap32_range (next - off)).
  destruct (Z.eq_dec (wrap32 (next - off)) 0) as [Hz|Hnz]; [lia|].
  destruct (bytes_at_pos _ _ _ _ Hb) as (Hoff & Hend & _); lia.
Qed.

Lemma convert_layout_offsets_in_long dat offset l :
  convert_layout dat offset = Some l →
  in_long (song_offset l) ∧ in_long (over_offset l) ∧
  in_long (note_offset l) ∧ in_long (instr_offset l) ∧
  in_long (wave_offset l) ∧ in_long (adsr_offset l) ∧
  in_long (amf_offset l) ∧ in_long (sample_offset l).
Proof.
  intros Hlay. destruct (convert_layout_inv _ _ _ Hlay)
    as (r0 & r1 & r2 & r3 & r4 & r5 & r6 & r7 & _ & Hoff & _).
  destruct Hoff as (-> & -> & -> & -> & -> & -> & -> & ->).
  unfold in_long, add32. repeat split; apply wrap32_range.
Qed.

(** A run that writes the file had the eight offsets of its table in
    order, and the seven tables it copied, each with a length that is not
    negative, are one block of the input without gaps, from the song
    table to the sample section: the writer only puts the tags and the
    counts between them. *)
Theorem written_tables_contiguous
    (dat : list byte) (offset : Z) (l : layout) (si : list sample_info)
    (sample_len : Z) (f : list byte) :
  Z.of_nat (length dat) < 2 ^ 31 →
  convert_layout dat offset = Some l →
  convert_write dat l si sample_len = Some f →
  (over_offset l = song_offset l + song_len l ∧ 0 <= song_len l) ∧
  (note_offset l = over_offset l + over_len l ∧ 0 <= over_len l) ∧
  (instr_offset l = note_offset l + note_len l ∧ 0 <= note_len l) ∧
  (wave_offset l = instr_offset l + instr_len l ∧ 0 <= instr_len l) ∧
  (adsr_offset l = wave_offset l + wave_len l ∧ 0 <= wave_len l) ∧
  (amf_offset l = adsr_offset l + adsr_len l ∧ 0 <= adsr_len l) ∧
  (sample_offset l = amf_offset l + amf_len l ∧ 0 <= amf_len l) ∧
  ∃ song over note instr wave adsr amf,
    bytes_at dat (song_offset l) (song_len l) = Some song ∧
    bytes_at dat (over_offset l) (over_len l) = Some over ∧
    bytes_at dat (note_offset l) (note_len l) = Some note ∧
    bytes_at dat (instr_offset l) (instr_len l) = Some instr ∧
    bytes_at dat (wave_offset l) (wave_len l) = Some wave ∧
    bytes_at dat (adsr_offset l) (adsr_len l) = Some adsr ∧
    bytes_at dat (amf_offset l) (amf_len l) = Some amf ∧
    bytes_at dat (song_offset l) (sample_offset l - song_offset l)
      = Some (song ++ over ++ note ++ instr ++ wave ++ adsr ++ amf).
Proof.
  intros Hsize Hlay Hw.
  destruct (convert_layout_offsets_in_long _ _ _ Hlay)
    as (I0 & I1 & I2 & I3 & I4 & I5 & I6 & I7).
  destruct (convert_layout_inv _ _ _ Hlay)
    as (r0 & r1 & r2 & r3 & r4 & r5 & r6 & r7 & _ & _ & Hlen & _).
  destruct Hlen as (L0 & L1 & L2 & L3 & L4 & L5 & L6).
  destruct (convert_write_inv dat l si sample_len f Hw)
    as (song & over & note & instr & names & payload & wave & adsr & amf &
        Hsong & Hover & Hnote & Hins & _ & _ & _ & Hwave & Hadsr & Hamf & _).
  pose proof (section_next _ _ _ _ _ Hsize I0 I1 L0 Hsong) as N0.
  pose proof (section_next _ _ _ _ _ Hsize I1 I2 L1 Hover) as N1.
  pose proof (section_next _ _ _ _ _ Hsize I2 I3 L2 Hnote) as N2.
  pose proof (section_next _ _ _ _ _ Hsize I3 I4 L3 Hins) as N3.
  pose proof (section_next _ _ _ _ _ Hsize I4 I5 L4 Hwave) as N4.
  pose proof (section_next _ _ _ _ _ Hsize I5 I6 L5 Hadsr) as N5.
  pose proof (section_next _ _ _ _ _ Hsize I6 I7 L6 Hamf) as N6.
  do 7 (split; [done|]).
  exists song, over, note, instr, wave, adsr, amf.
  do 7 (split; [done|]).
  destruct N0 as [E0 _], N1 as [E1 _], N2 as [E2 _], N3 as [E3 _],
    N4 as [E4 _], N5 as [E5 _], N6 as [E6 _].
  rewrite E5 in Hamf. pose proof (bytes_at_app _ _ _ _ _ _ Hadsr Hamf) as H5.
  rewrite E4 in H5. pose proof (bytes_at_app _ _ _ _ _ _ Hwave H5) as H4.
  rewrite E3 in H4. pose proof (bytes_at_app _ _ _ _ _ _ Hins H4) as H3.
  rewrite E2 in H3. pose proof (bytes_at_app _ _ _ _ _ _ Hnote H3) as H2.
  rewrite E1 in H2. pose proof (bytes_at_app _ _ _ _ _ _ Hover H2) as H1.
  rewrite E0 in H1. pose proof (bytes_at_app _ _ _ _ _ _ Hsong H1) as H0.
  rewrite <- H0. f_equal. lia.
Qed.

(** The four bytes that a read of a [long] goes through are the bytes that
    writing the value read puts into the file. *)
Lemma read_long_bytes dat off v :
  read_long dat off = Some v → bytes_at dat off 4 = Some (long_bytes v).
Proof.
  unfold read_long. intros H.
  destruct (peek dat off) as [z0|] eqn:H0; [|done].
  destruct (peek dat (off + 1)) as [z1|] eqn:H1; [|done].
  destruct (peek dat (off + 2)) as [z2|] eqn:H2; [|done].
  destruct (peek dat (off + 3)) as [z3|] eqn:H3; [|done].
  simpl in H. injection H as <-.
  pose proof (peek_bounds _ _ _ H0). pose proof (peek_bounds _ _ _ H3).
  unfold peek in H0, H1, H2, H3.
  destruct (Z.leb_spec 0 off); [|lia].
  destruct (Z.leb_spec 0 (off + 1)); [|lia].
  destruct (Z.leb_spec 0 (off + 2)); [|lia].
  destruct (Z.leb_spec 0 (off + 3)); [|lia].
  destruct (dat !! Z.to_nat off) as [b0|] eqn:G0; [|done].
  destruct (dat !! Z.to_nat (off + 1)) as [b1|] eqn:G1; [|done].
  destruct (dat !! Z.to_nat (off + 2)) as [b2|] eqn:G2; [|done].
  destruct (dat !! Z.to_nat (off + 3)) as [b3|] eqn:G3; [|done].
  simpl in H0, H1, H2, H3.
  injection H0 as <-. injection H1 as <-. injection H2 as <-.
  injection H3 as <-.
  rewrite long_bytes_wrap. unfold bytes_at.
  destruct (Z.leb_spec (off + 4) (Z.of_nat (length dat))); [|lia].
  destruct (Z.leb_spec 0 off); [|lia]. simpl. f_equal.
  apply list_eq. intros i.
  destruct (decide (i < 4)%nat) as [Hi|Hi].
  - rewrite lookup_take_lt, lookup_drop by (simpl; lia).
    destruct i as [|[|[|[|i]]]]; [| | | |lia]; simpl.
    + by rewrite Nat.add_0_r.
    + by replace (Z.to_nat off + 1)%nat with (Z.to_nat (off + 1)) by lia.
    + by replace (Z.to_nat off + 2)%nat with (Z.to_nat (off + 2)) by lia.
    + by replace (Z.to_nat off + 3)%nat with (Z.to_nat (off + 3)) by lia.
  - rewrite lookup_take_ge by (simpl; lia).
    symmetry. apply lookup_ge_None. simpl. lia.
Qed.

(** The byte lengths stored in the first entries of the array are the
    list of lengths of the input. *)
Lemma lengths_verbatim dat o si (n : nat) :
  (n <= length si)%nat →
  (∀ i, 0 <= i < Z.of_nat n →
        ∃ v, read_long dat (o + 4 * i) = Some v ∧
             si_length <$> load si i = Some v) →
  bytes_at dat o (4 * Z.of_nat n)
    = Some (flat_map (λ e, long_bytes (si_length e)) (take n si)).
Proof.
  induction n as [|n IH]; intros Hn Hread; [done|].
  destruct (Hread (Z.of_nat n)) as (v & Hv & Hload); [lia|].
  destruct (load si (Z.of_nat n)) as [e|] eqn:He; [|done].
  simpl in Hload. injection Hload as <-.
  apply load_Some in He as [_ He]. rewrite Nat2Z.id in He.
  rewrite (take_S_r _ _ _ He), flat_map_app. cbn [flat_map].
  rewrite app_nil_r.
  replace (4 * Z.of_nat (S n)) with (4 * Z.of_nat n + 4) by lia.
  apply bytes_at_app.
  - apply IH; [lia|]. intros i Hi. apply Hread. lia.
  - by apply read_long_bytes.
Qed.

(** The end of the sample section of the written file is a copy of the
    input: the sample count is the [long] at the sample offset, and the
    array of byte lengths followed by the sample data is the block of the
    input that starts right after this count, byte for byte. *)
Theorem sample_tail_verbatim
    (dat : list byte) (offset : Z) (l : layout) (sample_len : Z)
    (si0 si : list sample_info) (out : list message) (payload : list byte) :
  convert_layout dat offset = Some l →
  convert_samples dat l = Some (sample_len, si0) →
  convert_instr dat l si0 = Some (si, out) →
  0 <= sample_cnt l →
  bytes_at dat (sample_offset l + 4 + mul32 (sample_cnt l) 4) sample_len
    = Some payload →
  bytes_at dat (sample_offset l) 4 = Some (long_bytes (sample_cnt l)) ∧
  bytes_at dat (sample_offset l + 4) (4 * sample_cnt l + sample_len)
    = Some (flat_map (λ e, long_bytes (si_length e)) (written_entries l si)
            ++ payload).
Proof.
  intros Hlay Hsamp Hinstr Hcnt Hpay.
  pose proof (convert_layout_in_long _ _ _ Hlay) as Hoff.
  destruct (convert_layout_inv _ _ _ Hlay)
    as (r0 & r1 & r2 & r3 & r4 & r5 & r6 & r7 & _ & _ & _ & _ & Hread).
  split; [by apply read_long_bytes|].
  destruct (convert_samples_length _ _ _ _ Hsamp Hcnt) as [Hlen Hsmall].
  destruct (convert_samples_spec _ _ _ _ Hsamp) as (_ & _ & _ & _ & Hlist).
  cbv zeta in Hlist. rewrite Z.max_r in Hlist by lia.
  assert (Hmul : ∀ i, 0 <= i <= sample_cnt l → mul32 i 4 = 4 * i).
  { intros i Hi. unfold mul32. rewrite wrap32_id by lia. lia. }
  rewrite Hmul in Hpay by lia.
  unfold written_entries. rewrite Z.max_r by lia.
  replace (4 * sample_cnt l) with (4 * Z.of_nat (Z.to_nat (sample_cnt l)))
    by lia.
  apply bytes_at_app.
  - apply lengths_verbatim.
    + destruct (convert_instr_length dat l si0 si out 0 Hoff Hinstr) as [Hl _].
      lia.
    + intros i Hi. destruct (Hlist i) as (v & Hv & Hload); [lia|].
      exists v. rewrite Hmul in Hv by lia.
      split; [done|].
      destruct (convert_instr_length dat l si0 si out i Hoff Hinstr) as [_ Hs].
      congruence.
  - replace (sample_offset l + 4 + 4 * Z.of_nat (Z.to_nat (sample_cnt l)))
      with (sample_offset l + 4 + 4 * sample_cnt l) by lia.
    done.
Qed.

(** ** How many samples a converted module can have *)

Lemma ref_index_spec dat n off k :
  ref_index dat n off = Some k ↔ sampled_ref dat n off k.
Proof.
  unfold ref_index, sampled_ref. split.
  - destruct (read_ushort dat off) as [kind|]; [|done]. simpl.
    destruct (Z.eqb_spec kind 0) as [->|]; [|done].
    destruct (read_ushort dat (off + 2)) as [raw|]; [|done]. simpl.
    destruct (Z.leb_spec 0 (wrap16 raw)); [|done].
    destruct (Z.ltb_spec (wrap16 raw) n); [|done]. simpl.
    intros [= <-]. split; [done|]. exists raw. split; [done|]. split; [done|lia].
  - intros (-> & raw & -> & <- & Hk). simpl.
    destruct (Z.leb_spec 0 (wrap16 raw)); [|lia].
    destruct (Z.ltb_spec (wrap16 raw) n); [done|lia].
Qed.

Lemma length_omap_le {A B : Type} (g : A → option B) (xs : list A) :
  (length (omap g xs) <= length xs)%nat.
Proof.
  induction xs as [|x xs IH]; [done|].
  change (omap g (x :: xs))
    with (match g x with Some y => y :: omap g xs | None => omap g xs end).
  destruct (g x); simpl; lia.
Qed.

(** In a run that writes the file a sampled instrument refers to every
    sample. *)
Lemma converted_all_referenced e dat read_len r f :
  convert e dat read_len = Some r → f_out r = Some f →
  ∃ offset l,
    findsong dat (Z.of_nat (length dat)) = Some offset ∧
    convert_layout dat offset = Some l ∧
    ∀ k, 0 <= k < sample_cnt l →
      ∃ j, 0 <= j < instr_cnt l ∧
           sampled_ref dat (sample_cnt l) (instr_offset l + 152 * j) k.
Proof.
  intros Hrun Hf.
  destruct (convert_inv e dat read_len r f Hrun Hf)
    as (offset & l & sample_len & si0 & si & printed &
        Hfind & _ & Hlay & _ & Hsamp & Hinstr & _ & Hw).
  exists offset, l. split; [done|]. split; [done|]. intros k Hk.
  pose proof (convert_layout_in_long _ _ _ Hlay) as Hoff.
  destruct (convert_instr_changed dat l si0 si printed k Hoff Hinstr)
    as [Hsame|Href]; [|done].
  destruct (convert_samples_unjoined _ _ _ _ k Hsamp Hk) as (e0 & He0 & _ & _ & Hn).
  destruct (convert_write_names _ _ _ _ _ k Hw Hk) as (e1 & name & He1 & Hname).
  rewrite Hsame, He0 in He1. injection He1 as <-.
  by rewrite (name_bytes_null _ _ Hn) in Hname.
Qed.

(** The module of a run that writes the file has at most 2^15 samples and
    at least as many instrument records as samples: the writer needs a
    name for every sample, a record gives its name to one sample only, and
    the sample index of a record is a [short]. *)
Theorem converted_sample_count_bounds
    (e : env) (dat : list byte) (read_len : Z) (r : result) (f : list byte) :
  convert e dat read_len = Some r →
  f_out r = Some f →
  ∃ offset l,
    findsong dat (Z.of_nat (length dat)) = Some offset ∧
    convert_layout dat offset = Some l ∧
    sample_cnt l <= 2 ^ 15 ∧
    (0 < sample_cnt l → sample_cnt l <= instr_cnt l).
Proof.
  intros Hrun Hf.
  destruct (converted_all_referenced e dat read_len r f Hrun Hf)
    as (offset & l & Hfind & Hlay & Hrefs).
  exists offset, l. split; [done|]. split; [done|]. split.
  - destruct (Z_le_gt_dec (sample_cnt l) 0) as [Hle|Hpos]; [lia|].
    destruct (Hrefs (sample_cnt l - 1)) as (j & _ & _ & raw & _ & Hraw & _);
      [lia|].
    unfold wrap16 in Hraw.
    pose proof (Z.mod_pos_bound (raw + 2 ^ 15) (2 ^ 16)). lia.
  - intros Hpos.
    set (g := λ j, ref_index dat (sample_cnt l) (instr_offset l + 152 * j)).
    assert (Hsub : seqZ 0 (sample_cnt l) ⊆+ omap g (seqZ 0 (instr_cnt l))).
    { apply NoDup_submseteq; [apply NoDup_seqZ|]. intros k Hk%elem_of_seqZ.
      destruct (Hrefs k) as (j & Hj & Href); [lia|].
      apply list_elem_of_omap. exists j. split; [apply elem_of_seqZ; lia|].
      by apply ref_index_spec. }
    apply submseteq_length in Hsub.
    pose proof (length_omap_le g (seqZ 0 (instr_cnt l))) as Hle.
    rewrite !length_seqZ in *. lia.
Qed.

(** ** Runs on the sample buffers, continued *)

Lemma instr_lines_exact_witness :
  convert_instr buf_bad_id (packed_layout 2 1) [set_length 3 zero_info]
    = Some ([join_entry (set_length 3 zero_info) 8 6 224],
            [Inconsistent_sample_id 5 0]) ∧
  [Inconsistent_sample_id 5 0]
    = omap (λ j, inconsistency buf_bad_id 1 (72 + 152 * j) j) (seqZ 0 2) ∧
  ∀ m, m ∈ [Inconsistent_sample_id 5 0] ↔
    ∃ j id, m = Inconsistent_sample_id id j ∧ 0 <= j < 2 ∧
            sampled_bad buf_bad_id 1 (72 + 152 * j) id.
Proof.
  assert (Hin : in_long (instr_offset (packed_layout 2 1)))
    by (vm_compute; split; [discriminate|reflexivity]).
  assert (Hrun : convert_instr buf_bad_id (packed_layout 2 1)
                   [set_length 3 zero_info]
                 = Some ([join_entry (set_length 3 zero_info) 8 6 224],
                         [Inconsistent_sample_id 5 0]))
    by (by_evaluation).
  split; [exact Hrun|].
  exact (instr_lines_exact buf_bad_id (packed_layout 2 1) _ _ _ Hin Hrun).
Defined.

Lemma convert_outcome_witness :
  ∃ res, convert env_ok buf_one 235 = Some res ∧
    ∃ body final,
      stdout res = body ++ [final] ∧
      Forall (λ m, is_outcome m = false) body ∧
      ((final = Conversion_written ∧ is_Some (f_out res) ∧
        fopen_out_ok env_ok = true)
       ∨ (final = Cannot_open_file ∧ f_out res = None ∧
          fopen_out_ok env_ok = false)
       ∨ (final = Cannot_allocate_memory ∧ f_out res = None ∧
          ∃ offset l,
            findsong buf_one (Z.of_nat (length buf_one)) = Some offset ∧
            convert_layout buf_one offset = Some l ∧
            malloc_ok env_ok (samples_info_size (sample_cnt l)) = false)
       ∨ (final = Song_not_found ∧ f_out res = None ∧
          findsong buf_one (Z.of_nat (length buf_one)) = Some (-1))).
Proof.
  destruct (convert env_ok buf_one 235) as [res|] eqn:Hrun;
    [|vm_compute in Hrun; discriminate].
  exists res. split; [reflexivity|].
  exact (convert_outcome env_ok buf_one 235 res Hrun).
Defined.

Lemma convert_short_input_witness :
  Z.of_nat (length (zeros 40)) <= 0x28 ∧
  findsong (zeros 40) (Z.of_nat (length (zeros 40))) = Some (-1) ∧
  convert env_ok (zeros 40) 40 =
    Some {| stdout := [Source_size 40; Read_bytes 40; Song_not_found];
            f_out := None |}.
Proof.
  assert (Hlen : Z.of_nat (length (zeros 40)) <= 0x28) by (vm_compute; discriminate).
  split; [exact Hlen|].
  exact (convert_short_input env_ok (zeros 40) 40 Hlen).
Defined.

Lemma located_table_in_buffer_witness :
  findsong buf_one (Z.of_nat (length buf_one)) = Some 0 ∧
  (0 <=? 0) && (0 <? Z.of_nat (length buf_one) - 28) = true ∧
  0 <= 0 ∧ 0 + 0x28 < Z.of_nat (length buf_one) ∧
  ∀ k, 0 <= k < 8 → ∃ v, read_long buf_one (0 + 4 * k) = Some v.
Proof.
  assert (Hfind : findsong buf_one (Z.of_nat (length buf_one)) = Some 0)
    by (by_evaluation).
  split; [exact Hfind|].
  apply (located_table_in_buffer buf_one 0 Hfind). lia.
Defined.

Lemma located_song_table_witness :
  findsong buf_one (Z.of_nat (length buf_one)) = Some 0 ∧
  convert_layout buf_one 0 = Some (packed_layout 1 1) ∧
  ∃ v, read_long buf_one (0 + 4) = Some v ∧ 0x28 < v < 0x400 ∧
       song_len (packed_layout 1 1) = v - 0x28 ∧
       0 <= song_cnt (packed_layout 1 1) <= 81 ∧
       song_offset (packed_layout 1 1) = 0 + 0x28 ∧
       song_offset (packed_layout 1 1) < Z.of_nat (length buf_one).
Proof.
  assert (Hsize : Z.of_nat (length buf_one) < 2 ^ 31) by (by_evaluation).
  assert (Hfind : findsong buf_one (Z.of_nat (length buf_one)) = Some 0)
    by (by_evaluation).
  assert (Hlay : convert_layout buf_one 0 = Some (packed_layout 1 1))
    by (by_evaluation).
  split; [exact Hfind|]. split; [exact Hlay|].
  apply (located_song_table buf_one 0 (packed_layout 1 1) Hsize Hfind); [lia|].
  exact Hlay.
Defined.

Lemma convert_samples_count_overflow_witness :
  ∃ l, convert_layout buf_huge_count 0 = Some l ∧
       2 ^ 28 <= sample_cnt l ∧
       convert_samples buf_huge_count l = None.
Proof.
  eexists. split; [by_evaluation|].
  assert (Hcnt : 2 ^ 28 <= 268435456) by lia.
  split; [exact Hcnt|].
  apply (convert_samples_count_overflow buf_huge_count). exact Hcnt.
Defined.

Lemma convert_instr_provenance_witness :
  convert_instr buf_two (packed_layout 2 1) [set_length 3 zero_info]
    = Some ([join_entry (set_length 3 zero_info) 8 6 224], []) ∧
  (((∀ j, 0 <= j < 2 → ¬ sampled_ref buf_two 1 (72 + 152 * j) 0) ∧
   load [join_entry (set_length 3 zero_info) 8 6 224] 0
     = load [set_length 3 zero_info] 0)
  ∨ (∃ j e0 len rep,
       0 <= j < 2 ∧
       sampled_ref buf_two 1 (72 + 152 * j) 0 ∧
       (∀ j', j < j' < 2 → ¬ sampled_ref buf_two 1 (72 + 152 * j') 0) ∧
       load [set_length 3 zero_info] 0 = Some e0 ∧
       read_ushort buf_two (72 + 152 * j + 4) = Some len ∧
       read_ushort buf_two (72 + 152 * j + 6) = Some rep ∧
       load [join_entry (set_length 3 zero_info) 8 6 224] 0
         = Some (join_entry e0 len rep (72 + 152 * j)))).
Proof.
  assert (Hin : in_long (instr_offset (packed_layout 2 1)))
    by (vm_compute; split; [discriminate|reflexivity]).
  assert (Hrun : convert_instr buf_two (packed_layout 2 1)
                   [set_length 3 zero_info]
                 = Some ([join_entry (set_length 3 zero_info) 8 6 224], []))
    by (by_evaluation).
  split; [exact Hrun|].
  exact (convert_instr_provenance buf_two (packed_layout 2 1) _ _ _ 0 Hin Hrun).
Defined.

Lemma joined_fields_in_range_witness :
  convert_layout buf_one 0 = Some (packed_layout 1 1) ∧
  convert_samples buf_one (packed_layout 1 1)
    = Some (3, [set_length 3 zero_info]) ∧
  convert_instr buf_one (packed_layout 1 1) [set_length 3 zero_info]
    = Some ([join_entry (set_length 3 zero_info) 7 5 72], []) ∧
  0 <= length_from_instr (join_entry (set_length 3 zero_info) 7 5 72) < 2 ^ 16 ∧
  0 <= repeat_from_instr (join_entry (set_length 3 zero_info) 7 5 72) < 2 ^ 16 ∧
  ((name_from_instr (join_entry (set_length 3 zero_info) 7 5 72) = None ∧
    length_from_instr (join_entry (set_length 3 zero_info) 7 5 72) = 0 ∧
    repeat_from_instr (join_entry (set_length 3 zero_info) 7 5 72) = 0)
   ∨ ∃ j, 0 <= j < 1 ∧
          name_from_instr (join_entry (set_length 3 zero_info) 7 5 72)
            = Some (72 + 152 * j + 0x7a)).
Proof.
  assert (Hlay : convert_layout buf_one 0 = Some (packed_layout 1 1))
    by (by_evaluation).
  assert (Hsamp : convert_samples buf_one (packed_layout 1 1)
                  = Some (3, [set_length 3 zero_info])) by (by_evaluation).
  assert (Hrun : convert_instr buf_one (packed_layout 1 1)
                   [set_length 3 zero_info]
                 = Some ([join_entry (set_length 3 zero_info) 7 5 72], []))
    by (by_evaluation).
  split; [exact Hlay|]. split; [exact Hsamp|]. split; [exact Hrun|].
  apply (joined_fields_in_range buf_one 0 (packed_layout 1 1) 3
           [set_length 3 zero_info]
           [join_entry (set_length 3 zero_info) 7 5 72] [] 0
           (join_entry (set_length 3 zero_info) 7 5 72) Hlay Hsamp Hrun).
  reflexivity.
Defined.

Lemma findsong_in_larger_buffer_witness :
  findsong buf_one (Z.of_nat (length buf_one)) = Some 0 ∧
  findsong (zeros 2 ++ buf_one ++ zeros 3)
    (Z.of_nat (length (zeros 2 ++ buf_one ++ zeros 3)))
    = Some (Z.of_nat (length (zeros 2)) + 0).
Proof.
  assert (Hfind : findsong buf_one (Z.of_nat (length buf_one)) = Some 0)
    by (by_evaluation).
  split; [exact Hfind|].
  apply (findsong_in_larger_buffer (zeros 2) buf_one (zeros 3) 0 Hfind).
  - lia.
  - reflexivity.
  - intros o Ho Heven.
    assert (o = 0) as ->
      by (destruct (Z.eq_dec o 1) as [->|]; [discriminate|simpl in Ho; lia]).
    intros [H _]. vm_compute in H. discriminate.
Defined.

Lemma convert_in_larger_buffer_witness :
  ∃ r f,
    convert env_ok buf_one 235 = Some r ∧ f_out r = Some f ∧
    ∃ r', convert env_ok (zeros 2 ++ buf_one ++ zeros 3) 240 = Some r' ∧
          f_out r' = Some f.
Proof.
  eexists _, _. split; [by_evaluation|]. split; [reflexivity|].
  eapply (convert_in_larger_buffer env_ok (zeros 2) buf_one (zeros 3)
            235 240 0).
  - by_evaluation.
  - reflexivity.
  - by_evaluation.
  - by_evaluation.
  - by_evaluation.
Defined.

Lemma written_tables_contiguous_witness :
  ∃ f, convert_write buf_one (packed_layout 1 1)
         [join_entry (set_length 3 zero_info) 7 5 72] 3 = Some f ∧
    ∃ song over note instr wave adsr amf,
      bytes_at buf_one 40 12 = Some song ∧
      bytes_at buf_one 52 16 = Some over ∧
      bytes_at buf_one 68 4 = Some note ∧
      bytes_at buf_one 72 152 = Some instr ∧
      bytes_at buf_one 224 0 = Some wave ∧
      bytes_at buf_one 224 0 = Some adsr ∧
      bytes_at buf_one 224 0 = Some amf ∧
      bytes_at buf_one 40 (224 - 40)
        = Some (song ++ over ++ note ++ instr ++ wave ++ adsr ++ amf).
Proof.
  assert (Hsize : Z.of_nat (length buf_one) < 2 ^ 31) by (by_evaluation).
  assert (Hlay : convert_layout buf_one 0 = Some (packed_layout 1 1))
    by (by_evaluation).
  destruct (convert_write buf_one (packed_layout 1 1)
              [join_entry (set_length 3 zero_info) 7 5 72] 3) as [f|] eqn:Hw;
    [|vm_compute in Hw; discriminate].
  exists f. split; [reflexivity|].
  destruct (written_tables_contiguous buf_one 0 (packed_layout 1 1) _ _ _
              Hsize Hlay Hw) as (_ & _ & _ & _ & _ & _ & _ & H).
  exact H.
Defined.

Lemma sample_tail_verbatim_witness :
  bytes_at buf_one (224 + 4 + mul32 1 4) 3 = Some (map byte_of_Z [9; 8; 7]) ∧
  bytes_at buf_one 224 4 = Some (long_bytes 1) ∧
  bytes_at buf_one (224 + 4) (4 * 1 + 3)
    = Some (flat_map (λ e, long_bytes (si_length e))
              (written_entries (packed_layout 1 1)
                 [join_entry (set_length 3 zero_info) 7 5 72])
            ++ map byte_of_Z [9; 8; 7]).
Proof.
  assert (Hlay : convert_layout buf_one 0 = Some (packed_layout 1 1))
    by (by_evaluation).
  assert (Hsamp : convert_samples buf_one (packed_layout 1 1)
                  = Some (3, [set_length 3 zero_info])) by (by_evaluation).
  assert (Hrun : convert_instr buf_one (packed_layout 1 1)
                   [set_length 3 zero_info]
                 = Some ([join_entry (set_length 3 zero_info) 7 5 72], []))
    by (by_evaluation).
  assert (Hpay : bytes_at buf_one (224 + 4 + mul32 1 4) 3
                 = Some (map byte_of_Z [9; 8; 7])) by (by_evaluation).
  split; [exact Hpay|].
  apply (sample_tail_verbatim buf_one 0 (packed_layout 1 1) 3
           [set_length 3 zero_info]
           [join_entry (set_length 3 zero_info) 7 5 72] []
           (map byte_of_Z [9; 8; 7]) Hlay Hsamp Hrun); [simpl; lia|exact Hpay].
Defined.

(** ** Well-formed modules *)

(** A well-formed module is converted: when the tables, the list of sample
    lengths and the sample data lie in the buffer, the sample count is not
    negative and below 2^28, and a sampled instrument refers to every
    sample, then, if the array can be allocated and the output opened,
    no read of [convert] leaves the buffer or the array, both loops and
    the writer complete, and the run ends with the written file after
    printing, in this order, the size, the report of the read, the offset
    of the module, the lines of the second loop, the tables and that the
    conversion was written. *)
Theorem well_formed_module_converted
    (e : env) (dat : list byte) (read_len offset : Z) (l : layout) :
  findsong dat (Z.of_nat (length dat)) = Some offset →
  0 <= offset →
  convert_layout dat offset = Some l →
  well_formed dat l →
  malloc_ok e (samples_info_size (sample_cnt l)) = true →
  fopen_out_ok e = true →
  ∃ sample_len si0 si printed f,
    convert_samples dat l = Some (sample_len, si0) ∧
    convert_instr dat l si0 = Some (si, printed) ∧
    convert_write dat l si sample_len = Some f ∧
    convert e dat read_len =
      Some {| stdout :=
                [Source_size (Z.of_nat (length dat));
                 if Z.of_nat (length dat) =? read_len then Read_bytes read_len
                 else Read_failed (Z.of_nat (length dat)) read_len;
                 Found_module offset] ++ printed ++
                [Tables l sample_len; Conversion_written];
              f_out := Some f |}.
Proof.
  intros Hfind H0 Hlay Hwf Hmalloc Hopen.
  destruct (convert_total e dat read_len offset l Hfind H0 Hlay Hwf Hmalloc
              Hopen) as (r & f & Hrun & Hf).
  destruct (convert_inv e dat read_len r f Hrun Hf)
    as (offset' & l' & sample_len & si0 & si & printed &
        Hfind' & _ & Hlay' & _ & Hsamp & Hinstr & _ & Hw).
  rewrite Hfind in Hfind'. injection Hfind' as <-.
  rewrite Hlay in Hlay'. injection Hlay' as <-.
  exists sample_len, si0, si, printed, f.
  split; [done|]. split; [done|]. split; [done|].
  assert (Hguard : (0 <=? offset) && (offset <? Z.of_nat (length dat) - 28)
                   = true).
  { destruct (findsong_guard _ _ Hfind) as [[_ ->]|[Hg _]]; [lia|done]. }
  unfold convert. cbv zeta. rewrite Hfind. cbn [mbind option_bind].
  rewrite Hguard, Hlay. cbn [mbind option_bind].
  rewrite Hmalloc, Hsamp. cbn [mbind option_bind].
  rewrite Hinstr. cbn [mbind option_bind]. rewrite Hopen, Hw.
  cbn [mbind option_bind]. do 2 f_equal.
  rewrite <- !app_assoc. reflexivity.
Qed.

Lemma well_formed_module_converted_witness :
  well_formed buf_one (packed_layout 1 1) ∧
  ∃ sample_len si0 si printed f,
    convert_samples buf_one (packed_layout 1 1) = Some (sample_len, si0) ∧
    convert_instr buf_one (packed_layout 1 1) si0 = Some (si, printed) ∧
    convert_write buf_one (packed_layout 1 1) si sample_len = Some f ∧
    convert env_ok buf_one 235 =
      Some {| stdout :=
                [Source_size (Z.of_nat (length buf_one));
                 if Z.of_nat (length buf_one) =? 235 then Read_bytes 235
                 else Read_failed (Z.of_nat (length buf_one)) 235;
                 Found_module 0] ++ printed ++
                [Tables (packed_layout 1 1) sample_len; Conversion_written];
              f_out := Some f |}.
Proof.
  split; [apply well_formed_buf_one|].
  apply (well_formed_module_converted env_ok buf_one 235 0 (packed_layout 1 1));
    [by_evaluation|lia|by_evaluation|apply well_formed_buf_one
    |reflexivity|reflexivity].
Defined.

Lemma converted_sample_count_bounds_witness :
  ∃ r f,
    convert env_ok buf_one 235 = Some r ∧ f_out r = Some f ∧
    ∃ offset l,
      findsong buf_one (Z.of_nat (length buf_one)) = Some offset ∧
      convert_layout buf_one offset = Some l ∧
      sample_cnt l <= 2 ^ 15 ∧
      (0 < sample_cnt l → sample_cnt l <= instr_cnt l).
Proof.
  eexists _, _. split; [by_evaluation|]. split; [reflexivity|].
  eapply (converted_sample_count_bounds env_ok buf_one 235).
  - by_evaluation.
  - reflexivity.
Defined.
